(** * Highlight synchronisation of the scripture reader

    A shallow embedding of the highlight handling found in
    [src/app/components/ScriptureReader.tsx], [src/app/components/Navbar.tsx]
    and [src/app/contexts/HighlightContext.tsx]: the in-memory highlight
    state, the mouse-selection handler that creates highlights, the
    socket handler that receives them, the two [saveHighlights]
    routines that write them to the document store, loading, deleting
    and recolouring, the rendering of a verse and the chapter buttons;
    and of the relay in [server.js]. *)

From Stdlib Require Import List String ZArith Bool Lia.
From Stdlib Require Import Ascii Permutation.
Import ListNotations.

Local Open Scope string_scope.
Local Open Scope Z_scope.
Local Open Scope list_scope.

(** ** JavaScript objects used as maps

    [LocalHighlights] is a plain object indexed by verse id.  Own string
    keys of an object are enumerated in insertion order (verse ids have
    the shape [Book_chapter_verse], never an array index), so an object
    is a key/value list in which assigning to an existing key keeps the
    key where it is and assigning to a new key appends it. *)

Module JsObject.
Section WithValue.
Context {V : Type}.

Definition t : Type := list (string * V).

Definition empty : t := [].

(** [o[k]]; [None] stands for [undefined]. *)
Fixpoint get (o : t) (k : string) : option V :=
  match o with
  | [] => None
  | (k', v) :: o' => if String.eqb k' k then Some v else get o' k
  end.

(** [o[k] = v]. *)
Fixpoint set (o : t) (k : string) (v : V) : t :=
  match o with
  | [] => [(k, v)]
  | (k', v') :: o' =>
      if String.eqb k' k then (k', v) :: o' else (k', v') :: set o' k v
  end.

(** [Object.values(o)]. *)
Definition values (o : t) : list V := map snd o.
End WithValue.
Arguments t : clear implicits.
End JsObject.

(** ** Data model *)

(** [interface HighlightedWord]; [id] is the optional document id. *)
Record HighlightedWord : Type := mkHighlight {
  id : option string;
  verseId : string;
  startIndex : Z;
  endIndex : Z;
  color : string;
  userId : string
}.

(** [interface LocalHighlights { [verseId: string]: HighlightedWord[] }] *)
Definition LocalHighlights : Type := JsObject.t (list HighlightedWord).

(** [interface SelectionState]; [None] is [null]. *)
Record SelectionState : Type := mkSelection {
  isSelecting : bool;
  sel_startIndex : option Z;
  sel_endIndex : option Z;
  sel_verseId : option string
}.

(** [interface Verse]; [verseId] is optional. *)
Record Verse : Type := mkVerse {
  v_bookId : string;
  v_chapterId : string;
  v_verse : Z;
  v_reference : string;
  v_text : string;
  v_verseId : option string
}.

(** The signed-in user as far as the highlight code reads it. *)
Record User : Type := mkUser { uid : string }.

(** The React state the highlight code works on: [needsSync], [isSyncing]
    and [localHighlights] live in [HighlightProvider], [highlightedWords]
    and [selection] in the [ScriptureReader] component. *)
Record State : Type := mkState {
  needsSync : bool;
  isSyncing : bool;
  localHighlights : LocalHighlights;
  highlightedWords : list HighlightedWord;
  selection : SelectionState
}.

(** What does not change while the handlers below run. *)
Record Props : Type := mkProps {
  user : option User;
  verses : list Verse;
  selectedColor : string;
  (** [socket && isConnected] *)
  socketConnected : bool
}.

(** A handler is a closure created by one render: every state variable it
    names ([selection], [isSyncing], [localHighlights], ...) is the
    constant that render bound, while a state setter acts on the live
    state, and an updater function passed to a setter receives the live
    value as [prev]. *)
Record Closure : Type := mkClosure {
  props : Props;
  seen : State
}.

Definition render (p : Props) (s : State) : Closure :=
  {| props := p; seen := s |}.

(** *** State setters *)

Definition setNeedsSync (b : bool) (s : State) : State :=
  {| needsSync := b; isSyncing := isSyncing s;
     localHighlights := localHighlights s;
     highlightedWords := highlightedWords s; selection := selection s |}.

Definition setIsSyncing (b : bool) (s : State) : State :=
  {| needsSync := needsSync s; isSyncing := b;
     localHighlights := localHighlights s;
     highlightedWords := highlightedWords s; selection := selection s |}.

Definition setLocalHighlights (f : LocalHighlights -> LocalHighlights)
    (s : State) : State :=
  {| needsSync := needsSync s; isSyncing := isSyncing s;
     localHighlights := f (localHighlights s);
     highlightedWords := highlightedWords s; selection := selection s |}.

Definition setHighlightedWords
    (f : list HighlightedWord -> list HighlightedWord) (s : State) : State :=
  {| needsSync := needsSync s; isSyncing := isSyncing s;
     localHighlights := localHighlights s;
     highlightedWords := f (highlightedWords s); selection := selection s |}.

Definition setSelection (f : SelectionState -> SelectionState)
    (s : State) : State :=
  {| needsSync := needsSync s; isSyncing := isSyncing s;
     localHighlights := localHighlights s;
     highlightedWords := highlightedWords s; selection := f (selection s) |}.

(** [Object.values(localHighlights).flat()] *)
Definition allFlattened (l : LocalHighlights) : list HighlightedWord :=
  List.concat (JsObject.values l).

(** ** The document store

    The [highlights] collection of the document database, as far as the
    client code uses it: an equality query on [userId], references with
    automatically generated ids, and atomic write batches. *)

(** [serverTimestamp()] is a sentinel the server replaces. *)
Inductive FieldValue : Type := ServerTimestamp.

(** The object written by [batch.set]. *)
Record HighlightData : Type := mkData {
  d_verseId : string;
  d_startIndex : Z;
  d_endIndex : Z;
  d_color : string;
  d_userId : string;
  d_timestamp : FieldValue
}.

(** Documents by id. *)
Definition Collection : Type := JsObject.t HighlightData.

Inductive WriteOp : Type :=
| BatchDelete (docId : string)
| BatchSet (docId : string) (data : HighlightData).

Definition WriteBatch : Type := list WriteOp.

(** [query(highlightsRef, where('userId', '==', uid))]: the documents
    that match, listed here as the collection lists them.  The query
    asks for no order, and the order of a snapshot is the service's
    own: where the order a load sees matters, the snapshot is taken as
    any list of these documents ([answers] below). *)
Definition whereUserId (u : string) (docs : Collection) : Collection :=
  filter (fun d => String.eqb (d_userId (snd d)) u) docs.

Definition applyWrite (docs : Collection) (op : WriteOp) : Collection :=
  match op with
  | BatchDelete i => filter (fun d => negb (String.eqb (fst d) i)) docs
  | BatchSet i data => JsObject.set docs i data
  end.

(** A committed batch applies all of its writes, in order. *)
Definition applyBatch (docs : Collection) (b : WriteBatch) : Collection :=
  fold_left applyWrite b docs.

(** ** Asynchronous handlers

    An [async] function is a tree of the effects it performs.  The
    constructors with a function argument are the points where the
    function receives a value; [GetDocs] and [Commit] are the two
    [await]s, at which the function is suspended until the store answers.
    [Return] resolves the promise of the function, [Throw] is an
    exception on its way out. *)

Inductive Prog : Type :=
| Return
| Throw
| SetIsSyncing (b : bool) (k : Prog)
| SetNeedsSync (b : bool) (k : Prog)
| SetHighlightedWords (hs : list HighlightedWord) (k : Prog)
| ConsoleError (msg : string) (k : Prog)
| NewDoc (k : string -> Prog)
| GetDocs (u : string) (k : option Collection -> Prog)
| Commit (b : WriteBatch) (k : bool -> Prog).

(** [await getDocs(q)]: the snapshot, or the rejection thrown. *)
Definition awaitGetDocs (u : string) (k : Collection -> Prog) : Prog :=
  GetDocs u (fun r => match r with
                      | Some snapshot => k snapshot
                      | None => Throw
                      end).

(** [await batch.commit()] *)
Definition awaitCommit (b : WriteBatch) (k : Prog) : Prog :=
  Commit b (fun ok => if ok then k else Throw).

(** [p] continued by [onReturn] where it returns and by [onThrow] where
    it throws. *)
Fixpoint continue (p onReturn onThrow : Prog) : Prog :=
  match p with
  | Return => onReturn
  | Throw => onThrow
  | SetIsSyncing b k => SetIsSyncing b (continue k onReturn onThrow)
  | SetNeedsSync b k => SetNeedsSync b (continue k onReturn onThrow)
  | SetHighlightedWords hs k =>
      SetHighlightedWords hs (continue k onReturn onThrow)
  | ConsoleError msg k => ConsoleError msg (continue k onReturn onThrow)
  | NewDoc k => NewDoc (fun i => continue (k i) onReturn onThrow)
  | GetDocs u k => GetDocs u (fun r => continue (k r) onReturn onThrow)
  | Commit b k => Commit b (fun ok => continue (k ok) onReturn onThrow)
  end.

(** [try { body } catch (error) { handler } finally { finalizer }] as the
    last statement of a function: the finalizer runs on every way out;
    after it the function returns, unless the handler itself threw. *)
Definition tryCatchFinally (body handler : Prog) (finalizer : Prog -> Prog)
    : Prog :=
  continue body
    (finalizer Return)
    (continue handler (finalizer Return) (finalizer Throw)).

(** *** Running handlers *)

Inductive StorageOp : Type :=
| OpGetDocs (u : string)
| OpCommit (b : WriteBatch).

(** The browser tab and the store it talks to: the React state, the
    collection, how many document references were generated, the
    requests sent to the store so far (oldest first) and what
    [console.error] printed. *)
Record World : Type := mkWorld {
  state : State;
  store : Collection;
  generated : nat;
  requests : list StorageOp;
  console : list string
}.

Definition withState (f : State -> State) (w : World) : World :=
  {| state := f (state w); store := store w; generated := generated w;
     requests := requests w; console := console w |}.

Definition withStore (f : Collection -> Collection) (w : World) : World :=
  {| state := state w; store := f (store w); generated := generated w;
     requests := requests w; console := console w |}.

Definition sent (op : StorageOp) (w : World) : World :=
  {| state := state w; store := store w; generated := generated w;
     requests := requests w ++ [op]; console := console w |}.

Definition printed (msg : string) (w : World) : World :=
  {| state := state w; store := store w; generated := generated w;
     requests := requests w; console := console w ++ [msg] |}.

Definition nextDoc (w : World) : World :=
  {| state := state w; store := store w; generated := S (generated w);
     requests := requests w; console := console w |}.

Inductive Completion : Type := Resolved | Rejected.

(** A call that has run as far as it can without an answer. *)
Inductive Pending : Type :=
| Finished (c : Completion)
| AwaitingGetDocs (u : string) (k : option Collection -> Prog)
| AwaitingCommit (b : WriteBatch) (k : bool -> Prog).

(** Whether the store answers the read and the write of a call. *)
Record Network : Type := mkNetwork {
  getDocsSucceeds : bool;
  commitSucceeds : bool
}.

Section Semantics.
(** The id of the [n]-th generated document reference. *)
Variable autoId : nat -> string.

(** Run [p] up to its next [await]; the request is sent on the way. *)
Fixpoint advance (p : Prog) (w : World) : World * Pending :=
  match p with
  | Return => (w, Finished Resolved)
  | Throw => (w, Finished Rejected)
  | SetIsSyncing b k => advance k (withState (setIsSyncing b) w)
  | SetNeedsSync b k => advance k (withState (setNeedsSync b) w)
  | SetHighlightedWords hs k =>
      advance k (withState (setHighlightedWords (fun _ => hs)) w)
  | ConsoleError msg k => advance k (printed msg w)
  | NewDoc k => advance (k (autoId (generated w))) (nextDoc w)
  | GetDocs u k => (sent (OpGetDocs u) w, AwaitingGetDocs u k)
  | Commit b k => (sent (OpCommit b) w, AwaitingCommit b k)
  end.

(** The store answers a suspended call, which runs to its next
    [await]: a read answers with the matching documents, a successful
    commit applies the whole batch, a failed one nothing. *)
Definition resume (ok : bool) (t : Pending) (w : World)
    : World * Pending :=
  match t with
  | Finished c => (w, Finished c)
  | AwaitingGetDocs u k =>
      if ok then advance (k (Some (whereUserId u (store w)))) w
      else advance (k None) w
  | AwaitingCommit b k =>
      if ok then advance (k true) (withStore (fun d => applyBatch d b) w)
      else advance (k false) w
  end.

(** A call run from start to end with nothing in between. *)
Fixpoint run (net : Network) (p : Prog) (w : World) : World * Completion :=
  match p with
  | Return => (w, Resolved)
  | Throw => (w, Rejected)
  | SetIsSyncing b k => run net k (withState (setIsSyncing b) w)
  | SetNeedsSync b k => run net k (withState (setNeedsSync b) w)
  | SetHighlightedWords hs k =>
      run net k (withState (setHighlightedWords (fun _ => hs)) w)
  | ConsoleError msg k => run net k (printed msg w)
  | NewDoc k => run net (k (autoId (generated w))) (nextDoc w)
  | GetDocs u k =>
      let w := sent (OpGetDocs u) w in
      if getDocsSucceeds net
      then run net (k (Some (whereUserId u (store w)))) w
      else run net (k None) w
  | Commit b k =>
      let w := sent (OpCommit b) w in
      if commitSucceeds net
      then run net (k true) (withStore (fun d => applyBatch d b) w)
      else run net (k false) w
  end.

(** A suspended call run to its end. *)
Definition finish (net : Network) (t : Pending) (w : World)
    : World * Completion :=
  match t with
  | Finished c => (w, c)
  | AwaitingGetDocs u k =>
      if getDocsSucceeds net
      then run net (k (Some (whereUserId u (store w)))) w
      else run net (k None) w
  | AwaitingCommit b k =>
      if commitSucceeds net
      then run net (k true) (withStore (fun d => applyBatch d b) w)
      else run net (k false) w
  end.
End Semantics.

(** How many batches were committed among the requests. *)
Definition commitCount (ops : list StorageOp) : nat :=
  List.length (filter (fun op => match op with
                                 | OpCommit _ => true
                                 | OpGetDocs _ => false
                                 end) ops).

(** *** Writes of one document

    [deleteDoc] and [updateDoc] on a reference of the [highlights]
    collection. *)

Inductive SingleWrite : Type :=
| DeleteDoc (docId : string)
| UpdateDoc (docId : string) (newColor : string).

Definition deleteDocument (i : string) (docs : Collection) : Collection :=
  filter (fun d => negb (String.eqb (fst d) i)) docs.

(** [updateDoc(ref, { color: newColor })] *)
Definition updateDocumentColor (i newColor : string) (docs : Collection)
    : Collection :=
  map (fun d =>
    if String.eqb (fst d) i
    then (fst d,
          {| d_verseId := d_verseId (snd d);
             d_startIndex := d_startIndex (snd d);
             d_endIndex := d_endIndex (snd d);
             d_color := newColor;
             d_userId := d_userId (snd d);
             d_timestamp := d_timestamp (snd d) |})
    else d) docs.

(** * The scripture reader *)

Module ScriptureReader.

(** ** Creating a highlight from a mouse selection *)

(** A string is truthy when it is not empty. *)
Definition truthy (s : string) : bool := negb (String.eqb s "").

Definition noSelection : SelectionState :=
  {| isSelecting := false; sel_startIndex := None; sel_endIndex := None;
     sel_verseId := None |}.

Definition handleMouseDown (vId : string) (start : Z) (s : State) : State :=
  setSelection (fun _ =>
    {| isSelecting := true; sel_startIndex := Some start;
       sel_endIndex := Some start; sel_verseId := Some vId |}) s.

Definition handleMouseMove (c : Closure) (vId : string) (currentIndex : Z)
    (s : State) : State :=
  if isSelecting (selection (seen c)) &&
     match sel_verseId (selection (seen c)) with
     | Some v => String.eqb v vId
     | None => false
     end
  then setSelection (fun prev =>
         {| isSelecting := isSelecting prev;
            sel_startIndex := sel_startIndex prev;
            sel_endIndex := Some currentIndex;
            sel_verseId := sel_verseId prev |}) s
  else s.

(** The predicate both filters of [handleMouseUp] keep a highlight by:
    [h.startIndex < start || h.endIndex > end]. *)
Definition keptOnCreate (start end_ : Z) (h : HighlightedWord) : bool :=
  (startIndex h <? start) || (endIndex h >? end_).

(** The updater given to [setLocalHighlights] in [handleMouseUp]:
    copy [prev], create the bucket when it is missing, filter it and push
    the new highlight. *)
Definition addToLocalHighlights (vId : string) (start end_ : Z)
    (newHighlight : HighlightedWord) (prev : LocalHighlights)
    : LocalHighlights :=
  let newHighlights :=
    match JsObject.get prev vId with
    | None => JsObject.set prev vId []
    | Some _ => prev
    end in
  let bucket :=
    match JsObject.get newHighlights vId with
    | Some b => b
    | None => []
    end in
  JsObject.set newHighlights vId
    (filter (keptOnCreate start end_) bucket ++ [newHighlight]).

(** The updater given to [setHighlightedWords] in [handleMouseUp]. *)
Definition addToHighlightedWords (vId : string) (start end_ : Z)
    (newHighlight : HighlightedWord) (prev : list HighlightedWord)
    : list HighlightedWord :=
  filter (fun h => negb (String.eqb (verseId h) vId)
                   || keptOnCreate start end_ h) prev
  ++ [newHighlight].

(** [verses.find(v => v.verseId === selection.verseId)] *)
Definition findVerse (vs : list Verse) (vId : string) : option Verse :=
  find (fun v => match v_verseId v with
                 | Some i => String.eqb i vId
                 | None => false
                 end) vs.

(** [user?.uid || ''] *)
Definition uidOrEmpty (u : option User) : string :=
  match u with
  | Some u => uid u
  | None => ""
  end.

(** [handleMouseUp]: the new state and the highlights emitted on the
    socket.  (The second copy of the component in the same file first
    leaves, clearing the selection, when the release is on a button; the
    rest is the same.) *)
Definition handleMouseUp (c : Closure) (s : State)
    : State * list HighlightedWord :=
  let sel := selection (seen c) in
  let reset := setSelection (fun _ => noSelection) in
  match isSelecting sel, sel_startIndex sel, sel_endIndex sel,
        sel_verseId sel with
  | true, Some a, Some b, Some selVerse =>
      if truthy selVerse then
        let start := Z.min a b in
        let end_ := Z.max a b in
        if end_ >? start then
          match findVerse (verses (props c)) selVerse with
          | Some verse =>
              match v_verseId verse with
              | Some vId =>
                  if truthy vId then
                    let newHighlight :=
                      {| id := None; verseId := vId; startIndex := start;
                         endIndex := end_;
                         color := selectedColor (props c);
                         userId := uidOrEmpty (user (props c)) |} in
                    let s1 := setLocalHighlights
                      (addToLocalHighlights vId start end_ newHighlight) s in
                    let s2 := setHighlightedWords
                      (addToHighlightedWords vId start end_ newHighlight) s1 in
                    let s3 := setNeedsSync true s2 in
                    (reset s3,
                     if socketConnected (props c) then [newHighlight] else [])
                  else (reset s, [])
              | None => (reset s, [])
              end
          | None => (reset s, [])
          end
        else (reset s, [])
      else (reset s, [])
  | _, _, _, _ => (reset s, [])
  end.

(** One complete selection gesture on verse [vId]: press at offset [a],
    move to offset [b], release; the component re-renders after each
    event, so each handler is the closure of the state the previous one
    left. *)
Definition drag (p : Props) (vId : string) (a b : Z) (s : State)
    : State * list HighlightedWord :=
  let s1 := handleMouseDown vId a s in
  let s2 := handleMouseMove (render p s1) vId b s1 in
  handleMouseUp (render p s2) s2.

(** ** Receiving a highlight from the socket *)

(** The updater given to [setHighlightedWords] by the ['highlight']
    handler of the socket connection. *)
Definition receiveIntoHighlightedWords (data : HighlightedWord)
    (prev : list HighlightedWord) : list HighlightedWord :=
  let exists_ := existsb (fun h =>
    String.eqb (verseId h) (verseId data) &&
    (startIndex h =? startIndex data) &&
    (endIndex h =? endIndex data) &&
    String.eqb (userId h) (userId data)) prev in
  if negb exists_ then prev ++ [data] else prev.

(** The updater given to [setLocalHighlights] by the same handler. *)
Definition receiveIntoLocalHighlights (data : HighlightedWord)
    (prev : LocalHighlights) : LocalHighlights :=
  let newHighlights :=
    match JsObject.get prev (verseId data) with
    | None => JsObject.set prev (verseId data) []
    | Some _ => prev
    end in
  let bucket :=
    match JsObject.get newHighlights (verseId data) with
    | Some b => b
    | None => []
    end in
  let exists_ := existsb (fun h =>
    (startIndex h =? startIndex data) &&
    (endIndex h =? endIndex data) &&
    String.eqb (userId h) (userId data)) bucket in
  if negb exists_
  then JsObject.set newHighlights (verseId data) (bucket ++ [data])
  else newHighlights.

(** [{ ...prev }] copies the object, not its arrays: a bucket of the
    copy is the very array [prev] holds, and [push] changes it in
    place.  So the updater also shows in the map object that an earlier
    render bound, as long as that object shares its buckets with
    [prev]: in a bucket it has, the highlight is pushed as well; a
    bucket it does not have is created in the copy alone.  No other
    handler changes a bucket in place. *)
Definition pushedInto (data : HighlightedWord) (earlier : LocalHighlights)
    : LocalHighlights :=
  match JsObject.get earlier (verseId data) with
  | Some bucket =>
      let exists_ := existsb (fun h =>
        (startIndex h =? startIndex data) &&
        (endIndex h =? endIndex data) &&
        String.eqb (userId h) (userId data)) bucket in
      if negb exists_
      then JsObject.set earlier (verseId data) (bucket ++ [data])
      else earlier
  | None => earlier
  end.

Definition pushedAll (arrived : list HighlightedWord)
    (earlier : LocalHighlights) : LocalHighlights :=
  fold_left (fun shared data => pushedInto data shared) arrived earlier.

(** The ['highlight'] handler of the socket connection. *)
Definition onHighlight (data : HighlightedWord) (s : State) : State :=
  setLocalHighlights (receiveIntoLocalHighlights data)
    (setHighlightedWords (receiveIntoHighlightedWords data) s).


(** ** Regrouping effect

    The effect with dependencies [verses, highlightedWords]: after a
    render in which [highlightedWords] is not empty, [localHighlights] is
    replaced by [highlightedWords] grouped by verse. *)

(** The callback of [forEach] in the grouping loop. *)
Definition groupInto (groupedHighlights : LocalHighlights)
    (highlight : HighlightedWord) : LocalHighlights :=
  let grouped :=
    match JsObject.get groupedHighlights (verseId highlight) with
    | None => JsObject.set groupedHighlights (verseId highlight) []
    | Some _ => groupedHighlights
    end in
  let bucket :=
    match JsObject.get grouped (verseId highlight) with
    | Some b => b
    | None => []
    end in
  JsObject.set grouped (verseId highlight) (bucket ++ [highlight]).

Definition groupByVerse (hs : list HighlightedWord) : LocalHighlights :=
  fold_left groupInto hs JsObject.empty.

Definition regroupEffect (s : State) : State :=
  match highlightedWords s with
  | [] => s
  | _ :: _ => setLocalHighlights (fun _ => groupByVerse (highlightedWords s)) s
  end.

(** ** Saving

    [saveHighlights] of the reader.  The loop over [allHighlights]
    creates one reference per highlight, adds the [set] to the batch and
    remembers the document. *)
Fixpoint addNewHighlights (u : User) (allHighlights : list HighlightedWord)
    (batch : WriteBatch) (newHighlightDocs : list (string * HighlightData))
    (k : WriteBatch -> list (string * HighlightData) -> Prog) : Prog :=
  match allHighlights with
  | [] => k batch newHighlightDocs
  | highlight :: rest =>
      NewDoc (fun docRef =>
        let highlightData :=
          {| d_verseId := verseId highlight;
             d_startIndex := startIndex highlight;
             d_endIndex := endIndex highlight;
             d_color := color highlight;
             d_userId := uid u;
             d_timestamp := ServerTimestamp |} in
        addNewHighlights u rest
          (batch ++ [BatchSet docRef highlightData])
          (newHighlightDocs ++ [(docRef, highlightData)]) k)
  end.

(** [newHighlightDocs.map(doc => ({ id: doc.id, ... }))] *)
Definition updatedHighlights (newHighlightDocs : list (string * HighlightData))
    : list HighlightedWord :=
  map (fun d =>
    {| id := Some (fst d);
       verseId := d_verseId (snd d);
       startIndex := d_startIndex (snd d);
       endIndex := d_endIndex (snd d);
       color := d_color (snd d);
       userId := d_userId (snd d) |}) newHighlightDocs.

Definition saveHighlights (c : Closure) : Prog :=
  match user (props c) with
  | None => Return
  | Some u =>
      if isSyncing (seen c) then Return
      else
        tryCatchFinally
          (SetIsSyncing true
            (let allHighlights := allFlattened (localHighlights (seen c)) in
             if (List.length allHighlights =? 0)%nat
             then SetNeedsSync false Return
             else
               awaitGetDocs (uid u) (fun existingHighlights =>
                 let batch :=
                   map (fun d => BatchDelete (fst d)) existingHighlights in
                 addNewHighlights u allHighlights batch []
                   (fun batch newHighlightDocs =>
                      awaitCommit batch
                        (SetHighlightedWords
                           (updatedHighlights newHighlightDocs)
                           (SetNeedsSync false Return))))))
          (ConsoleError "Error saving highlights to Firebase:" Return)
          (SetIsSyncing false)
  end.

(** ** Loading

    [loadHighlights], the effect run when the user changes: the saved
    highlights of the user replace both stores.  [ok] says whether the
    store answers the read. *)

(** [{ id: doc.id, verseId, startIndex: data.startIndex, ... }] *)
Definition savedHighlight (d : string * HighlightData) : HighlightedWord :=
  {| id := Some (fst d);
     verseId := d_verseId (snd d);
     startIndex := d_startIndex (snd d);
     endIndex := d_endIndex (snd d);
     color := d_color (snd d);
     userId := d_userId (snd d) |}.

Definition loadHighlights (ok : bool) (c : Closure) (w : World) : World :=
  match user (props c) with
  | None => w
  | Some u =>
      let w := sent (OpGetDocs (uid u)) w in
      if ok then
        let savedHighlights :=
          map savedHighlight (whereUserId (uid u) (store w)) in
        let groupedHighlights :=
          fold_left groupInto savedHighlights JsObject.empty in
        withState (setNeedsSync false)
          (withState (setHighlightedWords (fun _ => savedHighlights))
            (withState (setLocalHighlights (fun _ => groupedHighlights)) w))
      else printed "Error loading highlights:" w
  end.

(** [loadHighlights] given what the query answered: the snapshot, in
    the order the service chose, or [None] when the read failed. *)
Definition loadHighlightsFrom (answer : option Collection) (c : Closure)
    (w : World) : World :=
  match user (props c) with
  | None => w
  | Some u =>
      let w := sent (OpGetDocs (uid u)) w in
      match answer with
      | Some highlightsSnapshot =>
          let savedHighlights := map savedHighlight highlightsSnapshot in
          let groupedHighlights :=
            fold_left groupInto savedHighlights JsObject.empty in
          withState (setNeedsSync false)
            (withState (setHighlightedWords (fun _ => savedHighlights))
              (withState (setLocalHighlights (fun _ => groupedHighlights)) w))
      | None => printed "Error loading highlights:" w
      end
  end.

(** ** Deleting and recolouring one highlight *)

(** [if (highlight.id)]: the id, when there is one and it is not empty. *)
Definition persistedId (highlight : HighlightedWord) : option string :=
  match id highlight with
  | Some i => if truthy i then Some i else None
  | None => None
  end.

(** The updater given to [setLocalHighlights] in [deleteHighlight]. *)
Definition removeFromLocalHighlights (highlight : HighlightedWord)
    (prev : LocalHighlights) : LocalHighlights :=
  match JsObject.get prev (verseId highlight) with
  | Some bucket =>
      JsObject.set prev (verseId highlight)
        (filter (fun h => negb (startIndex h =? startIndex highlight)
                          || negb (endIndex h =? endIndex highlight)) bucket)
  | None => prev
  end.

(** The updater given to [setHighlightedWords] in [deleteHighlight]. *)
Definition removeFromHighlightedWords (highlight : HighlightedWord)
    (prev : list HighlightedWord) : list HighlightedWord :=
  filter (fun h => negb (String.eqb (verseId h) (verseId highlight))
                   || negb (startIndex h =? startIndex highlight)
                   || negb (endIndex h =? endIndex highlight)) prev.

(** [deleteHighlight]: the world when the handler and the save it starts
    are over, and the single writes it sent.  [saveHighlights] is the one
    of the render that made this handler, so it reads the highlights
    map of that render.  [deleted] says whether [deleteDoc] succeeds. *)
Definition deleteHighlight (autoId : nat -> string) (net : Network)
    (deleted : bool) (c : Closure) (highlight : HighlightedWord) (w : World)
    : World * list SingleWrite :=
  match user (props c) with
  | None => (w, [])
  | Some _ =>
      let w :=
        withState (setNeedsSync true)
          (withState (setHighlightedWords
                        (removeFromHighlightedWords highlight))
            (withState (setLocalHighlights
                          (removeFromLocalHighlights highlight)) w)) in
      match persistedId highlight with
      | Some i =>
          if deleted
          then (fst (run autoId net (saveHighlights c)
                       (withStore (deleteDocument i) w)),
                [DeleteDoc i])
          else (printed "Error deleting highlight:" w, [DeleteDoc i])
      | None => (fst (run autoId net (saveHighlights c) w), [])
      end
  end.

(** [{ ...h, color: newColor }] *)
Definition withColor (newColor : string) (h : HighlightedWord)
    : HighlightedWord :=
  {| id := id h; verseId := verseId h; startIndex := startIndex h;
     endIndex := endIndex h; color := newColor; userId := userId h |}.

(** The updater given to [setLocalHighlights] in [updateHighlightColor]. *)
Definition recolorInLocalHighlights (highlight : HighlightedWord)
    (newColor : string) (prev : LocalHighlights) : LocalHighlights :=
  match JsObject.get prev (verseId highlight) with
  | Some bucket =>
      JsObject.set prev (verseId highlight)
        (map (fun h => if (startIndex h =? startIndex highlight)
                          && (endIndex h =? endIndex highlight)
                       then withColor newColor h else h) bucket)
  | None => prev
  end.

(** The updater given to [setHighlightedWords] in
    [updateHighlightColor]. *)
Definition recolorInHighlightedWords (highlight : HighlightedWord)
    (newColor : string) (prev : list HighlightedWord)
    : list HighlightedWord :=
  map (fun h => if String.eqb (verseId h) (verseId highlight)
                   && (startIndex h =? startIndex highlight)
                   && (endIndex h =? endIndex highlight)
                then withColor newColor h else h) prev.

(** [updateHighlightColor]; [updated] says whether [updateDoc]
    succeeds.  (The popup it closes at the end is not part of the
    state kept here.) *)
Definition updateHighlightColor (updated : bool) (c : Closure)
    (highlight : HighlightedWord) (newColor : string) (w : World)
    : World * list SingleWrite :=
  match user (props c) with
  | None => (w, [])
  | Some _ =>
      let w :=
        withState (setNeedsSync true)
          (withState (setHighlightedWords
                        (recolorInHighlightedWords highlight newColor))
            (withState (setLocalHighlights
                          (recolorInLocalHighlights highlight newColor)) w)) in
      match persistedId highlight with
      | Some i =>
          if updated
          then (withStore (updateDocumentColor i newColor) w,
                [UpdateDoc i newColor])
          else (printed "Error updating highlight color:" w,
                [UpdateDoc i newColor])
      | None => (w, [])
      end
  end.

(** ** Rendering a verse

    [renderVerseText] cuts the text at runs of white space, keeps the
    runs, gives every piece its offsets and looks for a highlight that
    touches it.  Texts are strings of code units below 256. *)

(** [\s] below 256: tab, line feed, vertical tab, form feed, carriage
    return, space, no-break space. *)
Definition isWhitespace (ch : ascii) : bool :=
  let n := nat_of_ascii ch in
  ((9 <=? n) && (n <=? 13) || (n =? 32) || (n =? 160))%nat.

(** [text.split(/(\s+)/)] from the middle of a piece: [cur] is the piece
    read so far, a run of white space when [inSpace]. *)
Fixpoint splitFrom (inSpace : bool) (cur text : string) : list string :=
  match text with
  | EmptyString => if inSpace then [cur; ""%string] else [cur]
  | String ch rest =>
      if Bool.eqb (isWhitespace ch) inSpace
      then splitFrom inSpace (cur ++ String ch "")%string rest
      else cur :: splitFrom (isWhitespace ch) (String ch "") rest
  end.

Definition splitWhitespace (text : string) : list string :=
  splitFrom false "" text.

(** The [startIndex] and [endIndex] that [words.map] gives the pieces,
    [currentPosition] being [pos] at the first. *)
Fixpoint positions (pos : Z) (words : list string) : list (Z * Z) :=
  match words with
  | [] => []
  | word :: rest =>
      let endIndex := pos + Z.of_nat (String.length word) in
      (pos, endIndex) :: positions endIndex rest
  end.

(** The test of [highlightRanges.find] for the piece from [start] to
    [end_]. *)
Definition touches (start end_ : Z) (h : HighlightedWord) : bool :=
  (start >=? startIndex h) && (end_ <=? endIndex h)
  || (start >=? startIndex h) && (start <? endIndex h)
  || (end_ >? startIndex h) && (end_ <=? endIndex h)
  || (start <=? startIndex h) && (end_ >=? endIndex h).

(** The highlights of the verse, before they are sorted. *)
Definition rangesOfVerse (hs : list HighlightedWord) (vId : option string)
    : list HighlightedWord :=
  filter (fun h => match vId with
                   | Some v => String.eqb (verseId h) v
                   | None => false
                   end) hs.

(** What is shown for one piece: its highlight, if any, and whether the
    two buttons are drawn on it.  [highlightRanges] is the sorted list;
    the comparison given to [sort], [a.startIndex - b.endIndex], is not
    an order, so the list is only known to hold the highlights of the
    verse. *)
Definition renderPiece (highlightRanges : list HighlightedWord)
    (span : Z * Z) : option HighlightedWord * bool :=
  let highlight := find (touches (fst span) (snd span)) highlightRanges in
  (highlight,
   match highlight with
   | Some h => fst span =? startIndex h
   | None => false
   end).

Definition renderVerseText (highlightRanges : list HighlightedWord)
    (verse : Verse) : list (string * (Z * Z) * (option HighlightedWord * bool)) :=
  let words := splitWhitespace (v_text verse) in
  map (fun ws => (fst ws, snd ws, renderPiece highlightRanges (snd ws)))
    (combine words (positions 0 words)).

(** ** Moving between chapters

    The state the book and chapter selectors work on, the effect that
    fetches the chapters of the selected book, and the two buttons under
    the text. *)

(** [interface Book] *)
Record Book : Type := mkBook {
  title : string;
  numberOfChapters : Z;
  order : Z
}.

(** [interface Chapter]; [chapterId] is optional. *)
Record Chapter : Type := mkChapter {
  c_bookId : string;
  c_chapter : Z;
  c_reference : string;
  c_numberOfVerses : Z;
  c_chapterId : option string
}.

(** [navigationRef] is a ref: it is read and written as it is at the
    time, not as a render saw it. *)
Record Navigation : Type := mkNavigation {
  books : list Book;
  chapters : list Chapter;
  selectedBook : string;
  selectedChapter : string;
  shownVerses : list Verse;
  selectedVerse : string;
  navigationRef : option (string * string);
  loading : bool;
  loadError : option string
}.

(** [array.findIndex(f)], counting from [i]; [-1] when nothing is
    found. *)
Fixpoint findIndexFrom {A : Type} (f : A -> bool) (i : Z) (l : list A) : Z :=
  match l with
  | [] => -1
  | x :: rest => if f x then i else findIndexFrom f (i + 1) rest
  end.

Definition findIndex {A : Type} (f : A -> bool) (l : list A) : Z :=
  findIndexFrom f 0 l.

(** [array[i]]; [None] is [undefined]. *)
Definition at_ {A : Type} (l : list A) (i : Z) : option A :=
  if i <? 0 then None else nth_error l (Z.to_nat i).

(** [chapter.chapterId || ''] *)
Definition chapterIdOrEmpty (ch : Chapter) : string :=
  match c_chapterId ch with
  | Some i => i
  | None => ""
  end.

(** [c => c.chapterId === selectedChapter] *)
Definition isChapter (selected : string) (ch : Chapter) : bool :=
  match c_chapterId ch with
  | Some i => String.eqb i selected
  | None => false
  end.

Definition handleBookChange (value : string) (nav : Navigation)
    : Navigation :=
  {| books := books nav; chapters := chapters nav; selectedBook := value;
     selectedChapter := ""; shownVerses := []; selectedVerse := "";
     navigationRef := navigationRef nav; loading := loading nav;
     loadError := loadError nav |}.

Definition handleChapterChange (value : string) (nav : Navigation)
    : Navigation :=
  {| books := books nav; chapters := chapters nav;
     selectedBook := selectedBook nav; selectedChapter := value;
     shownVerses := []; selectedVerse := "";
     navigationRef := navigationRef nav; loading := loading nav;
     loadError := loadError nav |}.

(** [setSelectedBook(title)], after [navigationRef.current] was given
    the value [ref]. *)
Definition goToBook (ref : option (string * string)) (newBook : string)
    (nav : Navigation) : Navigation :=
  {| books := books nav; chapters := chapters nav; selectedBook := newBook;
     selectedChapter := selectedChapter nav; shownVerses := shownVerses nav;
     selectedVerse := selectedVerse nav; navigationRef := ref;
     loading := loading nav; loadError := loadError nav |}.

(** The handler of the button [Previous Chapter]; [None] when it reads
    a property of [undefined]. *)
Definition previousChapterClick (nav : Navigation) : option Navigation :=
  let currentIndex :=
    findIndex (isChapter (selectedChapter nav)) (chapters nav) in
  if currentIndex >? 0 then
    match at_ (chapters nav) (currentIndex - 1) with
    | Some ch => Some (handleChapterChange (chapterIdOrEmpty ch) nav)
    | None => None
    end
  else
    let currentBookIndex :=
      findIndex (fun b => String.eqb (title b) (selectedBook nav))
        (books nav) in
    if currentBookIndex >? 0 then
      match at_ (books nav) (currentBookIndex - 1) with
      | Some prevBook =>
          Some (goToBook (Some (title prevBook, "last"%string))
                  (title prevBook) nav)
      | None => None
      end
    else Some nav.

(** The handler of the button [Next Chapter]. *)
Definition nextChapterClick (nav : Navigation) : option Navigation :=
  let currentIndex :=
    findIndex (isChapter (selectedChapter nav)) (chapters nav) in
  if currentIndex <? Z.of_nat (List.length (chapters nav)) - 1 then
    match at_ (chapters nav) (currentIndex + 1) with
    | Some ch => Some (handleChapterChange (chapterIdOrEmpty ch) nav)
    | None => None
    end
  else
    let currentBookIndex :=
      findIndex (fun b => String.eqb (title b) (selectedBook nav))
        (books nav) in
    if currentBookIndex <? Z.of_nat (List.length (books nav)) - 1 then
      match at_ (books nav) (currentBookIndex + 1) with
      | Some nextBook => Some (goToBook (navigationRef nav) (title nextBook) nav)
      | None => None
      end
    else Some nav.

(** [fetchChapters], the effect run when the selected book changes;
    [result] is the answer to the query for the chapters of that book,
    [None] when it fails.  The state given is the one after the answer:
    [loading], true while the query is out, is false again.  The line
    written to the console on a failure is left out. *)
Definition fetchChapters (result : option (list Chapter))
    (nav : Navigation) : Navigation :=
  if truthy (selectedBook nav) then
    match result with
    | Some chaptersData =>
        let selectFirst :=
          match chaptersData with
          | first :: _ => (chapterIdOrEmpty first, shownVerses nav)
          | [] => (""%string, [])
          end in
        let outcome :=
          match navigationRef nav with
          | Some (book, chapter) =>
              if String.eqb book (selectedBook nav) then
                (if String.eqb chapter "last"
                    && (0 <? Z.of_nat (List.length chaptersData))%Z
                 then
                   match at_ chaptersData
                           (Z.of_nat (List.length chaptersData) - 1) with
                   | Some lastChapter => chapterIdOrEmpty lastChapter
                   | None => ""%string
                   end
                 else chapter, shownVerses nav, None)
              else (fst selectFirst, snd selectFirst, navigationRef nav)
          | None => (fst selectFirst, snd selectFirst, None)
          end in
        {| books := books nav; chapters := chaptersData;
           selectedBook := selectedBook nav;
           selectedChapter := fst (fst outcome);
           shownVerses := snd (fst outcome);
           selectedVerse := selectedVerse nav;
           navigationRef := snd outcome;
           loading := false; loadError := loadError nav |}
    | None =>
        {| books := books nav; chapters := chapters nav;
           selectedBook := selectedBook nav;
           selectedChapter := selectedChapter nav;
           shownVerses := shownVerses nav;
           selectedVerse := selectedVerse nav;
           navigationRef := navigationRef nav;
           loading := false;
           loadError :=
             Some "Failed to load chapters. Please try again later."%string |}
    end
  else nav.

End ScriptureReader.

(** ** The save button of the navigation bar *)

Module Navbar.

Fixpoint addNewHighlights (u : User) (allHighlights : list HighlightedWord)
    (batch : WriteBatch) (k : WriteBatch -> Prog) : Prog :=
  match allHighlights with
  | [] => k batch
  | highlight :: rest =>
      NewDoc (fun docRef =>
        let highlightData :=
          {| d_verseId := verseId highlight;
             d_startIndex := startIndex highlight;
             d_endIndex := endIndex highlight;
             d_color := color highlight;
             d_userId := uid u;
             d_timestamp := ServerTimestamp |} in
        addNewHighlights u rest (batch ++ [BatchSet docRef highlightData]) k)
  end.

(** [saveHighlights] of the bar.  It reads [localHighlights] after
    the [await]: the object its render bound, as that object is when
    the query has answered.  [arrived] are the highlights that came in
    over the socket while the query was out; the socket handler has
    pushed them into the buckets of that object
    ([ScriptureReader.pushedInto]). *)
Definition saveHighlightsWhile (arrived : list HighlightedWord) (c : Closure)
    : Prog :=
  match user (props c) with
  | None => Return
  | Some u =>
      if isSyncing (seen c) then Return
      else
        tryCatchFinally
          (SetIsSyncing true
            (awaitGetDocs (uid u) (fun highlightsSnapshot =>
               let batch :=
                 map (fun d => BatchDelete (fst d)) highlightsSnapshot in
               let allHighlights :=
                 allFlattened
                   (ScriptureReader.pushedAll arrived
                      (localHighlights (seen c))) in
               addNewHighlights u allHighlights batch (fun batch =>
                 awaitCommit batch (SetNeedsSync false Return)))))
          (ConsoleError "Error saving highlights:" Return)
          (SetIsSyncing false)
  end.

(** The same when nothing arrives while the query is out. *)
Definition saveHighlights (c : Closure) : Prog := saveHighlightsWhile [] c.

End Navbar.

(** * The relay

    [server.js]: every ['highlight'] event is sent on to all the other
    connected sockets; [connectedUsers] remembers who authenticated. *)

Module Relay.

Record Server : Type := mkServer {
  (** the sockets that are connected, by id *)
  sockets : list string;
  (** [connectedUsers], a [Map] from socket id to user id *)
  connectedUsers : JsObject.t string
}.

Definition onConnection (socketId : string) (srv : Server) : Server :=
  {| sockets := sockets srv ++ [socketId];
     connectedUsers := connectedUsers srv |}.

Definition onAuth (socketId userId : string) (srv : Server) : Server :=
  {| sockets := sockets srv;
     connectedUsers := JsObject.set (connectedUsers srv) socketId userId |}.

(** [socket.broadcast.emit('highlight', highlightData)]: who is sent
    what. *)
Definition onHighlight (socketId : string) (highlightData : HighlightedWord)
    (srv : Server) : list (string * HighlightedWord) :=
  map (fun other => (other, highlightData))
    (filter (fun other => negb (String.eqb other socketId)) (sockets srv)).

Definition onDisconnect (socketId : string) (srv : Server) : Server :=
  {| sockets := filter (fun other => negb (String.eqb other socketId))
                  (sockets srv);
     connectedUsers :=
       match JsObject.get (connectedUsers srv) socketId with
       | Some userId =>
           if ScriptureReader.truthy userId
           then filter (fun e => negb (String.eqb (fst e) socketId))
                  (connectedUsers srv)
           else connectedUsers srv
       | None => connectedUsers srv
       end |}.

End Relay.

(** * Properties *)

Import ScriptureReader.

(** ** Auxiliary definitions *)

(** The bucket of a verse, empty when the verse has none. *)
Definition bucketOf (l : LocalHighlights) (vId : string)
    : list HighlightedWord :=
  match JsObject.get l vId with
  | Some b => b
  | None => []
  end.

(** [n] covers [h]: the range of [h] lies within the range of [n]. *)
Definition covers (n h : HighlightedWord) : bool :=
  (startIndex n <=? startIndex h) && (endIndex h <=? endIndex n).

(** The highlight [handleMouseUp] builds for a selection from [a] to [b]
    on verse [vId]. *)
Definition created (p : Props) (vId : string) (a b : Z) : HighlightedWord :=
  {| id := None; verseId := vId; startIndex := Z.min a b;
     endIndex := Z.max a b; color := selectedColor p;
     userId := uidOrEmpty (user p) |}.

(** The state in which a selection from [a] to [b] on [vId] is open. *)
Definition selecting (vId : string) (a b : Z) (s : State) : State :=
  setSelection (fun _ =>
    {| isSelecting := true; sel_startIndex := Some a;
       sel_endIndex := Some b; sel_verseId := Some vId |}) s.

(** A run of selection gestures on one verse. *)
Definition dragAll (p : Props) (vId : string) (sels : list (Z * Z))
    (s : State) : State :=
  fold_left (fun s ab => fst (drag p vId (fst ab) (snd ab) s)) sels s.

(** The document written for a highlight by user [u]. *)
Definition dataOf (u : User) (h : HighlightedWord) : HighlightData :=
  {| d_verseId := verseId h; d_startIndex := startIndex h;
     d_endIndex := endIndex h; d_color := color h; d_userId := uid u;
     d_timestamp := ServerTimestamp |}.

(** The documents [addNewHighlights] creates when [n] references were
    generated before. *)
Fixpoint newDocs (autoId : nat -> string) (u : User) (n : nat)
    (hs : list HighlightedWord) : list (string * HighlightData) :=
  match hs with
  | [] => []
  | h :: rest => (autoId n, dataOf u h) :: newDocs autoId u (S n) rest
  end.

Definition setsOf (docs : list (string * HighlightData)) : WriteBatch :=
  map (fun d => BatchSet (fst d) (snd d)) docs.

Definition deletesOf (docs : Collection) : WriteBatch :=
  map (fun d => BatchDelete (fst d)) docs.

(** The batch a save by [u] commits for the highlights [hs]. *)
Definition savedBatch (autoId : nat -> string) (u : User) (w : World)
    (hs : list HighlightedWord) : WriteBatch :=
  deletesOf (whereUserId (uid u) (store w))
  ++ setsOf (newDocs autoId u (generated w) hs).

Definition moreDocs (n : nat) (w : World) : World :=
  {| state := state w; store := store w; generated := generated w + n;
     requests := requests w; console := console w |}.

(** What [handleMouseUp] leaves when it creates the highlight [n]. *)
Definition afterCreate (vId : string) (n : HighlightedWord) (s : State)
    : State :=
  setSelection (fun _ => noSelection)
    (setNeedsSync true
      (setHighlightedWords
        (addToHighlightedWords vId (startIndex n) (endIndex n) n)
        (setLocalHighlights
          (addToLocalHighlights vId (startIndex n) (endIndex n) n) s))).

(** No highlight of a bucket lies within the range of one that follows
    it in the bucket. *)
Definition noneCoveredByLater (bucket : list HighlightedWord) : Prop :=
  ForallOrdPairs (fun h later => covers later h = false) bucket.

(** The world after the reader's [saveHighlights] ran from start to
    end on a map that is not empty, for each answer of the store. *)
Definition savedWorld (autoId : nat -> string) (net : Network)
    (c : Closure) (u : User) (w : World) : World :=
  let hs := allFlattened (localHighlights (seen c)) in
  let w1 := sent (OpGetDocs (uid u)) (withState (setIsSyncing true) w) in
  let failed := "Error saving highlights to Firebase:" in
  if getDocsSucceeds net then
    let batch := savedBatch autoId u w hs in
    let w2 := sent (OpCommit batch) (moreDocs (List.length hs) w1) in
    if commitSucceeds net then
      withState (setIsSyncing false)
        (withState (setNeedsSync false)
          (withState (setHighlightedWords (fun _ =>
                        updatedHighlights
                          (newDocs autoId u (generated w) hs)))
            (withStore (fun d => applyBatch d batch) w2)))
    else withState (setIsSyncing false) (printed failed w2)
  else withState (setIsSyncing false) (printed failed w1).

(** The world after the save of the navigation bar. *)
Definition savedWorldNavbar (autoId : nat -> string) (net : Network)
    (c : Closure) (u : User) (w : World) : World :=
  let hs := allFlattened (localHighlights (seen c)) in
  let w1 := sent (OpGetDocs (uid u)) (withState (setIsSyncing true) w) in
  let failed := "Error saving highlights:" in
  if getDocsSucceeds net then
    let batch := savedBatch autoId u w hs in
    let w2 := sent (OpCommit batch) (moreDocs (List.length hs) w1) in
    if commitSucceeds net then
      withState (setIsSyncing false)
        (withState (setNeedsSync false)
          (withStore (fun d => applyBatch d batch) w2))
    else withState (setIsSyncing false) (printed failed w2)
  else withState (setIsSyncing false) (printed failed w1).

(** A highlight has a proper range. *)
Definition nonDegenerate (h : HighlightedWord) : Prop :=
  startIndex h < endIndex h.

Definition wellRanged (s : State) : Prop :=
  Forall nonDegenerate (allFlattened (localHighlights s)) /\
  Forall nonDegenerate (highlightedWords s).

(** The test of the socket handler on a bucket: same range, same user. *)
Definition sameRangeAndUser (data h : HighlightedWord) : bool :=
  (startIndex h =? startIndex data) && (endIndex h =? endIndex data)
  && String.eqb (userId h) (userId data).

(** Its test on [highlightedWords]: same verse as well. *)
Definition sameHighlight (data h : HighlightedWord) : bool :=
  String.eqb (verseId h) (verseId data) &&
  (startIndex h =? startIndex data) && (endIndex h =? endIndex data)
  && String.eqb (userId h) (userId data).

(** [h] is on the range [data] is on, by the same user. *)
Definition matches (data h : HighlightedWord) : Prop :=
  startIndex h = startIndex data /\ endIndex h = endIndex data /\
  userId h = userId data.

(** *** The reading of the specification

    [overlaps] and [replaceOverlapping] as the specification words them;
    the handlers above are compared with these. *)

Definition spec_overlaps (h : HighlightedWord) (start end_ : Z) : bool :=
  (startIndex h <? end_) && (endIndex h >? start).

Definition spec_replaceOverlapping (existing : list HighlightedWord)
    (newHighlight : HighlightedWord) : list HighlightedWord :=
  filter (fun h => negb (spec_overlaps h (startIndex newHighlight)
                                         (endIndex newHighlight))) existing
  ++ [newHighlight].

(** No two entries of a bucket overlap. *)
Definition spec_noSelfOverlap (bucket : list HighlightedWord) : Prop :=
  forall i j h1 h2, i <> j ->
    nth_error bucket i = Some h1 -> nth_error bucket j = Some h2 ->
    spec_overlaps h1 (startIndex h2) (endIndex h2) = false.

(** *** Sample data *)

Definition genesis_1_1 : Verse :=
  {| v_bookId := "Genesis"; v_chapterId := "Genesis_1"; v_verse := 1;
     v_reference := "Genesis 1:1";
     v_text := "In the beginning God created the heaven and the earth.";
     v_verseId := Some "Genesis_1_1" |}.

Definition reader (u : string) : Props :=
  {| user := Some {| uid := u |}; verses := [genesis_1_1];
     selectedColor := "#FFEB3B"; socketConnected := true |}.

Definition highlightOf (u : string) (a b : Z) : HighlightedWord :=
  {| id := None; verseId := "Genesis_1_1"; startIndex := a; endIndex := b;
     color := "#FFEB3B"; userId := u |}.

Definition stateOf (dirty : bool) (hs : list HighlightedWord) : State :=
  {| needsSync := dirty; isSyncing := false;
     localHighlights := groupByVerse hs; highlightedWords := hs;
     selection := noSelection |}.

Definition worldOf (s : State) (docs : Collection) : World :=
  {| state := s; store := docs; generated := 0; requests := [];
     console := [] |}.

Definition sampleId (n : nat) : string :=
  String (Ascii.ascii_of_nat (65 + n)) "".

Definition online : Network :=
  {| getDocsSucceeds := true; commitSucceeds := true |}.

Definition persisted (i u : string) (a b : Z) : string * HighlightData :=
  (i, {| d_verseId := "Genesis_1_1"; d_startIndex := a; d_endIndex := b;
         d_color := "#FFEB3B"; d_userId := u;
         d_timestamp := ServerTimestamp |}).

(** *** Further auxiliary definitions *)

(** Every bucket holds the highlights of its verse that
    [highlightedWords] holds, in the same order. *)
Definition synced (s : State) : Prop :=
  forall v, bucketOf (localHighlights s) v
            = filter (fun h => String.eqb (verseId h) v) (highlightedWords s).

(** What a highlight is apart from its id and its owner. *)
Definition content (h : HighlightedWord) : string * Z * Z * string :=
  (verseId h, startIndex h, endIndex h, color h).

(** What a highlight is apart from its colour. *)
Definition uncoloured (h : HighlightedWord)
    : option string * string * Z * Z * string :=
  (id h, verseId h, startIndex h, endIndex h, userId h).

(** [h] is on the range of [highlight]. *)
Definition sameRange (highlight h : HighlightedWord) : Prop :=
  startIndex h = startIndex highlight /\ endIndex h = endIndex highlight.

(** The state once [deleteHighlight] has run its three setters. *)
Definition afterRemove (highlight : HighlightedWord) (s : State) : State :=
  setNeedsSync true
    (setHighlightedWords (removeFromHighlightedWords highlight)
      (setLocalHighlights (removeFromLocalHighlights highlight) s)).

(** The state once [updateHighlightColor] has run its three setters. *)
Definition afterRecolor (highlight : HighlightedWord) (newColor : string)
    (s : State) : State :=
  setNeedsSync true
    (setHighlightedWords (recolorInHighlightedWords highlight newColor)
      (setLocalHighlights (recolorInLocalHighlights highlight newColor) s)).


(** [snapshot] answers the query for the documents of [u] on [docs]:
    it holds the documents that match, each once, in some order. *)
Definition answers (u : string) (docs snapshot : Collection) : Prop :=
  Permutation snapshot (whereUserId u docs).

(** A document apart from its colour. *)
Definition docUncoloured (d : string * HighlightData)
    : string * (string * Z * Z * string * FieldValue) :=
  (fst d, (d_verseId (snd d), d_startIndex (snd d), d_endIndex (snd d),
           d_userId (snd d), d_timestamp (snd d))).

(** Ids that never repeat: [d], [di], [dii], ... *)
Fixpoint tally (n : nat) : string :=
  match n with
  | O => ""
  | S n => String "i" (tally n)
  end.

Definition serialId (n : nat) : string := String "d" (tally n).

(** [words.join('')] *)
Definition joined (words : list string) : string :=
  fold_right String.append ""%string words.

(** The length of a text, as an offset. *)
Definition textLength (text : string) : Z := Z.of_nat (String.length text).

(** The effect that fetches the chapters has [selectedBook] as its only
    dependency: after an event that took the screen from [before] to
    [after] it runs when the selected book is another one, and not
    otherwise.  The query and its answer are taken in one step. *)
Definition chaptersEffect (result : option (list Chapter))
    (before after : Navigation) : Navigation :=
  if String.eqb (selectedBook before) (selectedBook after) then after
  else fetchChapters result after.

(** A small library. *)
Definition bookOf (t : string) (n : Z) : Book :=
  {| title := t; numberOfChapters := n; order := n |}.

Definition chapterOf (b : string) (n : Z) (i : string) : Chapter :=
  {| c_bookId := b; c_chapter := n; c_reference := i;
     c_numberOfVerses := 20; c_chapterId := Some i |}.

Definition enos : list Chapter := [chapterOf "Enos" 1 "Enos_1"].

Definition jarom : list Chapter :=
  [chapterOf "Jarom" 1 "Jarom_1"; chapterOf "Jarom" 2 "Jarom_2";
   chapterOf "Jarom" 3 "Jarom_3"].

Definition omni : list Chapter :=
  [chapterOf "Omni" 1 "Omni_1"; chapterOf "Omni" 2 "Omni_2"].

Definition reading (b : string) (cs : list Chapter) (i : string)
    : Navigation :=
  {| books := [bookOf "Enos" 1; bookOf "Jarom" 3; bookOf "Omni" 2];
     chapters := cs; selectedBook := b; selectedChapter := i;
     shownVerses := [genesis_1_1]; selectedVerse := "";
     navigationRef := None; loading := false; loadError := None |}.

(** *** The tabs, the relay and the collection together

    Every tab runs the reader and the navigation bar on a state of its
    own; all tabs write to one collection and are joined by the relay.
    An event is what one tab, the relay or the store does next.  The
    handler that runs is the one of the current render of its tab,
    under whatever props that render has; a save, a load, a deletion
    and a change of colour run from start to end within one event. *)

(** The state of a tab that has just been opened: the initial values
    of the [useState] calls. *)
Definition initialState : State :=
  {| needsSync := false; isSyncing := false;
     localHighlights := JsObject.empty; highlightedWords := [];
     selection := noSelection |}.

Record System : Type := mkSystem {
  (** the open tabs, by the id of their socket *)
  tabs : JsObject.t State;
  relay : Relay.Server;
  (** the [highlights] collection *)
  documents : Collection;
  (** how many document references were generated *)
  references : nat;
  (** what the relay has sent and no tab has received yet: the socket
      it goes to and the payload *)
  wire : list (string * HighlightedWord)
}.

(** No tab is open and nothing was ever saved. *)
Definition nothingYet : System :=
  {| tabs := JsObject.empty;
     relay := {| Relay.sockets := []; Relay.connectedUsers := JsObject.empty |};
     documents := []; references := 0; wire := [] |}.

Inductive Event : Type :=
| Opens (socket : string)
| Closes (socket : string)
| Presses (socket vId : string) (offset : Z)
| Moves (socket : string) (p : Props) (vId : string) (offset : Z)
| Releases (socket : string) (p : Props)
| Arrives (n : nat)
| Loads (socket : string) (p : Props) (ok : bool)
| Saves (socket : string) (p : Props) (net : Network)
| SavesFromNavbar (socket : string) (p : Props) (net : Network)
| Regroups (socket : string)
| Deletes (socket : string) (p : Props) (highlight : HighlightedWord)
    (deleted : bool) (net : Network)
| Recolours (socket : string) (p : Props) (highlight : HighlightedWord)
    (newColor : string) (updated : bool).

(** The world a handler of a tab runs in. *)
Definition worldOfTab (sys : System) (s : State) : World :=
  {| state := s; store := documents sys; generated := references sys;
     requests := []; console := [] |}.

Definition withTab (socket : string) (s : State) (sys : System) : System :=
  {| tabs := JsObject.set (tabs sys) socket s; relay := relay sys;
     documents := documents sys; references := references sys;
     wire := wire sys |}.

(** The system once a handler of the tab has left the world [w]. *)
Definition withWorld (socket : string) (w : World) (sys : System) : System :=
  {| tabs := JsObject.set (tabs sys) socket (state w); relay := relay sys;
     documents := store w; references := generated w; wire := wire sys |}.

Definition onTab (socket : string) (sys : System) (f : State -> System)
    : System :=
  match JsObject.get (tabs sys) socket with
  | Some s => f s
  | None => sys
  end.

Definition step (autoId : nat -> string) (sys : System) (e : Event)
    : System :=
  match e with
  | Opens socket =>
      {| tabs := JsObject.set (tabs sys) socket initialState;
         relay := Relay.onConnection socket (relay sys);
         documents := documents sys; references := references sys;
         wire := wire sys |}
  | Closes socket =>
      {| tabs := filter (fun t => negb (String.eqb (fst t) socket)) (tabs sys);
         relay := Relay.onDisconnect socket (relay sys);
         documents := documents sys; references := references sys;
         wire := wire sys |}
  | Presses socket vId offset =>
      onTab socket sys (fun s =>
        withTab socket (handleMouseDown vId offset s) sys)
  | Moves socket p vId offset =>
      onTab socket sys (fun s =>
        withTab socket (handleMouseMove (render p s) vId offset s) sys)
  | Releases socket p =>
      onTab socket sys (fun s =>
        let r := handleMouseUp (render p s) s in
        {| tabs := JsObject.set (tabs sys) socket (fst r);
           relay := relay sys;
           documents := documents sys; references := references sys;
           wire := wire sys
                   ++ flat_map (fun emitted =>
                        Relay.onHighlight socket emitted (relay sys))
                        (snd r) |})
  | Arrives n =>
      match nth_error (wire sys) n with
      | Some (socket, data) =>
          {| tabs := match JsObject.get (tabs sys) socket with
                     | Some s =>
                         JsObject.set (tabs sys) socket (onHighlight data s)
                     | None => tabs sys
                     end;
             relay := relay sys;
             documents := documents sys; references := references sys;
             wire := firstn n (wire sys) ++ skipn (S n) (wire sys) |}
      | None => sys
      end
  | Loads socket p ok =>
      onTab socket sys (fun s =>
        withWorld socket
          (loadHighlights ok (render p s) (worldOfTab sys s)) sys)
  | Saves socket p net =>
      onTab socket sys (fun s =>
        withWorld socket
          (fst (run autoId net (ScriptureReader.saveHighlights (render p s))
                  (worldOfTab sys s))) sys)
  | SavesFromNavbar socket p net =>
      onTab socket sys (fun s =>
        withWorld socket
          (fst (run autoId net (Navbar.saveHighlights (render p s))
                  (worldOfTab sys s))) sys)
  | Regroups socket =>
      onTab socket sys (fun s => withTab socket (regroupEffect s) sys)
  | Deletes socket p highlight deleted net =>
      onTab socket sys (fun s =>
        withWorld socket
          (fst (deleteHighlight autoId net deleted (render p s) highlight
                  (worldOfTab sys s))) sys)
  | Recolours socket p highlight newColor updated =>
      onTab socket sys (fun s =>
        withWorld socket
          (fst (updateHighlightColor updated (render p s) highlight newColor
                  (worldOfTab sys s))) sys)
  end.

(** A document has a proper range. *)
Definition docRanged (d : string * HighlightData) : Prop :=
  d_startIndex (snd d) < d_endIndex (snd d).

Definition rangedWorld (w : World) : Prop :=
  wellRanged (state w) /\ Forall docRanged (store w).

(** Every highlight in the system has a proper range: in the map and
    in [highlightedWords] of every tab, in the collection and on its
    way from the relay to a tab. *)
Definition properRanges (sys : System) : Prop :=
  Forall (fun t => wellRanged (snd t)) (tabs sys) /\
  Forall docRanged (documents sys) /\
  Forall (fun m => nonDegenerate (snd m)) (wire sys).

(** ** Objects *)

Section JsObjectFacts.
Context {V : Type}.

Lemma get_set_same (o : JsObject.t V) (k : string) (v : V) :
  JsObject.get (JsObject.set o k v) k = Some v.
Proof.
  induction o as [|[k' v'] o IH]; simpl.
  - now rewrite String.eqb_refl.
  - destruct (String.eqb k' k) eqn:E; simpl; rewrite E; auto.
Qed.

Lemma get_set_other (o : JsObject.t V) (k k' : string) (v : V) :
  k <> k' -> JsObject.get (JsObject.set o k v) k' = JsObject.get o k'.
Proof.
  intros Hne. induction o as [|[k0 v0] o IH]; simpl.
  - destruct (String.eqb_spec k k'); congruence.
  - destruct (String.eqb_spec k0 k) as [->|Hk]; simpl.
    + destruct (String.eqb_spec k k'); congruence.
    + now rewrite IH.
Qed.

Lemma get_In_values (o : JsObject.t V) (k : string) (v : V) :
  JsObject.get o k = Some v -> In v (JsObject.values o).
Proof.
  induction o as [|[k0 v0] o IH]; simpl; [discriminate|].
  destruct (String.eqb k0 k); intros H.
  - left. congruence.
  - right. auto.
Qed.

(** Every value of [set o k v] is [v] or was a value of [o]. *)
Lemma In_values_set (o : JsObject.t V) (k : string) (v w : V) :
  In w (JsObject.values (JsObject.set o k v)) -> w = v \/ In w (JsObject.values o).
Proof.
  unfold JsObject.values. induction o as [|[k0 v0] o IH]; simpl.
  - intros [H|[]]; auto.
  - destruct (String.eqb k0 k); simpl.
    + intros [H|H]; auto.
    + intros [H|H]; auto. destruct (IH H); auto.
Qed.
End JsObjectFacts.

(** ** Creating highlights *)

Lemma keptOnCreate_covers (n h : HighlightedWord) :
  keptOnCreate (startIndex n) (endIndex n) h = negb (covers n h).
Proof.
  unfold keptOnCreate, covers.
  rewrite negb_andb, !Z.leb_antisym, !negb_involutive, Z.gtb_ltb.
  reflexivity.
Qed.

Lemma truthy_true (s : string) : s <> "" -> truthy s = true.
Proof.
  unfold truthy. intros H.
  destruct (String.eqb_spec s "") as [E|E]; [contradiction|reflexivity].
Qed.

Lemma findVerse_verseId (vs : list Verse) (vId : string) (verse : Verse) :
  findVerse vs vId = Some verse -> v_verseId verse = Some vId.
Proof.
  unfold findVerse. intros H. apply find_some in H as [_ H].
  destruct (v_verseId verse) as [i|]; [|discriminate].
  apply String.eqb_eq in H. now subst.
Qed.

Lemma findVerse_found (vs : list Verse) (vId : string) (verse : Verse) :
  In verse vs -> v_verseId verse = Some vId ->
  exists v, findVerse vs vId = Some v.
Proof.
  intros Hin Hid. unfold findVerse.
  match goal with |- exists v, find ?f vs = Some v =>
    destruct (find f vs) as [v|] eqn:E end.
  - now exists v.
  - apply (find_none _ _ E) in Hin. rewrite Hid, String.eqb_refl in Hin.
    discriminate.
Qed.

Lemma addToLocalHighlights_bucket (vId : string) (start end_ : Z)
    (n : HighlightedWord) (prev : LocalHighlights) :
  JsObject.get (addToLocalHighlights vId start end_ n prev) vId
  = Some (filter (keptOnCreate start end_) (bucketOf prev vId) ++ [n]).
Proof.
  unfold addToLocalHighlights, bucketOf.
  destruct (JsObject.get prev vId) as [b|] eqn:E.
  - now rewrite E, get_set_same.
  - now rewrite !get_set_same.
Qed.

Lemma addToLocalHighlights_other (vId other : string) (start end_ : Z)
    (n : HighlightedWord) (prev : LocalHighlights) :
  vId <> other ->
  JsObject.get (addToLocalHighlights vId start end_ n prev) other
  = JsObject.get prev other.
Proof.
  intros Hne. unfold addToLocalHighlights.
  destruct (JsObject.get prev vId) as [b|] eqn:E;
    now rewrite !get_set_other.
Qed.

(** [handleMouseUp] either only clears the selection, or creates the
    highlight of a selection with two different end points. *)
Lemma handleMouseUp_cases (c : Closure) (s : State) :
  handleMouseUp c s = (setSelection (fun _ => noSelection) s, [])
  \/ exists a b vId,
       sel_startIndex (selection (seen c)) = Some a /\
       sel_endIndex (selection (seen c)) = Some b /\
       Z.min a b < Z.max a b /\
       handleMouseUp c s
       = (afterCreate vId (created (props c) vId a b) s,
          if socketConnected (props c)
          then [created (props c) vId a b] else []).
Proof.
  unfold handleMouseUp.
  destruct (isSelecting (selection (seen c))); auto.
  destruct (sel_startIndex (selection (seen c))) as [a|]; auto.
  destruct (sel_endIndex (selection (seen c))) as [b|]; auto.
  destruct (sel_verseId (selection (seen c))) as [sv|]; auto.
  destruct (truthy sv); auto.
  destruct (Z.max a b >? Z.min a b) eqn:Hgt; auto.
  destruct (findVerse (verses (props c)) sv) as [verse|]; auto.
  destruct (v_verseId verse) as [vId|]; auto.
  destruct (truthy vId); auto.
  right. exists a, b, vId. repeat split; auto.
  rewrite Z.gtb_ltb in Hgt. now apply Z.ltb_lt.
Qed.

Lemma handleMouseUp_creates (c : Closure) (s : State) (a b : Z)
    (vId : string) (verse : Verse) :
  selection (seen c)
  = {| isSelecting := true; sel_startIndex := Some a;
       sel_endIndex := Some b; sel_verseId := Some vId |} ->
  vId <> "" -> a <> b ->
  In verse (verses (props c)) -> v_verseId verse = Some vId ->
  handleMouseUp c s
  = (afterCreate vId (created (props c) vId a b) s,
     if socketConnected (props c) then [created (props c) vId a b] else []).
Proof.
  intros Hsel Hv Hab Hin Hid. unfold handleMouseUp. rewrite Hsel. cbn.
  rewrite (truthy_true _ Hv).
  assert (Hgt : (Z.max a b >? Z.min a b) = true)
    by (rewrite Z.gtb_ltb; apply Z.ltb_lt; lia).
  rewrite Hgt.
  destruct (findVerse_found _ _ _ Hin Hid) as [v' Hf]. rewrite Hf.
  rewrite (findVerse_verseId _ _ _ Hf), (truthy_true _ Hv). reflexivity.
Qed.

(** The closure a release sees at the end of a gesture. *)
Lemma drag_unfold (p : Props) (vId : string) (a b : Z) (s : State) :
  drag p vId a b s
  = handleMouseUp (render p (selecting vId a b s)) (selecting vId a b s).
Proof.
  unfold drag, handleMouseMove, handleMouseDown. cbn.
  now rewrite String.eqb_refl.
Qed.

(** C1, as the specification has it, fails: drawing [5,10) over [2,8)
    leaves both highlights in the bucket, where [replaceOverlapping]
    would leave the new one alone. *)
Lemma C1_partial_overlap_is_kept :
  let s := fst (drag (reader "U1") "Genesis_1_1" 5 10
                  (stateOf false [highlightOf "U1" 2 8])) in
  spec_overlaps (highlightOf "U1" 2 8) 5 10 = true /\
  spec_replaceOverlapping [highlightOf "U1" 2 8] (highlightOf "U1" 5 10)
  = [highlightOf "U1" 5 10] /\
  JsObject.get (localHighlights s) "Genesis_1_1"
  = Some [highlightOf "U1" 2 8; highlightOf "U1" 5 10] /\
  JsObject.get (localHighlights s) "Genesis_1_1"
  <> Some (spec_replaceOverlapping [highlightOf "U1" 2 8]
             (highlightOf "U1" 5 10)).
Proof.
  cbv zeta. repeat split; try reflexivity. vm_compute. discriminate.
Qed.

(** C1 (amended): releasing a selection from [a] to [b] ([a <> b]) on a
    displayed verse removes from the bucket of that verse exactly the
    highlights whose range lies within the new range, keeps the others in
    their order, appends the new highlight and leaves the other buckets
    alone; [highlightedWords] loses the same highlights of that verse and
    gains the new one, and the state is marked dirty. *)
Theorem C1_create_replaces_covered (c : Closure) (s : State) (a b : Z)
    (vId : string) (verse : Verse) :
  selection (seen c)
  = {| isSelecting := true; sel_startIndex := Some a;
       sel_endIndex := Some b; sel_verseId := Some vId |} ->
  vId <> "" -> a <> b ->
  In verse (verses (props c)) -> v_verseId verse = Some vId ->
  let n := created (props c) vId a b in
  let s' := fst (handleMouseUp c s) in
  JsObject.get (localHighlights s') vId
  = Some (filter (fun h => negb (covers n h)) (bucketOf (localHighlights s) vId)
          ++ [n]) /\
  (forall h, In h (bucketOf (localHighlights s') vId) <->
             h = n \/ (In h (bucketOf (localHighlights s) vId) /\
                       ~ (startIndex n <= startIndex h /\
                          endIndex h <= endIndex n))) /\
  (forall other, vId <> other ->
     JsObject.get (localHighlights s') other
     = JsObject.get (localHighlights s) other) /\
  highlightedWords s'
  = filter (fun h => negb (String.eqb (verseId h) vId && covers n h))
      (highlightedWords s) ++ [n] /\
  needsSync s' = true.
Proof.
  intros Hsel Hv Hab Hin Hid n s'.
  assert (Hs' : s' = afterCreate vId n s)
    by (unfold s'; now rewrite (handleMouseUp_creates c s a b vId verse)).
  assert (Hget : JsObject.get (localHighlights s') vId
                 = Some (filter (fun h => negb (covers n h))
                           (bucketOf (localHighlights s) vId) ++ [n])).
  { rewrite Hs'. cbn. rewrite addToLocalHighlights_bucket.
    do 2 f_equal. apply filter_ext. intros h.
    apply (keptOnCreate_covers n h). }
  split; [exact Hget|]. split; [|split; [|split]].
  - intros h. unfold bucketOf at 1. rewrite Hget.
    rewrite in_app_iff, filter_In. cbn [In]. unfold covers.
    rewrite negb_true_iff, andb_false_iff, !Z.leb_gt. split.
    + intros [[H1 H2]|[H|[]]]; [right|left; auto]. split; auto. lia.
    + intros [H|[H1 H2]]; [right; auto|left]. split; auto. lia.
  - intros other Hne. rewrite Hs'. cbn.
    now apply addToLocalHighlights_other.
  - rewrite Hs'. cbn. unfold addToHighlightedWords. f_equal.
    apply filter_ext. intros h.
    rewrite negb_andb. f_equal. apply (keptOnCreate_covers n h).
  - rewrite Hs'. reflexivity.
Qed.

(** A selection from 10 back to 0 over [2,8) leaves [0,10) alone. *)
Lemma C1_create_replaces_covered_witness :
  JsObject.get
    (localHighlights
       (fst (handleMouseUp
               (render (reader "U1")
                  (selecting "Genesis_1_1" 10 0
                     (stateOf false [highlightOf "U1" 2 8])))
               (stateOf false [highlightOf "U1" 2 8]))))
    "Genesis_1_1"
  = Some [highlightOf "U1" 0 10].
Proof.
  refine (proj1 (C1_create_replaces_covered
                   (render (reader "U1")
                      (selecting "Genesis_1_1" 10 0
                         (stateOf false [highlightOf "U1" 2 8])))
                   (stateOf false [highlightOf "U1" 2 8])
                   10 0 "Genesis_1_1" genesis_1_1 eq_refl _ _ _ eq_refl)).
  - discriminate.
  - discriminate.
  - left. reflexivity.
Defined.

(** C8: a release whose selection has no two different end points (the
    normalized range is empty, or an end point is missing) creates
    nothing: the highlights map, [highlightedWords], [needsSync] and
    [isSyncing] are as before, nothing is sent on the socket, and the
    handler returns having only cleared the selection. *)
Theorem C8_invalid_selection_is_noop (c : Closure) (s : State) :
  (forall a b, sel_startIndex (selection (seen c)) = Some a ->
               sel_endIndex (selection (seen c)) = Some b ->
               Z.min a b = Z.max a b) ->
  let s' := fst (handleMouseUp c s) in
  localHighlights s' = localHighlights s /\
  highlightedWords s' = highlightedWords s /\
  needsSync s' = needsSync s /\
  isSyncing s' = isSyncing s /\
  selection s' = noSelection /\
  snd (handleMouseUp c s) = [].
Proof.
  intros Hdeg s'. unfold s'.
  destruct (handleMouseUp_cases c s) as [E|(a & b & vId & Ha & Hb & Hlt & _)].
  - rewrite E. cbn. repeat split; reflexivity.
  - specialize (Hdeg a b Ha Hb). lia.
Qed.

(** After [0,5) was drawn, a selection from 5 to 5 changes nothing. *)
Lemma C8_invalid_selection_is_noop_witness :
  let s := fst (drag (reader "U1") "Genesis_1_1" 0 5 (stateOf false [])) in
  localHighlights (fst (drag (reader "U1") "Genesis_1_1" 5 5 s))
  = [("Genesis_1_1", [highlightOf "U1" 0 5])] /\
  highlightedWords (fst (drag (reader "U1") "Genesis_1_1" 5 5 s))
  = [highlightOf "U1" 0 5].
Proof.
  intros s.
  assert (H := C8_invalid_selection_is_noop
                 (render (reader "U1") (selecting "Genesis_1_1" 5 5 s))
                 (selecting "Genesis_1_1" 5 5 s)).
  cbv zeta in H. rewrite <- drag_unfold in H.
  destruct H as (Hl & Hh & _).
  - intros a b Ha Hb. cbn in Ha, Hb.
    injection Ha as <-. injection Hb as <-. reflexivity.
  - rewrite Hl, Hh. split; reflexivity.
Defined.

(** ** Overlap between highlights of one bucket *)

Lemma noneCoveredByLater_filter (f : HighlightedWord -> bool)
    (l : list HighlightedWord) :
  noneCoveredByLater l -> noneCoveredByLater (filter f l).
Proof.
  unfold noneCoveredByLater. induction 1 as [|h l Hh Hl IH]; cbn.
  - constructor.
  - destruct (f h); auto. constructor; auto.
    rewrite Forall_forall in *. intros x Hx.
    apply filter_In in Hx as [Hx _]. auto.
Qed.

Lemma noneCoveredByLater_snoc (l : list HighlightedWord)
    (n : HighlightedWord) :
  noneCoveredByLater l -> Forall (fun h => covers n h = false) l ->
  noneCoveredByLater (l ++ [n]).
Proof.
  unfold noneCoveredByLater. induction 1 as [|h l Hh Hl IH]; cbn; intros Hn.
  - repeat constructor.
  - inversion Hn as [|? ? Hhn Hln]; subst. constructor; auto.
    apply Forall_app. split; auto.
Qed.

Lemma afterCreate_noneCoveredByLater (vId v : string) (n : HighlightedWord)
    (s : State) :
  noneCoveredByLater (bucketOf (localHighlights s) v) ->
  noneCoveredByLater (bucketOf (localHighlights (afterCreate vId n s)) v).
Proof.
  intros Hinv. cbn. destruct (String.eqb_spec vId v) as [->|Hne].
  - unfold bucketOf at 1. rewrite addToLocalHighlights_bucket.
    apply noneCoveredByLater_snoc.
    + now apply noneCoveredByLater_filter.
    + apply Forall_forall. intros h Hh. apply filter_In in Hh as [_ Hh].
      rewrite keptOnCreate_covers in Hh. now apply negb_true_iff in Hh.
  - unfold bucketOf at 1. now rewrite addToLocalHighlights_other.
Qed.

Lemma drag_noneCoveredByLater (p : Props) (vId : string) (a b : Z)
    (s : State) :
  noneCoveredByLater (bucketOf (localHighlights s) vId) ->
  noneCoveredByLater
    (bucketOf (localHighlights (fst (drag p vId a b s))) vId).
Proof.
  intros Hinv. rewrite drag_unfold.
  destruct (handleMouseUp_cases (render p (selecting vId a b s))
              (selecting vId a b s)) as [E|(a' & b' & v' & _ & _ & _ & E)];
    rewrite E; cbn [fst].
  - exact Hinv.
  - now apply afterCreate_noneCoveredByLater.
Qed.

(** C2, as the specification has it, fails: after [2,8) and [5,10) are
    drawn on an empty verse, both are in the bucket and they overlap. *)
Lemma C2_overlapping_highlights_coexist :
  let s := dragAll (reader "U1") "Genesis_1_1" [(2, 8); (5, 10)]
             (stateOf false []) in
  bucketOf (localHighlights s) "Genesis_1_1"
  = [highlightOf "U1" 2 8; highlightOf "U1" 5 10] /\
  ~ spec_noSelfOverlap (bucketOf (localHighlights s) "Genesis_1_1").
Proof.
  cbv zeta. split; [reflexivity|]. intros H.
  specialize (H 0%nat 1%nat (highlightOf "U1" 2 8) (highlightOf "U1" 5 10)).
  discriminate H; [lia|reflexivity|reflexivity].
Qed.

(** C2 (amended): along every run of selection gestures on one verse,
    after each gesture no highlight of the bucket lies within the range
    of a highlight that follows it in the bucket, that is, of one drawn
    after it; highlights that overlap only in part stay side by side. *)
Theorem C2_no_highlight_covered_by_later (p : Props) (vId : string)
    (sels : list (Z * Z)) (s : State) :
  noneCoveredByLater (bucketOf (localHighlights s) vId) ->
  forall k,
    noneCoveredByLater
      (bucketOf (localHighlights (dragAll p vId (firstn k sels) s)) vId).
Proof.
  intros Hinv k. generalize (firstn k sels). clear k sels.
  intros sels. revert s Hinv. unfold dragAll.
  induction sels as [|[a b] sels IH]; intros s Hinv; cbn [fold_left].
  - exact Hinv.
  - apply IH. now apply drag_noneCoveredByLater.
Qed.

(** Three gestures on an empty verse. *)
Lemma C2_no_highlight_covered_by_later_witness :
  noneCoveredByLater
    (bucketOf
       (localHighlights
          (dragAll (reader "U1") "Genesis_1_1"
             (firstn 3 [(2, 8); (5, 10); (9, 1)]) (stateOf false [])))
       "Genesis_1_1").
Proof.
  apply (C2_no_highlight_covered_by_later (reader "U1") "Genesis_1_1"
           [(2, 8); (5, 10); (9, 1)] (stateOf false [])).
  constructor.
Defined.

(** ** Flattening and grouping *)

Lemma In_allFlattened (l : LocalHighlights) (h : HighlightedWord) :
  In h (allFlattened l) <->
  exists b, In b (JsObject.values l) /\ In h b.
Proof. unfold allFlattened. apply in_concat. Qed.

Lemma In_allFlattened_set (l : LocalHighlights) (k : string)
    (b : list HighlightedWord) (h : HighlightedWord) :
  In h (allFlattened (JsObject.set l k b)) ->
  In h b \/ In h (allFlattened l).
Proof.
  rewrite !In_allFlattened. intros (b' & Hb' & Hh).
  apply In_values_set in Hb' as [->|Hb']; eauto.
Qed.

(** Grouping invents no highlight. *)
Lemma In_allFlattened_groupInto (g : LocalHighlights)
    (h0 h : HighlightedWord) :
  In h (allFlattened (groupInto g h0)) -> In h (allFlattened g) \/ h = h0.
Proof.
  unfold groupInto. intros Hin.
  apply In_allFlattened_set in Hin as [Hin|Hin].
  - apply in_app_iff in Hin as [Hin|[->|[]]]; [left|now right].
    destruct (JsObject.get g (verseId h0)) as [b0|] eqn:E.
    + rewrite E in Hin. apply In_allFlattened. exists b0. split; auto.
      now apply (get_In_values g (verseId h0)).
    + rewrite get_set_same in Hin. destruct Hin.
  - left. destruct (JsObject.get g (verseId h0)); auto.
    apply In_allFlattened_set in Hin as [[]|Hin]. exact Hin.
Qed.

Lemma In_allFlattened_groupByVerse (hs : list HighlightedWord)
    (h : HighlightedWord) :
  In h (allFlattened (groupByVerse hs)) -> In h hs.
Proof.
  unfold groupByVerse.
  assert (G : forall g, In h (allFlattened (fold_left groupInto hs g)) ->
                        In h (allFlattened g) \/ In h hs).
  { induction hs as [|h0 hs IH]; intros g; cbn [fold_left]; auto.
    intros Hin. apply IH in Hin as [Hin|Hin]; [|right; now right].
    apply In_allFlattened_groupInto in Hin as [Hin| ->]; auto.
    right. now left. }
  intros Hin. apply G in Hin as [Hin|Hin]; auto. destruct Hin.
Qed.

(** The bucket of a verse after grouping holds the highlights of that
    verse, in their order. *)
Lemma bucketOf_groupInto (g : LocalHighlights) (h : HighlightedWord)
    (v : string) :
  bucketOf (groupInto g h) v
  = if String.eqb (verseId h) v then bucketOf g v ++ [h] else bucketOf g v.
Proof.
  unfold groupInto, bucketOf.
  destruct (String.eqb_spec (verseId h) v) as [<-|Hne].
  - rewrite get_set_same.
    destruct (JsObject.get g (verseId h)) as [b|] eqn:E.
    + now rewrite E.
    + now rewrite get_set_same.
  - rewrite get_set_other by exact Hne.
    destruct (JsObject.get g (verseId h)); auto.
    now rewrite get_set_other.
Qed.

Lemma bucketOf_groupByVerse (hs : list HighlightedWord) (v : string) :
  bucketOf (groupByVerse hs) v
  = filter (fun h => String.eqb (verseId h) v) hs.
Proof.
  unfold groupByVerse.
  assert (G : forall g, bucketOf (fold_left groupInto hs g) v
              = bucketOf g v ++ filter (fun h => String.eqb (verseId h) v) hs).
  { induction hs as [|h hs IH]; intros g; cbn [fold_left filter].
    - now rewrite app_nil_r.
    - rewrite IH, bucketOf_groupInto.
      destruct (String.eqb (verseId h) v); auto.
      now rewrite <- app_assoc. }
  now rewrite G.
Qed.

(** Grouping keeps every highlight, once. *)
Lemma allFlattened_set_present (o : LocalHighlights) (k : string)
    (b : list HighlightedWord) (x : HighlightedWord) :
  JsObject.get o k = Some b ->
  Permutation (allFlattened (JsObject.set o k (b ++ [x])))
    (x :: allFlattened o).
Proof.
  unfold allFlattened, JsObject.values.
  induction o as [|[k0 v0] o IH]; cbn; [discriminate|].
  destruct (String.eqb k0 k); cbn.
  - intros [= ->]. rewrite <- app_assoc. cbn.
    symmetry. apply Permutation_middle.
  - intros H. rewrite (IH H). symmetry. apply Permutation_middle.
Qed.

Lemma allFlattened_set_absent (o : LocalHighlights) (k : string)
    (b : list HighlightedWord) :
  JsObject.get o k = None ->
  allFlattened (JsObject.set o k b) = allFlattened o ++ b.
Proof.
  unfold allFlattened, JsObject.values.
  induction o as [|[k0 v0] o IH]; cbn.
  - intros _. now rewrite app_nil_r.
  - destruct (String.eqb k0 k); [discriminate|]. cbn.
    intros H. now rewrite (IH H), app_assoc.
Qed.

Lemma allFlattened_groupInto (g : LocalHighlights) (h : HighlightedWord) :
  Permutation (allFlattened (groupInto g h)) (h :: allFlattened g).
Proof.
  unfold groupInto.
  destruct (JsObject.get g (verseId h)) as [b|] eqn:E.
  - rewrite E. now apply allFlattened_set_present.
  - rewrite get_set_same.
    rewrite (allFlattened_set_present _ _ [] h (get_set_same _ _ _)).
    now rewrite (allFlattened_set_absent _ _ _ E), app_nil_r.
Qed.

Lemma keys_set_In {V : Type} (o : JsObject.t V) (k : string) (v : V)
    (x : string) :
  In x (map fst (JsObject.set o k v)) -> x = k \/ In x (map fst o).
Proof.
  induction o as [|[k0 v0] o IH]; cbn.
  - intros [<-|[]]. now left.
  - destruct (String.eqb_spec k0 k) as [->|Hne]; cbn.
    + intros [<-|H]; auto.
    + intros [<-|H]; auto. destruct (IH H); auto.
Qed.

Lemma keys_set_NoDup {V : Type} (o : JsObject.t V) (k : string) (v : V) :
  NoDup (map fst o) -> NoDup (map fst (JsObject.set o k v)).
Proof.
  induction o as [|[k0 v0] o IH]; cbn.
  - intros _. repeat constructor. intros [].
  - intros Hnd. inversion Hnd as [|? ? Hk0 Ho]; subst.
    destruct (String.eqb_spec k0 k) as [->|Hne]; cbn.
    + now constructor.
    + constructor; [|apply IH; exact Ho].
      intros Hx. destruct (keys_set_In _ _ _ _ Hx) as [->|H];
        [now apply Hne|now apply Hk0].
Qed.

Lemma allFlattened_groupByVerse (hs : list HighlightedWord) :
  Permutation (allFlattened (groupByVerse hs)) hs.
Proof.
  unfold groupByVerse.
  assert (P : forall g, Permutation (allFlattened (fold_left groupInto hs g))
                          (allFlattened g ++ hs)).
  { induction hs as [|h hs IH]; intros g; cbn [fold_left].
    - now rewrite app_nil_r.
    - rewrite IH, allFlattened_groupInto. cbn. apply Permutation_middle. }
  apply (P JsObject.empty).
Qed.

(** The regrouping effect puts into the map what [highlightedWords]
    holds. *)
Lemma regroupEffect_flattened (s : State) :
  highlightedWords s <> [] ->
  Permutation (allFlattened (localHighlights (regroupEffect s)))
    (highlightedWords s).
Proof.
  intros Hne. unfold regroupEffect.
  destruct (highlightedWords s) as [|h0 l] eqn:E; [congruence|].
  cbn [localHighlights setLocalHighlights].
  apply allFlattened_groupByVerse.
Qed.

(** ** Receiving highlights *)

Lemma sameRangeAndUser_spec (data h : HighlightedWord) :
  sameRangeAndUser data h = true <-> matches data h.
Proof.
  unfold sameRangeAndUser, matches.
  rewrite !andb_true_iff, !Z.eqb_eq, String.eqb_eq. tauto.
Qed.

Lemma sameHighlight_spec (data h : HighlightedWord) :
  sameHighlight data h = true <-> verseId h = verseId data /\ matches data h.
Proof.
  unfold sameHighlight, matches.
  rewrite !andb_true_iff, !Z.eqb_eq, !String.eqb_eq. tauto.
Qed.

Lemma sameRangeAndUser_refl (data : HighlightedWord) :
  sameRangeAndUser data data = true.
Proof. apply sameRangeAndUser_spec. repeat split. Qed.

Lemma sameHighlight_refl (data : HighlightedWord) :
  sameHighlight data data = true.
Proof. apply sameHighlight_spec. repeat split. Qed.

Lemma existsb_snoc {A : Type} (f : A -> bool) (l : list A) (x : A) :
  f x = true -> existsb f (l ++ [x]) = true.
Proof.
  intros H. rewrite existsb_app. cbn. rewrite H.
  now rewrite orb_true_r.
Qed.

Lemma existsb_false_filter {A : Type} (f : A -> bool) (l : list A) :
  existsb f l = false -> filter f l = [].
Proof.
  induction l as [|x l IH]; cbn; [reflexivity|].
  destruct (f x); [discriminate|]. exact IH.
Qed.

(** The bucket of the verse after a receipt. *)
Lemma receive_bucket (data : HighlightedWord) (prev : LocalHighlights) :
  bucketOf (receiveIntoLocalHighlights data prev) (verseId data)
  = if existsb (sameRangeAndUser data) (bucketOf prev (verseId data))
    then bucketOf prev (verseId data)
    else bucketOf prev (verseId data) ++ [data].
Proof.
  unfold receiveIntoLocalHighlights, bucketOf.
  destruct (JsObject.get prev (verseId data)) as [b|] eqn:E.
  - rewrite E. fold (sameRangeAndUser data).
    destruct (existsb (sameRangeAndUser data) b); cbn.
    + now rewrite E.
    + now rewrite get_set_same.
  - rewrite get_set_same. cbn.
    now rewrite get_set_same.
Qed.

Lemma receive_other (data : HighlightedWord) (prev : LocalHighlights)
    (other : string) :
  verseId data <> other ->
  JsObject.get (receiveIntoLocalHighlights data prev) other
  = JsObject.get prev other.
Proof.
  intros Hne. unfold receiveIntoLocalHighlights.
  destruct (JsObject.get prev (verseId data)) as [b|] eqn:E.
  - rewrite E. destruct (existsb _ b); cbn; auto.
    now rewrite get_set_other.
  - rewrite get_set_same. cbn.
    now rewrite !get_set_other.
Qed.

(** A receipt that finds its highlight in the bucket returns the map it
    was given. *)
Lemma receive_known (data : HighlightedWord) (prev : LocalHighlights) :
  existsb (sameRangeAndUser data) (bucketOf prev (verseId data)) = true ->
  receiveIntoLocalHighlights data prev = prev.
Proof.
  unfold receiveIntoLocalHighlights, bucketOf.
  destruct (JsObject.get prev (verseId data)) as [b|] eqn:E.
  - rewrite E. fold (sameRangeAndUser data). now intros ->.
  - cbn. discriminate.
Qed.

Lemma receive_twice_local (data : HighlightedWord) (prev : LocalHighlights) :
  receiveIntoLocalHighlights data (receiveIntoLocalHighlights data prev)
  = receiveIntoLocalHighlights data prev.
Proof.
  apply receive_known. rewrite receive_bucket.
  destruct (existsb (sameRangeAndUser data) (bucketOf prev (verseId data)))
    eqn:E; [exact E|].
  apply existsb_snoc, sameRangeAndUser_refl.
Qed.

Lemma receive_twice_words (data : HighlightedWord)
    (prev : list HighlightedWord) :
  receiveIntoHighlightedWords data (receiveIntoHighlightedWords data prev)
  = receiveIntoHighlightedWords data prev.
Proof.
  unfold receiveIntoHighlightedWords. fold (sameHighlight data).
  destruct (existsb (sameHighlight data) prev) eqn:E; cbn.
  - now rewrite E.
  - now rewrite (existsb_snoc _ _ _ (sameHighlight_refl data)).
Qed.

(** After a receipt [highlightedWords] holds the received highlight. *)
Lemma receive_words_known (data : HighlightedWord)
    (prev : list HighlightedWord) :
  existsb (sameHighlight data) (receiveIntoHighlightedWords data prev) = true.
Proof.
  unfold receiveIntoHighlightedWords. fold (sameHighlight data).
  destruct (existsb (sameHighlight data) prev) eqn:E; cbn; auto.
  apply existsb_snoc, sameHighlight_refl.
Qed.

(** C6: when a highlight event arrives, the bucket of its verse is left
    as it is if it holds a highlight on the same range by the same user
    (and [highlightedWords] is left as it is if it holds one with the
    same verse, range and user); otherwise the received highlight is
    appended as it came, every earlier entry staying in place whether it
    overlaps or not.  No other bucket changes.  Receiving the same event a
    second time changes nothing, whether or not the regrouping effect ran
    in between, and a store that did not hold the highlight holds it
    exactly once after two receipts. *)
Theorem C6_remote_receipt_is_idempotent (data : HighlightedWord)
    (s : State) :
  let bucket := bucketOf (localHighlights s) (verseId data) in
  let s' := onHighlight data s in
  ((exists h, In h bucket /\ matches data h) ->
     localHighlights s' = localHighlights s) /\
  ((forall h, In h bucket -> ~ matches data h) ->
     JsObject.get (localHighlights s') (verseId data)
     = Some (bucket ++ [data]) /\
     List.length (filter (sameRangeAndUser data)
                    (bucketOf (localHighlights (onHighlight data s'))
                       (verseId data))) = 1%nat) /\
  ((exists h, In h (highlightedWords s) /\
              verseId h = verseId data /\ matches data h) ->
     highlightedWords s' = highlightedWords s) /\
  ((forall h, In h (highlightedWords s) ->
              ~ (verseId h = verseId data /\ matches data h)) ->
     highlightedWords s' = highlightedWords s ++ [data]) /\
  (forall other, verseId data <> other ->
     JsObject.get (localHighlights s') other
     = JsObject.get (localHighlights s) other) /\
  onHighlight data s' = s' /\
  onHighlight data (regroupEffect s') = regroupEffect s'.
Proof.
  intros bucket s'. repeat apply conj.
  - intros (h & Hin & Hm). cbn. apply receive_known.
    apply existsb_exists. exists h. split; auto.
    now apply sameRangeAndUser_spec.
  - intros Hnone.
    assert (E : existsb (sameRangeAndUser data) bucket = false).
    { apply not_true_is_false. intros Ht.
      apply existsb_exists in Ht as (h & Hin & Hm).
      apply (Hnone h Hin). now apply sameRangeAndUser_spec. }
    assert (Hb : bucketOf (localHighlights s') (verseId data)
                 = bucket ++ [data]).
    { cbn. rewrite receive_bucket. fold bucket. now rewrite E. }
    split.
    + revert Hb. unfold bucketOf at 1.
      destruct (JsObject.get (localHighlights s') (verseId data)) as [b|];
        [now intros ->|].
      intros Hb. now destruct bucket.
    + cbn. rewrite receive_twice_local.
      change (receiveIntoLocalHighlights data (localHighlights s))
        with (localHighlights s').
      rewrite Hb, filter_app, (existsb_false_filter _ _ E). cbn.
      now rewrite sameRangeAndUser_refl.
  - intros (h & Hin & Hm). cbn. unfold receiveIntoHighlightedWords.
    fold (sameHighlight data).
    assert (E : existsb (sameHighlight data) (highlightedWords s) = true).
    { apply existsb_exists. exists h. split; auto.
      now apply sameHighlight_spec. }
    now rewrite E.
  - intros Hnone. cbn. unfold receiveIntoHighlightedWords.
    fold (sameHighlight data).
    assert (E : existsb (sameHighlight data) (highlightedWords s) = false).
    { apply not_true_is_false. intros Ht.
      apply existsb_exists in Ht as (h & Hin & Hm).
      apply (Hnone h Hin). now apply sameHighlight_spec. }
    now rewrite E.
  - intros other Hne. cbn. now apply receive_other.
  - unfold s', onHighlight, setLocalHighlights, setHighlightedWords. cbn.
    now rewrite receive_twice_local, receive_twice_words.
  - assert (Hw : highlightedWords s'
                 = receiveIntoHighlightedWords data (highlightedWords s))
      by reflexivity.
    pose proof (receive_words_known data (highlightedWords s)) as Hk.
    rewrite <- Hw in Hk.
    unfold regroupEffect. destruct (highlightedWords s') as [|h0 l] eqn:E;
      [discriminate Hk|].
    unfold onHighlight, setLocalHighlights, setHighlightedWords.
    cbn [localHighlights highlightedWords needsSync isSyncing selection].
    assert (Hww : receiveIntoHighlightedWords data (h0 :: l) = h0 :: l)
      by (rewrite Hw; apply receive_twice_words).
    assert (Hl : receiveIntoLocalHighlights data (groupByVerse (h0 :: l))
                 = groupByVerse (h0 :: l)).
    { apply receive_known. rewrite bucketOf_groupByVerse.
      apply existsb_exists in Hk as (h & Hin & Hh).
      apply existsb_exists. exists h.
      apply sameHighlight_spec in Hh as [Hv Hm]. split.
      - apply filter_In. split; auto. now apply String.eqb_eq.
      - now apply sameRangeAndUser_spec. }
    now rewrite E, Hww, Hl.
Qed.

(** A highlight of another user arrives twice on a verse that holds an
    overlapping highlight: it is stored once, next to the other. *)
Lemma C6_remote_receipt_is_idempotent_witness :
  let s := stateOf false [highlightOf "U1" 2 8] in
  let data := highlightOf "U2" 5 10 in
  JsObject.get (localHighlights (onHighlight data s)) "Genesis_1_1"
  = Some [highlightOf "U1" 2 8; highlightOf "U2" 5 10] /\
  onHighlight data (onHighlight data s) = onHighlight data s.
Proof.
  intros s data.
  destruct (C6_remote_receipt_is_idempotent data s)
    as (_ & Hnew & _ & _ & _ & Hidem & _).
  split; [|exact Hidem].
  apply Hnew. intros h [<-|[]] (_ & _ & Hu). discriminate Hu.
Defined.

(** ** Ranges of stored highlights *)

Lemma afterCreate_wellRanged (vId : string) (n : HighlightedWord)
    (s : State) :
  nonDegenerate n -> wellRanged s -> wellRanged (afterCreate vId n s).
Proof.
  intros Hn [Hl Hw]. split; cbn; rewrite Forall_forall in *.
  - intros h Hin. unfold addToLocalHighlights in Hin.
    apply In_allFlattened_set in Hin as [Hin|Hin].
    + apply in_app_iff in Hin as [Hin|[<-|[]]]; auto.
      apply filter_In in Hin as [Hin _]. apply Hl.
      destruct (JsObject.get (localHighlights s) vId) as [b|] eqn:E.
      * rewrite E in Hin. apply In_allFlattened. exists b. split; auto.
        now apply (get_In_values _ vId).
      * rewrite get_set_same in Hin. destruct Hin.
    + destruct (JsObject.get (localHighlights s) vId); auto.
      apply In_allFlattened_set in Hin as [[]|Hin]. auto.
  - intros h Hin. unfold addToHighlightedWords in Hin.
    apply in_app_iff in Hin as [Hin|[<-|[]]]; auto.
    apply filter_In in Hin as [Hin _]. auto.
Qed.

(** Each handler of a tab keeps the ranges proper: a release of the
    mouse whatever the selection, the regrouping effect, and the
    receipt of a highlight whose own range is proper. *)
Lemma handlers_keep_ranges (s : State) :
  wellRanged s ->
  (forall c, wellRanged (fst (handleMouseUp c s))) /\
  (forall data, nonDegenerate data -> wellRanged (onHighlight data s)) /\
  wellRanged (regroupEffect s).
Proof.
  intros Hs. split; [|split].
  - intros c.
    destruct (handleMouseUp_cases c s) as [E|(a & b & v & _ & _ & Hlt & E)];
      rewrite E; cbn [fst].
    + exact Hs.
    + apply afterCreate_wellRanged; auto.
  - intros data Hd. destruct Hs as [Hl Hw].
    split; cbn; rewrite Forall_forall in *.
    + intros h Hin. unfold receiveIntoLocalHighlights in Hin.
      assert (Hb : forall x,
                In x match JsObject.get
                             match JsObject.get (localHighlights s)
                                     (verseId data) with
                             | Some _ => localHighlights s
                             | None => JsObject.set (localHighlights s)
                                         (verseId data) []
                             end (verseId data) with
                     | Some b => b
                     | None => []
                     end -> nonDegenerate x).
      { intros x Hx. apply Hl.
        destruct (JsObject.get (localHighlights s) (verseId data))
          as [b|] eqn:E.
        - rewrite E in Hx. apply In_allFlattened. exists b. split; auto.
          now apply (get_In_values _ (verseId data)).
        - rewrite get_set_same in Hx. destruct Hx. }
      assert (Hn : forall x,
                In x (allFlattened
                        match JsObject.get (localHighlights s)
                                (verseId data) with
                        | Some _ => localHighlights s
                        | None => JsObject.set (localHighlights s)
                                    (verseId data) []
                        end) -> nonDegenerate x).
      { intros x Hx.
        destruct (JsObject.get (localHighlights s) (verseId data)); auto.
        apply In_allFlattened_set in Hx as [[]|Hx]. auto. }
      destruct (negb _) in Hin; auto.
      apply In_allFlattened_set in Hin as [Hin|Hin]; auto.
      apply in_app_iff in Hin as [Hin|[<-|[]]]; auto.
    + intros h Hin. unfold receiveIntoHighlightedWords in Hin.
      destruct (negb _) in Hin; auto.
      apply in_app_iff in Hin as [Hin|[<-|[]]]; auto.
  - unfold regroupEffect. destruct Hs as [Hl Hw].
    remember (highlightedWords s) as hw eqn:E.
    destruct hw as [|h0 hs]; [split; [exact Hl|now rewrite <- E]|].
    split; unfold setLocalHighlights;
      cbn [localHighlights highlightedWords]; [|now rewrite <- E].
    rewrite Forall_forall in *. intros h Hin.
    apply In_allFlattened_groupByVerse in Hin. auto.
Qed.

(** ** Saving *)

Lemma moreDocs_nextDoc (n : nat) (w : World) :
  moreDocs n (nextDoc w) = moreDocs (S n) w.
Proof.
  unfold moreDocs, nextDoc. cbn. f_equal. lia.
Qed.

Lemma moreDocs_0 (w : World) : moreDocs 0 w = w.
Proof.
  destruct w. unfold moreDocs. cbn. f_equal. lia.
Qed.

Section Saving.
Variable autoId : nat -> string.
Variable net : Network.

(** The loop of the reader's [saveHighlights], run in one go. *)
Lemma run_addNewHighlights (u : User) (hs : list HighlightedWord)
    (k : WriteBatch -> list (string * HighlightData) -> Prog)
    (onReturn onThrow : Prog) :
  forall batch docs w,
  run autoId net
    (continue (ScriptureReader.addNewHighlights u hs batch docs k)
       onReturn onThrow) w
  = run autoId net
      (continue
         (k (batch ++ setsOf (newDocs autoId u (generated w) hs))
            (docs ++ newDocs autoId u (generated w) hs))
         onReturn onThrow)
      (moreDocs (List.length hs) w).
Proof.
  induction hs as [|h hs IH]; intros batch docs w.
  - cbn. now rewrite !app_nil_r, moreDocs_0.
  - cbn [ScriptureReader.addNewHighlights continue run].
    rewrite IH. cbn [newDocs setsOf map List.length fst snd].
    rewrite moreDocs_nextDoc, <- !app_assoc. reflexivity.
Qed.

Lemma run_Navbar_addNewHighlights (u : User) (hs : list HighlightedWord)
    (k : WriteBatch -> Prog) (onReturn onThrow : Prog) :
  forall batch w,
  run autoId net
    (continue (Navbar.addNewHighlights u hs batch k) onReturn onThrow) w
  = run autoId net
      (continue (k (batch ++ setsOf (newDocs autoId u (generated w) hs)))
         onReturn onThrow)
      (moreDocs (List.length hs) w).
Proof.
  induction hs as [|h hs IH]; intros batch w.
  - cbn. now rewrite !app_nil_r, moreDocs_0.
  - cbn [Navbar.addNewHighlights continue run].
    rewrite IH. cbn [newDocs setsOf map List.length fst snd].
    rewrite moreDocs_nextDoc, <- !app_assoc. reflexivity.
Qed.

Lemma run_saveHighlights (c : Closure) (u : User) (w : World) :
  user (props c) = Some u -> isSyncing (seen c) = false ->
  allFlattened (localHighlights (seen c)) <> [] ->
  run autoId net (saveHighlights c) w = (savedWorld autoId net c u w, Resolved).
Proof.
  intros Hu Hsync Hne. unfold saveHighlights, savedWorld.
  rewrite Hu, Hsync. unfold tryCatchFinally.
  destruct (allFlattened (localHighlights (seen c))) as [|h hs] eqn:E;
    [congruence|].
  cbn [List.length Nat.eqb continue awaitGetDocs run].
  destruct (getDocsSucceeds net); [|reflexivity].
  rewrite run_addNewHighlights. unfold awaitCommit.
  cbn [continue run app]. unfold savedBatch, deletesOf.
  cbn [store sent withState generated].
  destruct (commitSucceeds net); reflexivity.
Qed.

(** The same on a map that flattens to nothing. *)
Lemma run_saveHighlights_empty (c : Closure) (u : User) (w : World) :
  user (props c) = Some u -> isSyncing (seen c) = false ->
  allFlattened (localHighlights (seen c)) = [] ->
  run autoId net (saveHighlights c) w
  = (withState (setIsSyncing false)
       (withState (setNeedsSync false)
          (withState (setIsSyncing true) w)), Resolved).
Proof.
  intros Hu Hsync He. unfold saveHighlights.
  rewrite Hu, Hsync, He. reflexivity.
Qed.

Lemma run_Navbar_saveHighlights (c : Closure) (u : User) (w : World) :
  user (props c) = Some u -> isSyncing (seen c) = false ->
  run autoId net (Navbar.saveHighlights c) w
  = (savedWorldNavbar autoId net c u w, Resolved).
Proof.
  intros Hu Hsync.
  unfold Navbar.saveHighlights, Navbar.saveHighlightsWhile, savedWorldNavbar.
  rewrite Hu, Hsync. unfold tryCatchFinally.
  cbn [continue awaitGetDocs run].
  destruct (getDocsSucceeds net); [|reflexivity].
  rewrite run_Navbar_addNewHighlights. unfold awaitCommit.
  cbn [continue run]. unfold savedBatch, deletesOf.
  cbn [store sent withState generated].
  destruct (commitSucceeds net); reflexivity.
Qed.

(** Running a call in one go is running it to its first [await] and
    then to its end. *)
Lemma run_advance_finish (p : Prog) :
  forall w,
  run autoId net p w
  = finish autoId net (snd (advance autoId p w)) (fst (advance autoId p w)).
Proof.
  induction p as [| |b k IH|b k IH|hs k IH|msg k IH|k IH|u k IH|b k IH];
    intros w; cbn; auto.
Qed.

(** No handler assigns to [localHighlights]. *)
Lemma run_localHighlights (p : Prog) :
  forall w,
  localHighlights (state (fst (run autoId net p w)))
  = localHighlights (state w).
Proof.
  induction p as [| |b k IH|b k IH|hs k IH|msg k IH|k IH|u k IH|b k IH];
    intros w; cbn; auto.
  - now rewrite IH.
  - now rewrite IH.
  - now rewrite IH.
  - now rewrite IH.
  - now rewrite IH.
  - destruct (getDocsSucceeds net); now rewrite IH.
  - destruct (commitSucceeds net); now rewrite IH.
Qed.
End Saving.

Lemma commitCount_app (l l' : list StorageOp) :
  commitCount (l ++ l') = (commitCount l + commitCount l')%nat.
Proof. unfold commitCount. now rewrite filter_app, length_app. Qed.

(** A document set by a batch is in the collection after the sets. *)
Lemma applyBatch_sets_present (docs : list (string * HighlightData))
    (i : string) :
  forall coll,
  In i (map fst docs) \/ JsObject.get coll i <> None ->
  JsObject.get (applyBatch coll (setsOf docs)) i <> None.
Proof.
  unfold applyBatch.
  induction docs as [|[j d] docs IH]; intros coll H; cbn.
  - destruct H as [[]|H]. exact H.
  - apply IH. cbn in H. destruct (String.eqb_spec j i) as [->|Hne].
    + right. rewrite get_set_same. discriminate.
    + destruct H as [[H|H]|H]; [contradiction|now left|right].
      now rewrite get_set_other.
Qed.

Lemma savedBatch_sets_present (autoId : nat -> string) (u : User)
    (w : World) (hs : list HighlightedWord) (i : string) :
  In i (map fst (newDocs autoId u (generated w) hs)) ->
  JsObject.get (applyBatch (store w) (savedBatch autoId u w hs)) i <> None.
Proof.
  intros Hin. unfold savedBatch, applyBatch. rewrite fold_left_app.
  apply applyBatch_sets_present. now left.
Qed.

(** Deleting the documents of a user leaves none of them. *)
Lemma applyBatch_deletes (ds coll : Collection) :
  applyBatch coll (deletesOf ds)
  = filter (fun d => negb (existsb (String.eqb (fst d)) (map fst ds))) coll.
Proof.
  unfold applyBatch, deletesOf. revert coll.
  induction ds as [|[j x] ds IH]; intros coll; cbn.
  - induction coll as [|c coll IHc]; cbn; [reflexivity|]. now f_equal.
  - rewrite IH. clear IH. induction coll as [|c coll IHc]; cbn; auto.
    destruct (String.eqb_spec (fst c) j) as [->|Hne]; cbn.
    + exact IHc.
    + destruct (existsb _ _); cbn; auto. now f_equal.
Qed.

Lemma whereUserId_after_deletes (u : string) (coll : Collection) :
  whereUserId u (applyBatch coll (deletesOf (whereUserId u coll))) = [].
Proof.
  rewrite applyBatch_deletes. unfold whereUserId.
  match goal with |- filter ?f (filter ?g coll) = [] =>
    destruct (filter f (filter g coll)) as [|d l] eqn:E end; auto.
  assert (Hd : In d (d :: l)) by now left. rewrite <- E in Hd.
  apply filter_In in Hd as [Hd Hu]. apply filter_In in Hd as [Hd Hn].
  apply negb_true_iff in Hn. exfalso.
  assert (Ht : existsb (String.eqb (fst d))
                 (map fst (filter (fun d0 => String.eqb (d_userId (snd d0)) u)
                             coll)) = true).
  { apply existsb_exists. exists (fst d). split.
    - apply in_map, filter_In. auto.
    - apply String.eqb_refl. }
  congruence.
Qed.

(** What the new documents and the highlights made from them hold. *)
Lemma newDocs_fields (autoId : nat -> string) (u : User)
    (hs : list HighlightedWord) :
  forall n,
  map (fun d => (d_verseId (snd d), d_startIndex (snd d),
                 d_endIndex (snd d), d_color (snd d)))
      (newDocs autoId u n hs)
  = map (fun h => (verseId h, startIndex h, endIndex h, color h)) hs /\
  Forall (fun d => d_userId (snd d) = uid u) (newDocs autoId u n hs).
Proof.
  induction hs as [|h hs IH]; intros n; cbn.
  - split; constructor.
  - destruct (IH (S n)) as [H1 H2]. split.
    + now f_equal.
    + constructor; auto.
Qed.

Lemma updatedHighlights_In (docs : list (string * HighlightData))
    (h : HighlightedWord) :
  In h (updatedHighlights docs) ->
  exists d, In d docs /\ id h = Some (fst d) /\
            userId h = d_userId (snd d).
Proof.
  unfold updatedHighlights. rewrite in_map_iff.
  intros (d & <- & Hd). exists d. auto.
Qed.

(** C3: when [saveHighlights] of the reader runs for a signed-in user,
    with no save under way and a map that is not empty, it returns
    without raising and with [isSyncing] false.  If the read or the
    commit fails, [needsSync], the highlights map, [highlightedWords]
    and the collection are as they were and the error is printed.  If
    both succeed, [needsSync] is false; [highlightedWords] holds one
    highlight per highlight of the map that was saved, in the same
    order and with the same verse, range and colour, each with the id
    of a document of the collection; the save itself leaves the map
    alone, and once the regrouping effect has run the map holds exactly
    the highlights of [highlightedWords], so the highlights that were
    saved, every one with its id. *)
Theorem C3_persist_clears_dirty_only_on_success (autoId : nat -> string)
    (net : Network) (c : Closure) (u : User) (w : World) :
  user (props c) = Some u -> isSyncing (seen c) = false ->
  allFlattened (localHighlights (seen c)) <> [] ->
  let w' := fst (run autoId net (saveHighlights c) w) in
  let stored h :=
    exists i, id h = Some i /\ JsObject.get (store w') i <> None in
  snd (run autoId net (saveHighlights c) w) = Resolved /\
  isSyncing (state w') = false /\
  (getDocsSucceeds net && commitSucceeds net = false ->
     needsSync (state w') = needsSync (state w) /\
     localHighlights (state w') = localHighlights (state w) /\
     highlightedWords (state w') = highlightedWords (state w) /\
     store w' = store w /\
     console w' = console w ++ ["Error saving highlights to Firebase:"%string])
  /\
  (getDocsSucceeds net && commitSucceeds net = true ->
     needsSync (state w') = false /\
     highlightedWords (state w') <> [] /\
     Forall stored (highlightedWords (state w')) /\
     Forall stored (allFlattened (localHighlights (regroupEffect (state w'))))
     /\
     map content (highlightedWords (state w'))
     = map content (allFlattened (localHighlights (seen c))) /\
     localHighlights (state w') = localHighlights (state w) /\
     Permutation (allFlattened (localHighlights (regroupEffect (state w'))))
       (highlightedWords (state w')) /\
     Permutation
       (map content
          (allFlattened (localHighlights (regroupEffect (state w')))))
       (map content (allFlattened (localHighlights (seen c))))).
Proof.
  intros Hu Hsync Hne w' stored. unfold stored, w'. clear stored w'.
  rewrite (run_saveHighlights autoId net c u w Hu Hsync Hne).
  cbn [fst snd]. unfold savedWorld.
  destruct (getDocsSucceeds net), (commitSucceeds net); cbn [andb];
    (split; [reflexivity|]); (split; [reflexivity|]);
    (split; [intros Hf; try discriminate Hf; repeat split; reflexivity|]);
    intros Ht; try discriminate Ht.
  split; [reflexivity|].
  set (hs := allFlattened (localHighlights (seen c))) in *.
  set (docs := newDocs autoId u (generated w) hs).
  assert (Hwords : forall h, In h (updatedHighlights docs) ->
            exists i, id h = Some i /\
              JsObject.get (applyBatch (store w) (savedBatch autoId u w hs)) i
              <> None).
  { intros h Hh. apply updatedHighlights_In in Hh as (d & Hd & Hid & _).
    exists (fst d). split; auto. apply savedBatch_sets_present.
    now apply in_map. }
  assert (Hnil : updatedHighlights docs <> []).
  { unfold docs. destruct hs; [congruence|]. discriminate. }
  assert (Hcontent : map content (updatedHighlights docs) = map content hs).
  { unfold updatedHighlights, docs. rewrite map_map.
    exact (proj1 (newDocs_fields autoId u hs (generated w))). }
  match goal with
  | |- context [regroupEffect ?st] =>
      assert (Hregroup :
                Permutation (allFlattened (localHighlights (regroupEffect st)))
                  (updatedHighlights docs))
        by (apply (regroupEffect_flattened st); exact Hnil)
  end.
  split; [exact Hnil|]. split; [|split; [|split; [|split; [|split]]]].
  - apply Forall_forall. exact Hwords.
  - apply Forall_forall. intros h Hh. apply Hwords.
    exact (Permutation_in _ Hregroup Hh).
  - exact Hcontent.
  - reflexivity.
  - exact Hregroup.
  - rewrite <- Hcontent. apply Permutation_map. exact Hregroup.
Qed.

(** [0,5) is saved to an empty collection; the store answers. *)
Lemma C3_persist_clears_dirty_only_on_success_witness :
  let c := render (reader "U1") (stateOf true [highlightOf "U1" 0 5]) in
  let w := worldOf (stateOf true [highlightOf "U1" 0 5]) [] in
  let w' := fst (run sampleId online (saveHighlights c) w) in
  needsSync (state w') = false /\
  Permutation
    (map content (allFlattened (localHighlights (regroupEffect (state w')))))
    [content (highlightOf "U1" 0 5)].
Proof.
  intros c w w'.
  destruct (C3_persist_clears_dirty_only_on_success sampleId online c
              {| uid := "U1" |} w eq_refl eq_refl) as (_ & _ & _ & Hok).
  - discriminate.
  - destruct (Hok eq_refl) as (Hn & _ & _ & _ & _ & _ & _ & Hp).
    split; [exact Hn|exact Hp].
Defined.

(** C5: when [saveHighlights] of the reader runs for a signed-in user,
    with no save under way and a map that flattens to no highlight, it
    returns at once, never suspended, with [needsSync] and [isSyncing]
    false, having sent nothing to the store, whose collection is as it
    was. *)
Theorem C5_empty_store_short_circuit (autoId : nat -> string)
    (net : Network) (c : Closure) (u : User) (w : World) :
  user (props c) = Some u -> isSyncing (seen c) = false ->
  allFlattened (localHighlights (seen c)) = [] ->
  let w' := fst (run autoId net (saveHighlights c) w) in
  advance autoId (saveHighlights c) w = (w', Finished Resolved) /\
  snd (run autoId net (saveHighlights c) w) = Resolved /\
  needsSync (state w') = false /\
  isSyncing (state w') = false /\
  requests w' = requests w /\
  store w' = store w.
Proof.
  intros Hu Hsync He w'. unfold w'.
  rewrite (run_saveHighlights_empty autoId net c u w Hu Hsync He).
  cbn [fst snd]. repeat split.
  unfold saveHighlights. rewrite Hu, Hsync, He. reflexivity.
Qed.

(** Nothing in memory, one document persisted: the save touches
    neither. *)
Lemma C5_empty_store_short_circuit_witness :
  let c := render (reader "U1") (stateOf true []) in
  let w := worldOf (stateOf true []) [persisted "old" "U1" 2 8] in
  let w' := fst (run sampleId online (saveHighlights c) w) in
  needsSync (state w') = false /\ requests w' = [] /\
  store w' = [persisted "old" "U1" 2 8].
Proof.
  intros c w w'.
  destruct (C5_empty_store_short_circuit sampleId online c
              {| uid := "U1" |} w eq_refl eq_refl eq_refl)
    as (_ & _ & Hn & _ & Hr & Hs).
  repeat split; assumption.
Defined.

(** C9: when a save of the reader goes through, the batch it commits
    deletes the documents of the user and sets one new document per
    highlight of the map, with the verse, range and colour of that
    highlight and the id of the saving user as [userId]; afterwards every
    highlight of [highlightedWords], and of the highlights map once the
    regrouping effect has run, has the saving user as [userId], whoever
    the highlight belonged to before. *)
Theorem C9_saved_highlights_belong_to_saver (autoId : nat -> string)
    (net : Network) (c : Closure) (u : User) (w : World) :
  user (props c) = Some u -> isSyncing (seen c) = false ->
  allFlattened (localHighlights (seen c)) <> [] ->
  getDocsSucceeds net = true -> commitSucceeds net = true ->
  let w' := fst (run autoId net (saveHighlights c) w) in
  exists docs,
    requests w'
    = requests w ++ [OpGetDocs (uid u);
                     OpCommit (deletesOf (whereUserId (uid u) (store w))
                               ++ setsOf docs)] /\
    store w'
    = applyBatch (store w)
        (deletesOf (whereUserId (uid u) (store w)) ++ setsOf docs) /\
    map (fun d => (d_verseId (snd d), d_startIndex (snd d),
                   d_endIndex (snd d), d_color (snd d))) docs
    = map (fun h => (verseId h, startIndex h, endIndex h, color h))
        (allFlattened (localHighlights (seen c))) /\
    Forall (fun d => d_userId (snd d) = uid u) docs /\
    highlightedWords (state w') = updatedHighlights docs /\
    Forall (fun h => userId h = uid u) (highlightedWords (state w')) /\
    Forall (fun h => userId h = uid u)
      (allFlattened (localHighlights (regroupEffect (state w')))).
Proof.
  intros Hu Hsync Hne Hg Hc w'. unfold w'. clear w'.
  rewrite (run_saveHighlights autoId net c u w Hu Hsync Hne).
  cbn [fst]. unfold savedWorld. rewrite Hg, Hc.
  set (hs := allFlattened (localHighlights (seen c))) in *.
  exists (newDocs autoId u (generated w) hs).
  destruct (newDocs_fields autoId u hs (generated w)) as [Hf Hown].
  assert (Hwords : forall h,
            In h (updatedHighlights (newDocs autoId u (generated w) hs)) ->
            userId h = uid u).
  { intros h Hh. apply updatedHighlights_In in Hh as (d & Hd & _ & ->).
    rewrite Forall_forall in Hown. auto. }
  split; [cbn; now rewrite <- app_assoc|].
  split; [reflexivity|]. split; [exact Hf|]. split; [exact Hown|].
  split; [reflexivity|]. split.
  - apply Forall_forall. exact Hwords.
  - apply Forall_forall. intros h Hh. apply Hwords.
    unfold regroupEffect in Hh. cbn in Hh.
    destruct (updatedHighlights (newDocs autoId u (generated w) hs))
      as [|h0 l] eqn:E; [destruct hs; [congruence|discriminate]|].
    cbn [localHighlights setLocalHighlights] in Hh.
    now apply In_allFlattened_groupByVerse in Hh.
Qed.

(** U1 saves after a highlight of U2 arrived over the socket: the
    highlight comes back as one of U1. *)
Lemma C9_saved_highlights_belong_to_saver_witness :
  let s := onHighlight (highlightOf "U2" 5 10) (stateOf false []) in
  let w' := fst (run sampleId online
                   (saveHighlights (render (reader "U1") s))
                   (worldOf s [])) in
  Forall (fun h => userId h = "U1"%string) (highlightedWords (state w')).
Proof.
  intros s w'.
  destruct (C9_saved_highlights_belong_to_saver sampleId online
              (render (reader "U1") s) {| uid := "U1" |} (worldOf s [])
              eq_refl eq_refl) as (docs & _ & _ & _ & _ & _ & H & _).
  - discriminate.
  - reflexivity.
  - reflexivity.
  - exact H.
Defined.

(** ** The two save routines *)

(** The save of the navigation bar leaves the highlights as they are. *)
Lemma Navbar_saveHighlights_keeps_highlights (autoId : nat -> string)
    (net : Network) (c : Closure) (w : World) :
  highlightedWords (state (fst (run autoId net (Navbar.saveHighlights c) w)))
  = highlightedWords (state w) /\
  localHighlights (state (fst (run autoId net (Navbar.saveHighlights c) w)))
  = localHighlights (state w).
Proof.
  split; [|apply run_localHighlights].
  destruct (user (props c)) as [u|] eqn:Hu;
    [|unfold Navbar.saveHighlights, Navbar.saveHighlightsWhile; now rewrite Hu].
  destruct (isSyncing (seen c)) eqn:Hs;
    [unfold Navbar.saveHighlights, Navbar.saveHighlightsWhile;
     now rewrite Hu, Hs|].
  rewrite (run_Navbar_saveHighlights autoId net c u w Hu Hs).
  unfold savedWorldNavbar.
  destruct (getDocsSucceeds net), (commitSucceeds net); reflexivity.
Qed.

(** C10: for a signed-in user with no save under way and a map that
    flattens to no highlight, the save of the navigation bar reads the
    documents of the user and commits a batch that deletes each of them
    and sets nothing, after which the collection holds no document of
    the user, where the save of the reader sends nothing and leaves the
    collection alone; so the two differ whenever the user has a document.
    Besides, the save of the navigation bar never changes
    [highlightedWords] or the highlights map, on any state and whatever
    the store answers. *)
Theorem C10_navbar_save_is_not_reader_save (autoId : nat -> string)
    (c : Closure) (u : User) (w : World) :
  user (props c) = Some u -> isSyncing (seen c) = false ->
  allFlattened (localHighlights (seen c)) = [] ->
  let wn := fst (run autoId online (Navbar.saveHighlights c) w) in
  let wr := fst (run autoId online (ScriptureReader.saveHighlights c) w) in
  requests wn
  = requests w ++ [OpGetDocs (uid u);
                   OpCommit (deletesOf (whereUserId (uid u) (store w)))] /\
  store wn
  = applyBatch (store w) (deletesOf (whereUserId (uid u) (store w))) /\
  whereUserId (uid u) (store wn) = [] /\
  needsSync (state wn) = false /\
  requests wr = requests w /\
  store wr = store w /\
  (whereUserId (uid u) (store w) <> [] -> store wn <> store wr) /\
  (forall net c0 w0,
     highlightedWords
       (state (fst (run autoId net (Navbar.saveHighlights c0) w0)))
     = highlightedWords (state w0) /\
     localHighlights
       (state (fst (run autoId net (Navbar.saveHighlights c0) w0)))
     = localHighlights (state w0)).
Proof.
  intros Hu Hsync He wn wr.
  assert (Hn : wn = savedWorldNavbar autoId online c u w)
    by (unfold wn; now rewrite (run_Navbar_saveHighlights _ _ c u w Hu Hsync)).
  assert (Hr : wr = withState (setIsSyncing false)
                      (withState (setNeedsSync false)
                         (withState (setIsSyncing true) w)))
    by (unfold wr;
        now rewrite (run_saveHighlights_empty _ _ c u w Hu Hsync He)).
  assert (Hstore : store wn
            = applyBatch (store w) (deletesOf (whereUserId (uid u) (store w)))).
  { rewrite Hn. unfold savedWorldNavbar, savedBatch. rewrite He. cbn.
    now rewrite app_nil_r. }
  assert (Hgone : whereUserId (uid u) (store wn) = [])
    by (rewrite Hstore; apply whereUserId_after_deletes).
  split; [|split; [exact Hstore|split; [exact Hgone|split; [|split; [|split;
    [|split]]]]]].
  - rewrite Hn. unfold savedWorldNavbar, savedBatch. rewrite He. cbn.
    now rewrite app_nil_r, <- app_assoc.
  - rewrite Hn. reflexivity.
  - rewrite Hr. reflexivity.
  - rewrite Hr. reflexivity.
  - intros Hsome Heq. apply Hsome. rewrite <- Hgone, Heq, Hr. reflexivity.
  - intros net c0 w0. apply Navbar_saveHighlights_keeps_highlights.
Qed.

(** With one highlight persisted and none in memory, the button of the
    navigation bar empties the collection; the save of the reader keeps
    it. *)
Lemma C10_navbar_save_is_not_reader_save_witness :
  let c := render (reader "U1") (stateOf true []) in
  let w := worldOf (stateOf true []) [persisted "old" "U1" 2 8] in
  store (fst (run sampleId online (Navbar.saveHighlights c) w)) = [] /\
  store (fst (run sampleId online (ScriptureReader.saveHighlights c) w))
  = [persisted "old" "U1" 2 8].
Proof.
  intros c w.
  destruct (C10_navbar_save_is_not_reader_save sampleId c
              {| uid := "U1" |} w eq_refl eq_refl eq_refl)
    as (_ & Hn & _ & _ & _ & Hr & _).
  split; [rewrite Hn|rewrite Hr]; reflexivity.
Defined.

(** ** One save at a time *)

(** The guard at work: a call of [saveHighlights] made by a render that
    saw [isSyncing] true does nothing: it returns at once without
    raising and leaves the state, [needsSync] included, the collection
    and the list of requests as they were.  A first call on a map that
    is not empty is suspended with [isSyncing] true, at its read and,
    when the read succeeds, at its commit; a second call from the render
    that follows the start of the first therefore does nothing, and when
    the first call has run to its end one batch has been committed if
    the read succeeded and none otherwise. *)
Lemma saveHighlights_guard_of_next_render (autoId : nat -> string)
    (net : Network) (p : Props) (u : User) (w : World) :
  user p = Some u -> isSyncing (state w) = false ->
  allFlattened (localHighlights (state w)) <> [] ->
  let first := advance autoId (saveHighlights (render p (state w))) w in
  let w1 := fst first in
  let second := advance autoId (saveHighlights (render p (state w1))) w1 in
  let w2 := fst (finish autoId net (snd first) (fst second)) in
  (forall c w0, isSyncing (seen c) = true ->
     saveHighlights c = Return /\
     advance autoId (saveHighlights c) w0 = (w0, Finished Resolved) /\
     run autoId net (saveHighlights c) w0 = (w0, Resolved)) /\
  isSyncing (state w1) = true /\
  requests w1 = requests w ++ [OpGetDocs (uid u)] /\
  isSyncing (state (fst (resume autoId true (snd first) w1))) = true /\
  second = (w1, Finished Resolved) /\
  commitCount (requests w2)
  = (commitCount (requests w) + if getDocsSucceeds net then 1 else 0)%nat /\
  isSyncing (state w2) = false.
Proof.
  intros Hu Hsync Hne first w1 second w2.
  assert (Hnoop : forall c, isSyncing (seen c) = true ->
                            saveHighlights c = Return).
  { intros c Hc. unfold saveHighlights. rewrite Hc.
    now destruct (user (props c)). }
  assert (Hw1 : isSyncing (state w1) = true /\
                requests w1 = requests w ++ [OpGetDocs (uid u)] /\
                isSyncing (state (fst (resume autoId true (snd first) w1)))
                = true).
  { unfold w1, first, saveHighlights. cbn [render props seen].
    rewrite Hu, Hsync. unfold tryCatchFinally.
    destruct (allFlattened (localHighlights (state w))) as [|h hs];
      [congruence|].
    cbn [List.length Nat.eqb continue awaitGetDocs advance fst snd].
    split; [reflexivity|]. split; [reflexivity|].
    cbn [resume]. clear.
    generalize (map (fun d : string * HighlightData => BatchDelete (fst d))
                  (whereUserId (uid u)
                     (store (sent (OpGetDocs (uid u))
                               (withState (setIsSyncing true) w))))).
    generalize (@nil (string * HighlightData)).
    assert (G : forall w0, isSyncing (state w0) = true ->
              forall l docs batch,
              isSyncing (state (fst (advance autoId
                (continue
                   (addNewHighlights u l batch docs
                      (fun batch0 newHighlightDocs =>
                         awaitCommit batch0
                           (SetHighlightedWords
                              (updatedHighlights newHighlightDocs)
                              (SetNeedsSync false Return))))
                   (SetIsSyncing false Return)
                   (continue
                      (ConsoleError "Error saving highlights to Firebase:"
                         Return)
                      (SetIsSyncing false Return) (SetIsSyncing false Throw)))
                w0))) = true).
    { intros w0 Hw0 l. revert w0 Hw0.
      induction l as [|x l IH]; intros w0 Hw0 docs batch.
      - exact Hw0.
      - cbn [addNewHighlights continue advance]. now apply IH. }
    intros docs batch. now apply G. }
  destruct Hw1 as (Hs1 & Hr1 & Hs1').
  assert (Hsecond : second = (w1, Finished Resolved)).
  { unfold second. rewrite (Hnoop (render p (state w1))); auto. }
  split; [|split; [exact Hs1|split; [exact Hr1|split; [exact Hs1'|
    split; [exact Hsecond|]]]]].
  - intros c w0 Hc. rewrite (Hnoop c Hc). repeat split.
  - unfold w2. rewrite Hsecond. cbn [fst]. unfold w1, first.
    rewrite <- run_advance_finish.
    rewrite (run_saveHighlights autoId net (render p (state w)) u w);
      auto.
    cbn [fst]. unfold savedWorld.
    destruct (getDocsSucceeds net), (commitSucceeds net);
      cbn [requests state withState withStore sent printed moreDocs
           isSyncing setIsSyncing];
      rewrite ?commitCount_app; cbn; split; try reflexivity; lia.
Qed.

(** [0,5) is being saved when the save is asked for again. *)
Lemma saveHighlights_guard_of_next_render_example :
  let s := stateOf true [highlightOf "U1" 0 5] in
  let first :=
    advance sampleId (saveHighlights (render (reader "U1") s))
      (worldOf s []) in
  let second :=
    advance sampleId
      (saveHighlights (render (reader "U1") (state (fst first))))
      (fst first) in
  commitCount
    (requests (fst (finish sampleId online (snd first) (fst second))))
  = 1%nat.
Proof.
  intros s first second.
  destruct (saveHighlights_guard_of_next_render sampleId online (reader "U1")
              {| uid := "U1" |} (worldOf s []) eq_refl eq_refl)
    as (_ & _ & _ & _ & _ & H & _).
  - discriminate.
  - exact H.
Defined.

(** C4 fails on the code.  The guard of [saveHighlights] reads the
    [isSyncing] that its render bound, which a call of the function
    does not change.  So when the [saveHighlights] of one render is
    called, and called again before the first call resolves, the
    second call is not stopped although the first is suspended with the
    live [isSyncing] true: it sends a read of its own, and when the
    store has answered both reads each call commits its batch.  Two
    batches are written where one is wanted, and the collection ends
    with two documents for the one highlight.

    The component gets there with two deletions.  [deleteHighlight]
    calls the [saveHighlights] of its own render, for a saved highlight
    only after [await deleteDoc].  While it waits, the next render
    deletes a highlight that has no id and starts its save at once;
    when [deleteDoc] has answered, the first handler calls its
    [saveHighlights], whose render saw [isSyncing] false: a second
    save runs beside the first, two batches are committed, and [10,12)
    ends with two documents. *)
Theorem C4_a_stale_guard_lets_saves_overlap :
  (let s := stateOf true [highlightOf "U1" 0 5] in
   let c := render (reader "U1") s in
   let first := advance sampleId (saveHighlights c) (worldOf s []) in
   let second := advance sampleId (saveHighlights c) (fst first) in
   let first' := resume sampleId true (snd first) (fst second) in
   let second' := resume sampleId true (snd second) (fst first') in
   let w1 := fst (finish sampleId online (snd first') (fst second')) in
   let w2 := fst (finish sampleId online (snd second') w1) in
   isSyncing (state (fst first)) = true /\
   (exists k, snd first = AwaitingGetDocs "U1" k) /\
   (exists k, snd second = AwaitingGetDocs "U1" k) /\
   requests (fst second) = [OpGetDocs "U1"; OpGetDocs "U1"] /\
   commitCount (requests w2) = 2%nat /\
   store w2 = [persisted "A" "U1" 0 5; persisted "B" "U1" 0 5]) /\
  (let h := savedHighlight (persisted "a" "U1" 2 8) in
   let s := stateOf true [h; highlightOf "U1" 10 12] in
   let w := worldOf s [persisted "a" "U1" 2 8] in
   let c1 := render (reader "U1") s in
   let w1 := withState (afterRemove h) w in
   let c2 := render (reader "U1") (state w1) in
   let w2 := withState (afterRemove (highlightOf "U1" 10 12)) w1 in
   let second := advance sampleId (saveHighlights c2) w2 in
   let w3 := withStore (deleteDocument "a") (fst second) in
   let first := advance sampleId (saveHighlights c1) w3 in
   let second' := resume sampleId true (snd second) (fst first) in
   let first' := resume sampleId true (snd first) (fst second') in
   let w4 := fst (finish sampleId online (snd second') (fst first')) in
   let w5 := fst (finish sampleId online (snd first') w4) in
   isSyncing (state w3) = true /\
   (exists k, snd second = AwaitingGetDocs "U1" k) /\
   (exists k, snd first = AwaitingGetDocs "U1" k) /\
   requests (fst first) = [OpGetDocs "U1"; OpGetDocs "U1"] /\
   commitCount (requests w5) = 2%nat /\
   store w5 = [persisted "A" "U1" 10 12; persisted "B" "U1" 2 8;
               persisted "C" "U1" 10 12]).
Proof.
  split; cbv zeta.
  - split; [reflexivity|].
    split; [eexists; reflexivity|].
    split; [eexists; reflexivity|].
    split; [reflexivity|]. split; reflexivity.
  - split; [reflexivity|].
    split; [eexists; reflexivity|].
    split; [eexists; reflexivity|].
    split; [reflexivity|]. split; reflexivity.
Qed.

(** ** Ranges, in every tab and at all times *)

Lemma wellRanged_same (s s' : State) :
  localHighlights s' = localHighlights s ->
  highlightedWords s' = highlightedWords s ->
  wellRanged s -> wellRanged s'.
Proof. unfold wellRanged. now intros -> ->. Qed.

Lemma handleMouseUp_emits_ranged (c : Closure) (s : State) :
  Forall nonDegenerate (snd (handleMouseUp c s)).
Proof.
  destruct (handleMouseUp_cases c s) as [E|(a & b & v & _ & _ & Hlt & E)];
    rewrite E; cbn [snd]; [constructor|].
  destruct (socketConnected (props c)); repeat constructor. exact Hlt.
Qed.

Lemma Forall_set {V : Type} (P : string * V -> Prop) (o : JsObject.t V)
    (k : string) (v : V) :
  (forall k', P (k', v)) -> Forall P o -> Forall P (JsObject.set o k v).
Proof.
  intros Hv. induction 1 as [|[k0 v0] o H0 Ho IH]; cbn.
  - repeat constructor. apply Hv.
  - destruct (String.eqb k0 k); constructor; auto.
Qed.

Lemma Forall_get {V : Type} (P : V -> Prop) (o : JsObject.t V) (k : string)
    (v : V) :
  Forall (fun t => P (snd t)) o -> JsObject.get o k = Some v -> P v.
Proof.
  intros Ho Hg. apply get_In_values in Hg. unfold JsObject.values in Hg.
  apply in_map_iff in Hg as (t & <- & Ht).
  rewrite Forall_forall in Ho. now apply Ho.
Qed.

Lemma Forall_keep {A : Type} (P : A -> Prop) (f : A -> bool) (l : list A) :
  Forall P l -> Forall P (filter f l).
Proof.
  rewrite !Forall_forall. intros H x Hx. apply filter_In in Hx as [Hx _].
  now apply H.
Qed.

Lemma Forall_without {A : Type} (P : A -> Prop) (l : list A) (n : nat) :
  Forall P l -> Forall P (firstn n l ++ skipn (S n) l).
Proof.
  intros H. revert n. induction H as [|x l Hx Hl IH]; intros [|n]; cbn.
  - constructor.
  - constructor.
  - exact Hl.
  - constructor; [exact Hx|apply IH].
Qed.

Lemma newDocs_ranged (autoId : nat -> string) (u : User)
    (hs : list HighlightedWord) :
  forall n, Forall nonDegenerate hs -> Forall docRanged (newDocs autoId u n hs).
Proof.
  induction hs as [|h hs IH]; intros n H; cbn; [constructor|].
  inversion H as [|? ? Hh Hhs]; subst. constructor; auto.
Qed.

Lemma updatedHighlights_ranged (docs : list (string * HighlightData)) :
  Forall docRanged docs -> Forall nonDegenerate (updatedHighlights docs).
Proof.
  unfold updatedHighlights. induction 1; cbn; constructor; auto.
Qed.

Lemma applyBatch_ranged (b : WriteBatch) :
  forall coll : Collection,
  Forall docRanged coll ->
  (forall i d, In (BatchSet i d) b -> docRanged (i, d)) ->
  Forall docRanged (applyBatch coll b).
Proof.
  unfold applyBatch. induction b as [|op b IH]; intros coll Hc Hb; cbn; auto.
  apply IH.
  - destruct op as [i|i d]; cbn.
    + now apply Forall_keep.
    + apply Forall_set; auto. intros k'. apply (Hb i d). now left.
  - intros i d Hin. apply Hb. now right.
Qed.

Lemma savedBatch_ranged (autoId : nat -> string) (u : User) (w : World)
    (hs : list HighlightedWord) :
  Forall docRanged (store w) -> Forall nonDegenerate hs ->
  Forall docRanged (applyBatch (store w) (savedBatch autoId u w hs)).
Proof.
  intros Hw Hhs. apply applyBatch_ranged; auto.
  intros i d Hin. unfold savedBatch in Hin.
  apply in_app_iff in Hin as [Hin|Hin].
  - unfold deletesOf in Hin. apply in_map_iff in Hin as (x & Hx & _).
    discriminate Hx.
  - unfold setsOf in Hin. apply in_map_iff in Hin as ([j x] & Hx & Hin).
    injection Hx as -> ->.
    pose proof (newDocs_ranged autoId u hs (generated w) Hhs) as H.
    rewrite Forall_forall in H. now apply (H (i, d)).
Qed.

Lemma saveHighlights_ranged (autoId : nat -> string) (net : Network)
    (c : Closure) (w : World) :
  wellRanged (seen c) -> rangedWorld w ->
  rangedWorld (fst (run autoId net (saveHighlights c) w)).
Proof.
  intros [Hc _] [[Hl Hh] Hst].
  destruct (user (props c)) as [u|] eqn:Hu;
    [|unfold saveHighlights; rewrite Hu; repeat split; assumption].
  destruct (isSyncing (seen c)) eqn:Hs;
    [unfold saveHighlights; rewrite Hu, Hs; repeat split; assumption|].
  assert (Hcase : allFlattened (localHighlights (seen c)) = [] \/
                  allFlattened (localHighlights (seen c)) <> [])
    by (destruct (allFlattened (localHighlights (seen c)));
        [now left|right; discriminate]).
  destruct Hcase as [E|E].
  - rewrite (run_saveHighlights_empty autoId net c u w Hu Hs E).
    repeat split; assumption.
  - rewrite (run_saveHighlights autoId net c u w Hu Hs E).
    cbn [fst]. unfold savedWorld.
    destruct (getDocsSucceeds net), (commitSucceeds net);
      try (repeat split; assumption).
    unfold rangedWorld, wellRanged.
    cbn [state store withState withStore sent printed moreDocs setIsSyncing
         setNeedsSync setHighlightedWords localHighlights highlightedWords].
    split; [split|].
    + exact Hl.
    + apply updatedHighlights_ranged. now apply newDocs_ranged.
    + now apply savedBatch_ranged.
Qed.

Lemma Navbar_saveHighlights_ranged (autoId : nat -> string) (net : Network)
    (c : Closure) (w : World) :
  wellRanged (seen c) -> rangedWorld w ->
  rangedWorld (fst (run autoId net (Navbar.saveHighlights c) w)).
Proof.
  intros [Hc _] [[Hl Hh] Hst].
  destruct (user (props c)) as [u|] eqn:Hu;
    [|unfold Navbar.saveHighlights, Navbar.saveHighlightsWhile; rewrite Hu;
      repeat split; assumption].
  destruct (isSyncing (seen c)) eqn:Hs;
    [unfold Navbar.saveHighlights, Navbar.saveHighlightsWhile;
     rewrite Hu, Hs; repeat split; assumption|].
  rewrite (run_Navbar_saveHighlights autoId net c u w Hu Hs).
  cbn [fst]. unfold savedWorldNavbar.
  destruct (getDocsSucceeds net), (commitSucceeds net);
    try (repeat split; assumption).
  unfold rangedWorld, wellRanged.
  cbn [state store withState withStore sent printed moreDocs setIsSyncing
       setNeedsSync localHighlights highlightedWords].
  split; [split|]; auto. now apply savedBatch_ranged.
Qed.

Lemma loadHighlights_ranged (ok : bool) (c : Closure) (w : World) :
  rangedWorld w -> rangedWorld (loadHighlights ok c w).
Proof.
  intros [[Hl Hh] Hst]. unfold loadHighlights.
  destruct (user (props c)) as [u|]; [|repeat split; assumption].
  destruct ok; [|repeat split; assumption].
  assert (Hsaved : Forall nonDegenerate
                     (map savedHighlight (whereUserId (uid u) (store w)))).
  { apply Forall_map. unfold whereUserId. apply Forall_keep.
    exact Hst. }
  split; [split|]; cbn; auto.
  apply Forall_forall. intros h Hin.
  apply In_allFlattened_groupByVerse in Hin.
  rewrite Forall_forall in Hsaved. now apply Hsaved.
Qed.

Lemma afterRemove_ranged (highlight : HighlightedWord) (s : State) :
  wellRanged s -> wellRanged (afterRemove highlight s).
Proof.
  intros [Hl Hh]. split; cbn; [|now apply Forall_keep].
  unfold removeFromLocalHighlights.
  destruct (JsObject.get (localHighlights s) (verseId highlight))
    as [b|] eqn:E; [|exact Hl].
  rewrite Forall_forall in *. intros h Hin.
  apply In_allFlattened_set in Hin as [Hin|Hin]; auto.
  apply filter_In in Hin as [Hin _]. apply Hl.
  apply In_allFlattened. exists b. split; auto.
  now apply (get_In_values _ (verseId highlight)).
Qed.

Lemma afterRecolor_ranged (highlight : HighlightedWord) (newColor : string)
    (s : State) :
  wellRanged s -> wellRanged (afterRecolor highlight newColor s).
Proof.
  intros [Hl Hh]. split; cbn.
  - unfold recolorInLocalHighlights.
    destruct (JsObject.get (localHighlights s) (verseId highlight))
      as [b|] eqn:E; [|exact Hl].
    rewrite Forall_forall in *. intros h Hin.
    apply In_allFlattened_set in Hin as [Hin|Hin]; auto.
    apply in_map_iff in Hin as (h0 & <- & Hin).
    assert (H0 : nonDegenerate h0).
    { apply Hl. apply In_allFlattened. exists b. split; auto.
      now apply (get_In_values _ (verseId highlight)). }
    now destruct (_ && _).
  - unfold recolorInHighlightedWords. rewrite Forall_forall in *.
    intros h Hin. apply in_map_iff in Hin as (h0 & <- & Hin).
    specialize (Hh h0 Hin). now destruct (_ && _ && _).
Qed.

Lemma deleteHighlight_ranged (autoId : nat -> string) (net : Network)
    (deleted : bool) (c : Closure) (highlight : HighlightedWord) (w : World) :
  wellRanged (seen c) -> rangedWorld w ->
  rangedWorld (fst (deleteHighlight autoId net deleted c highlight w)).
Proof.
  intros Hc [Hs Hst]. unfold deleteHighlight.
  destruct (user (props c)) as [u|]; [|split; assumption].
  pose proof (afterRemove_ranged highlight (state w) Hs) as Hr.
  destruct (persistedId highlight) as [i|]; [destruct deleted|]; cbn [fst].
  - apply saveHighlights_ranged; auto. split; [exact Hr|].
    cbn. unfold deleteDocument. now apply Forall_keep.
  - split; [exact Hr|exact Hst].
  - apply saveHighlights_ranged; auto. split; [exact Hr|exact Hst].
Qed.

Lemma updateHighlightColor_ranged (updated : bool) (c : Closure)
    (highlight : HighlightedWord) (newColor : string) (w : World) :
  rangedWorld w ->
  rangedWorld (fst (updateHighlightColor updated c highlight newColor w)).
Proof.
  intros [Hs Hst]. unfold updateHighlightColor.
  destruct (user (props c)) as [u|]; [|split; assumption].
  pose proof (afterRecolor_ranged highlight newColor (state w) Hs) as Hr.
  destruct (persistedId highlight) as [i|]; [destruct updated|]; cbn [fst];
    (split; [exact Hr|]); try exact Hst.
  cbn. unfold updateDocumentColor. rewrite Forall_forall in *.
  intros d Hin. apply in_map_iff in Hin as (d0 & <- & Hin).
  specialize (Hst d0 Hin). now destruct (String.eqb (fst d0) i).
Qed.

Lemma withTab_ranged (socket : string) (s : State) (sys : System) :
  properRanges sys -> wellRanged s -> properRanges (withTab socket s sys).
Proof.
  intros (Ht & Hd & Hw) Hs. split; [|split]; cbn; auto.
  now apply Forall_set.
Qed.

Lemma withWorld_ranged (socket : string) (w : World) (sys : System) :
  properRanges sys -> rangedWorld w -> properRanges (withWorld socket w sys).
Proof.
  intros (Ht & Hd & Hw) [Hs Hst]. split; [|split]; cbn; auto.
  now apply Forall_set.
Qed.

Lemma worldOfTab_ranged (sys : System) (socket : string) (s : State) :
  properRanges sys -> JsObject.get (tabs sys) socket = Some s ->
  wellRanged s /\ rangedWorld (worldOfTab sys s).
Proof.
  intros (Ht & Hd & Hw) Hg.
  pose proof (Forall_get wellRanged _ _ _ Ht Hg) as Hs.
  repeat split; try exact Hd; apply Hs.
Qed.

(** One event keeps the ranges proper. *)
Lemma step_ranged (autoId : nat -> string) (sys : System) (e : Event) :
  properRanges sys -> properRanges (step autoId sys e).
Proof.
  intros H. pose proof H as (Ht & Hd & Hw).
  destruct e as [socket|socket|socket vId a|socket p vId a|socket p|n
                |socket p ok|socket p net|socket p net|socket
                |socket p h deleted net|socket p h newColor updated];
    cbn [step]; unfold onTab;
    try match goal with
        | |- context [JsObject.get (tabs sys) socket] =>
            destruct (JsObject.get (tabs sys) socket) as [s|] eqn:Hg;
            [destruct (worldOfTab_ranged sys socket s H Hg) as [Hs Hws]
            |exact H]
        end.
  - split; [|split]; cbn; auto. apply Forall_set; auto.
    intros k'. split; constructor.
  - split; [|split]; cbn; auto. now apply Forall_keep.
  - apply withTab_ranged; auto; now apply (wellRanged_same s).
  - apply withTab_ranged; auto; unfold handleMouseMove;
      destruct (_ && _); auto; now apply (wellRanged_same s).
  - split; [|split]; cbn; auto.
    + apply Forall_set; auto. intros k'.
      now apply (proj1 (handlers_keep_ranges s Hs)).
    + apply Forall_app. split; auto.
      apply Forall_flat_map.
      pose proof (handleMouseUp_emits_ranged (render p s) s) as He.
      rewrite Forall_forall in *. intros h Hh. specialize (He h Hh).
      apply Forall_forall. intros m Hm. unfold Relay.onHighlight in Hm.
      apply in_map_iff in Hm as (other & <- & _). exact He.
  - destruct (nth_error (wire sys) n) as [[socket data]|] eqn:En; [|exact H].
    assert (Hdata : nonDegenerate data).
    { apply nth_error_In in En. rewrite Forall_forall in Hw.
      exact (Hw _ En). }
    split; [|split]; cbn; auto; [|now apply Forall_without].
    destruct (JsObject.get (tabs sys) socket) as [s|] eqn:Hg; auto.
    apply Forall_set; auto. intros k'.
    destruct (worldOfTab_ranged sys socket s H Hg) as [Hs _].
    now apply (proj1 (proj2 (handlers_keep_ranges s Hs))).
  - apply withWorld_ranged; auto. now apply loadHighlights_ranged.
  - apply withWorld_ranged; auto. now apply saveHighlights_ranged.
  - apply withWorld_ranged; auto. now apply Navbar_saveHighlights_ranged.
  - apply withTab_ranged; auto.
    now apply (proj2 (proj2 (handlers_keep_ranges s Hs))).
  - apply withWorld_ranged; auto. now apply deleteHighlight_ranged.
  - apply withWorld_ranged; auto. now apply updateHighlightColor_ranged.
Qed.

Lemma steps_ranged (autoId : nat -> string) (events : list Event) :
  forall sys, properRanges sys ->
  properRanges (fold_left (step autoId) events sys).
Proof.
  induction events as [|e events IH]; intros sys H; cbn; auto.
  apply IH. now apply step_ranged.
Qed.

(** C7: every highlight that is ever in the highlights map of a tab
    has [startIndex < endIndex].  Starting with no tab open and nothing
    saved, whatever happens next, in whatever order (tabs open and
    close; the mouse is pressed, moved and released under any props;
    what a tab emits is sent on by the relay and arrives at the other
    tabs; highlights are loaded, saved from the reader or from the
    navigation bar, regrouped, deleted or recoloured), every highlight
    in the map and in [highlightedWords] of every tab, every document
    of the collection and every payload under way has a proper range.
    The receipt of a highlight from the relay is one of these events:
    what arrives was emitted by [handleMouseUp], which creates no empty
    range. *)
Theorem C7_ranges_are_never_degenerate (autoId : nat -> string)
    (events : list Event) :
  let sys := fold_left (step autoId) events nothingYet in
  properRanges sys /\
  (forall socket s h,
     JsObject.get (tabs sys) socket = Some s ->
     In h (allFlattened (localHighlights s)) ->
     startIndex h < endIndex h) /\
  (forall socket data, In (socket, data) (wire sys) ->
     startIndex data < endIndex data).
Proof.
  intros sys.
  assert (H : properRanges sys).
  { apply steps_ranged. repeat split; constructor. }
  split; [exact H|]. destruct H as (Ht & _ & Hw). split.
  - intros socket s h Hg Hin.
    destruct (Forall_get wellRanged _ _ _ Ht Hg) as [Hl _].
    rewrite Forall_forall in Hl. now apply Hl.
  - intros socket data Hin. rewrite Forall_forall in Hw.
    exact (Hw _ Hin).
Qed.

(** A highlight drawn in one tab crosses the relay and is in the map of
    the other. *)
Example a_highlight_reaches_the_other_tab :
  let sys :=
    fold_left (step serialId)
      [Opens "a"; Opens "b"; Presses "a" "Genesis_1_1" 0;
       Moves "a" (reader "U1") "Genesis_1_1" 5; Releases "a" (reader "U1");
       Arrives 0] nothingYet in
  option_map (fun s => allFlattened (localHighlights s))
    (JsObject.get (tabs sys) "b") = Some [highlightOf "U1" 0 5] /\
  wire sys = [].
Proof. split; reflexivity. Qed.

(** The invariant rests on what the tabs emit: the receiving handler
    itself looks at no range, and stores a payload with an empty range
    as it is given one. *)
Remark onHighlight_checks_no_range :
  let data := highlightOf "U2" 5 5 in
  In data
    (allFlattened (localHighlights (onHighlight data (stateOf false [])))).
Proof. left. reflexivity. Qed.

(** * Further properties *)

(** ** Grouping *)

(** X1: grouping by verse neither loses nor repeats a highlight: the
    buckets taken together hold the highlights that were grouped, every
    verse has at most one bucket, and the bucket of a verse holds the
    highlights of that verse in the order they came in. *)
Theorem X1_grouping_keeps_every_highlight (hs : list HighlightedWord) :
  Permutation (allFlattened (groupByVerse hs)) hs /\
  NoDup (map fst (groupByVerse hs)) /\
  (forall v, bucketOf (groupByVerse hs) v
             = filter (fun h => String.eqb (verseId h) v) hs) /\
  (forall v, JsObject.get (groupByVerse hs) v = None <->
             forall h, In h hs -> verseId h <> v).
Proof.
  split; [apply allFlattened_groupByVerse|].
  unfold groupByVerse.
  assert (N : forall g, NoDup (map fst g) ->
                        NoDup (map fst (fold_left groupInto hs g))).
  { induction hs as [|h hs IH]; intros g Hg; cbn [fold_left]; auto.
    apply IH. unfold groupInto.
    destruct (JsObject.get g (verseId h));
      [apply keys_set_NoDup|do 2 apply keys_set_NoDup]; exact Hg. }
  assert (K : forall g v, JsObject.get (fold_left groupInto hs g) v = None <->
                          JsObject.get g v = None /\
                          forall h, In h hs -> verseId h <> v).
  { clear N. induction hs as [|h hs IH]; intros g v; cbn [fold_left].
    - split; [intros H; split; auto; intros h []|now intros [H _]].
    - rewrite IH. unfold groupInto. cbn [In].
      destruct (String.eqb_spec (verseId h) v) as [<-|Hne].
      + rewrite get_set_same. split; [intros [H _]; discriminate|].
        intros [_ H]. exfalso. now apply (H h); auto.
      + rewrite get_set_other by exact Hne.
        assert (E : (forall h0, h = h0 \/ In h0 hs -> verseId h0 <> v) <->
                    (forall h0, In h0 hs -> verseId h0 <> v)).
        { split; intros H h0; auto. intros [<-|Hin]; auto. }
        rewrite E.
        destruct (JsObject.get g (verseId h)); [reflexivity|].
        now rewrite get_set_other. }
  split; [apply N; constructor|].
  split; [intros v; apply (bucketOf_groupByVerse hs v)|].
  intros v. rewrite K. cbn. tauto.
Qed.

(** ** The two stores kept in step *)

Lemma filter_twice {A : Type} (f g : A -> bool) (l : list A) :
  filter f (filter g l) = filter (fun x => g x && f x) l.
Proof.
  induction l as [|x l IH]; cbn; auto.
  destruct (g x); cbn; [destruct (f x)|]; now rewrite IH.
Qed.

Lemma existsb_filter {A : Type} (f g : A -> bool) (l : list A) :
  existsb f (filter g l) = existsb (fun x => g x && f x) l.
Proof.
  induction l as [|x l IH]; cbn; auto.
  destruct (g x); cbn; now rewrite IH.
Qed.

Lemma existsb_same {A : Type} (f g : A -> bool) (l : list A) :
  (forall x, f x = g x) -> existsb f l = existsb g l.
Proof.
  intros H. induction l as [|x l IH]; cbn; auto. now rewrite H, IH.
Qed.

Lemma filter_map_same {A : Type} (p : A -> bool) (g : A -> A) (l : list A) :
  (forall x, p (g x) = p x) -> filter p (map g l) = map g (filter p l).
Proof.
  intros H. induction l as [|x l IH]; cbn; auto.
  rewrite H. destruct (p x); cbn; now rewrite IH.
Qed.

Lemma bucketOf_set (l : LocalHighlights) (k v : string)
    (b : list HighlightedWord) :
  bucketOf (JsObject.set l k b) v
  = if String.eqb k v then b else bucketOf l v.
Proof.
  unfold bucketOf. destruct (String.eqb_spec k v) as [<-|Hne].
  - now rewrite get_set_same.
  - now rewrite get_set_other.
Qed.

Lemma bucketOf_addToLocalHighlights (vId : string) (start end_ : Z)
    (n : HighlightedWord) (prev : LocalHighlights) (v : string) :
  bucketOf (addToLocalHighlights vId start end_ n prev) v
  = if String.eqb vId v
    then filter (keptOnCreate start end_) (bucketOf prev vId) ++ [n]
    else bucketOf prev v.
Proof.
  destruct (String.eqb_spec vId v) as [<-|Hne]; unfold bucketOf at 1.
  - now rewrite addToLocalHighlights_bucket.
  - now rewrite addToLocalHighlights_other.
Qed.

Lemma bucketOf_receive (data : HighlightedWord) (prev : LocalHighlights)
    (v : string) :
  bucketOf (receiveIntoLocalHighlights data prev) v
  = if String.eqb (verseId data) v
    then if existsb (sameRangeAndUser data) (bucketOf prev (verseId data))
         then bucketOf prev (verseId data)
         else bucketOf prev (verseId data) ++ [data]
    else bucketOf prev v.
Proof.
  destruct (String.eqb_spec (verseId data) v) as [<-|Hne].
  - apply receive_bucket.
  - unfold bucketOf at 1. now rewrite receive_other.
Qed.

Lemma bucketOf_remove (highlight : HighlightedWord) (prev : LocalHighlights)
    (v : string) :
  bucketOf (removeFromLocalHighlights highlight prev) v
  = if String.eqb (verseId highlight) v
    then filter (fun h => negb (startIndex h =? startIndex highlight)
                          || negb (endIndex h =? endIndex highlight))
           (bucketOf prev v)
    else bucketOf prev v.
Proof.
  unfold removeFromLocalHighlights.
  destruct (JsObject.get prev (verseId highlight)) as [b|] eqn:E.
  - rewrite bucketOf_set.
    destruct (String.eqb_spec (verseId highlight) v) as [<-|Hne]; auto.
    unfold bucketOf. now rewrite E.
  - destruct (String.eqb_spec (verseId highlight) v) as [<-|Hne]; auto.
    unfold bucketOf. now rewrite E.
Qed.

Lemma bucketOf_recolor (highlight : HighlightedWord) (newColor : string)
    (prev : LocalHighlights) (v : string) :
  bucketOf (recolorInLocalHighlights highlight newColor prev) v
  = if String.eqb (verseId highlight) v
    then map (fun h => if (startIndex h =? startIndex highlight)
                          && (endIndex h =? endIndex highlight)
                       then withColor newColor h else h) (bucketOf prev v)
    else bucketOf prev v.
Proof.
  unfold recolorInLocalHighlights.
  destruct (JsObject.get prev (verseId highlight)) as [b|] eqn:E.
  - rewrite bucketOf_set.
    destruct (String.eqb_spec (verseId highlight) v) as [<-|Hne]; auto.
    unfold bucketOf. now rewrite E.
  - destruct (String.eqb_spec (verseId highlight) v) as [<-|Hne]; auto.
    unfold bucketOf. now rewrite E.
Qed.

Lemma afterCreate_synced (n : HighlightedWord) (s : State) :
  synced s -> synced (afterCreate (verseId n) n s).
Proof.
  intros Hs v. cbn. rewrite bucketOf_addToLocalHighlights.
  unfold addToHighlightedWords. rewrite filter_app, filter_twice. cbn.
  rewrite (Hs (verseId n)), filter_twice.
  destruct (String.eqb_spec (verseId n) v) as [<-|Hne].
  - f_equal. apply filter_ext. intros h.
    destruct (String.eqb (verseId h) (verseId n)); cbn; auto.
    now rewrite andb_true_r.
  - rewrite app_nil_r, (Hs v). apply filter_ext. intros h.
    destruct (String.eqb_spec (verseId h) v) as [->|Hv].
    + destruct (String.eqb_spec v (verseId n)); [congruence|reflexivity].
    + now rewrite andb_false_r.
Qed.

Lemma onHighlight_synced (data : HighlightedWord) (s : State) :
  synced s -> synced (onHighlight data s).
Proof.
  intros Hs v. cbn. rewrite bucketOf_receive.
  unfold receiveIntoHighlightedWords. fold (sameHighlight data).
  rewrite (Hs (verseId data)), existsb_filter.
  assert (E : existsb (fun x => String.eqb (verseId x) (verseId data)
                               && sameRangeAndUser data x)
                (highlightedWords s)
              = existsb (sameHighlight data) (highlightedWords s)).
  { apply existsb_same. intros h. unfold sameHighlight, sameRangeAndUser.
    now rewrite !andb_assoc. }
  rewrite E.
  destruct (String.eqb_spec (verseId data) v) as [<-|Hne].
  - destruct (existsb (sameHighlight data) (highlightedWords s)); cbn; auto.
    rewrite filter_app. cbn. now rewrite String.eqb_refl.
  - rewrite (Hs v).
    destruct (existsb (sameHighlight data) (highlightedWords s)); cbn; auto.
    rewrite filter_app. cbn.
    destruct (String.eqb_spec (verseId data) v); [contradiction|].
    now rewrite app_nil_r.
Qed.

Lemma afterRemove_synced (highlight : HighlightedWord) (s : State) :
  synced s -> synced (afterRemove highlight s).
Proof.
  intros Hs v. cbn. rewrite bucketOf_remove, (Hs v).
  unfold removeFromHighlightedWords. rewrite !filter_twice.
  destruct (String.eqb_spec (verseId highlight) v) as [<-|Hne];
    apply filter_ext; intros h.
  - destruct (String.eqb (verseId h) (verseId highlight)); cbn; auto.
    now rewrite andb_true_r.
  - destruct (String.eqb_spec (verseId h) v) as [->|Hv].
    + destruct (String.eqb_spec v (verseId highlight));
        [congruence|reflexivity].
    + now rewrite andb_false_r.
Qed.

Lemma afterRecolor_synced (highlight : HighlightedWord) (newColor : string)
    (s : State) :
  synced s -> synced (afterRecolor highlight newColor s).
Proof.
  intros Hs v. cbn. rewrite bucketOf_recolor, (Hs v).
  unfold recolorInHighlightedWords.
  rewrite filter_map_same
    by (intros x; now destruct (_ && _ && _)).
  destruct (String.eqb_spec (verseId highlight) v) as [<-|Hne].
  - apply map_ext_in. intros h Hh. apply filter_In in Hh as [_ Hh].
    now rewrite Hh.
  - rewrite <- (map_id (filter _ _)) at 1.
    apply map_ext_in. intros h Hh. apply filter_In in Hh as [_ Hh].
    apply String.eqb_eq in Hh. subst v.
    destruct (String.eqb_spec (verseId h) (verseId highlight));
      [congruence|reflexivity].
Qed.

(** X2: when every bucket of the highlights map holds exactly the
    highlights of its verse that [highlightedWords] holds, in the same
    order, this is still so after a release of the mouse, after the
    receipt of a highlight, after the setters of [deleteHighlight] and
    of [updateHighlightColor], and after the regrouping effect, which
    then changes no bucket. *)
Theorem X2_handlers_keep_stores_in_step (s : State) :
  synced s ->
  (forall c, synced (fst (handleMouseUp c s))) /\
  (forall data, synced (onHighlight data s)) /\
  (forall highlight, synced (afterRemove highlight s)) /\
  (forall highlight newColor, synced (afterRecolor highlight newColor s)) /\
  synced (regroupEffect s) /\
  (forall v, bucketOf (localHighlights (regroupEffect s)) v
             = bucketOf (localHighlights s) v).
Proof.
  intros Hs.
  assert (Hre : forall v, bucketOf (localHighlights (regroupEffect s)) v
                          = bucketOf (localHighlights s) v).
  { intros v. unfold regroupEffect.
    destruct (highlightedWords s) as [|h0 l] eqn:E; auto.
    cbn [localHighlights setLocalHighlights].
    now rewrite bucketOf_groupByVerse, <- E, (Hs v). }
  split; [|split; [|split; [|split; [|split]]]]; auto.
  - intros c.
    destruct (handleMouseUp_cases c s) as [E|(a & b & v & _ & _ & _ & E)];
      rewrite E; cbn [fst].
    + exact Hs.
    + apply (afterCreate_synced (created (props c) v a b) s Hs).
  - intros data. now apply onHighlight_synced.
  - intros highlight. now apply afterRemove_synced.
  - intros highlight newColor. now apply afterRecolor_synced.
  - intros v. rewrite Hre, (Hs v). f_equal. unfold regroupEffect.
    now destruct (highlightedWords s) eqn:E.
Qed.

(** A state read back from storage is in step; so it is after a gesture
    and a receipt. *)
Lemma X2_handlers_keep_stores_in_step_witness :
  synced (onHighlight (highlightOf "U2" 5 10)
            (fst (drag (reader "U1") "Genesis_1_1" 0 5
                    (stateOf false [highlightOf "U1" 2 8])))).
Proof.
  assert (H0 : synced (stateOf false [highlightOf "U1" 2 8])).
  { intros v. cbn [stateOf localHighlights highlightedWords].
    apply bucketOf_groupByVerse. }
  rewrite drag_unfold.
  destruct (X2_handlers_keep_stores_in_step
              (selecting "Genesis_1_1" 0 5
                 (stateOf false [highlightOf "U1" 2 8]))) as [Hup _].
  - exact H0.
  - destruct (X2_handlers_keep_stores_in_step _
                (Hup (render (reader "U1")
                        (selecting "Genesis_1_1" 0 5
                           (stateOf false [highlightOf "U1" 2 8])))))
      as (_ & Hrecv & _).
    apply Hrecv.
Defined.

(** ** Loading, and saving then loading *)

Lemma set_fresh {V : Type} (o : JsObject.t V) (k : string) (v : V) :
  ~ In k (map fst o) -> JsObject.set o k v = o ++ [(k, v)].
Proof.
  induction o as [|[k0 v0] o IH]; cbn; auto.
  intros H. destruct (String.eqb_spec k0 k) as [->|Hne].
  - exfalso. apply H. now left.
  - f_equal. apply IH. intros Hin. apply H. now right.
Qed.

Lemma applyBatch_sets_fresh (docs : list (string * HighlightData)) :
  forall coll : Collection,
  NoDup (map fst docs) ->
  (forall i, In i (map fst docs) -> ~ In i (map fst coll)) ->
  applyBatch coll (setsOf docs) = coll ++ docs.
Proof.
  unfold applyBatch.
  induction docs as [|[i d] docs IH]; intros coll Hnd Hfresh; cbn.
  - now rewrite app_nil_r.
  - inversion Hnd as [|? ? Hi Hd]; subst.
    rewrite set_fresh by (apply Hfresh; now left).
    rewrite IH; auto.
    + now rewrite <- app_assoc.
    + intros j Hj. rewrite map_app, in_app_iff. cbn.
      intros [Hc|[<-|[]]]; [|contradiction].
      apply (Hfresh j); [now right|exact Hc].
Qed.

Lemma newDocs_ids (autoId : nat -> string) (u : User)
    (hs : list HighlightedWord) :
  forall n,
  map fst (newDocs autoId u n hs) = map autoId (seq n (List.length hs)).
Proof.
  induction hs as [|h hs IH]; intros n; cbn; auto. now rewrite IH.
Qed.

Lemma NoDup_map_injective {A B : Type} (f : A -> B) (l : list A) :
  (forall x y, f x = f y -> x = y) -> NoDup l -> NoDup (map f l).
Proof.
  intros Hinj. induction 1 as [|x l Hx Hl IH]; cbn; constructor; auto.
  rewrite in_map_iff. intros (y & Hy & Hin). apply Hinj in Hy. now subst.
Qed.

Lemma keys_unique {V : Type} (o : JsObject.t V) (k : string) (v v' : V) :
  NoDup (map fst o) -> In (k, v) o -> In (k, v') o -> v = v'.
Proof.
  induction o as [|[k0 v0] o IH]; cbn; [intros _ []|].
  intros Hnd. inversion Hnd as [|? ? Hk0 Ho]; subst.
  intros [E1|H1] [E2|H2]; try congruence.
  - exfalso. apply Hk0. injection E1 as <- <-.
    now apply (in_map fst) in H2.
  - exfalso. apply Hk0. injection E2 as <- <-.
    now apply (in_map fst) in H1.
  - now apply IH.
Qed.

(** In a collection with one document per id, deleting the documents
    of a user by id leaves the documents of the others. *)
Lemma applyBatch_deletes_of_user (u : string) (coll : Collection) :
  NoDup (map fst coll) ->
  applyBatch coll (deletesOf (whereUserId u coll))
  = filter (fun d => negb (String.eqb (d_userId (snd d)) u)) coll.
Proof.
  intros Hnd. rewrite applyBatch_deletes. apply filter_ext_in.
  intros [i d] Hin. f_equal. cbn [fst snd].
  destruct (String.eqb (d_userId d) u) eqn:E.
  - apply existsb_exists. exists i. split; [|apply String.eqb_refl].
    apply (in_map fst _ (i, d)). apply filter_In. auto.
  - apply not_true_is_false. intros Ht.
    apply existsb_exists in Ht as (j & Hj & Hij).
    apply String.eqb_eq in Hij. subst j.
    apply in_map_iff in Hj as ([i' d'] & Hi & Hd). cbn in Hi. subst i'.
    apply filter_In in Hd as [Hd Hu]. cbn in Hu.
    rewrite (keys_unique coll i d d' Hnd Hin Hd) in E. congruence.
Qed.

(** The collection after a save that went through, when the generated
    ids are new. *)
Lemma saved_store (autoId : nat -> string) (u : User) (w : World)
    (hs : list HighlightedWord) :
  NoDup (map fst (store w)) ->
  (forall n m, autoId n = autoId m -> n = m) ->
  (forall n, (generated w <= n)%nat -> ~ In (autoId n) (map fst (store w))) ->
  applyBatch (store w) (savedBatch autoId u w hs)
  = filter (fun d => negb (String.eqb (d_userId (snd d)) (uid u))) (store w)
    ++ newDocs autoId u (generated w) hs.
Proof.
  intros Hnd Hinj Hfresh. unfold savedBatch, applyBatch.
  rewrite fold_left_app. fold (applyBatch (store w)
    (deletesOf (whereUserId (uid u) (store w)))).
  rewrite applyBatch_deletes_of_user by exact Hnd.
  apply applyBatch_sets_fresh.
  - rewrite newDocs_ids. apply NoDup_map_injective; auto. apply seq_NoDup.
  - intros i Hi Hc. rewrite newDocs_ids in Hi.
    apply in_map_iff in Hi as (n & <- & Hn). apply in_seq in Hn.
    apply (Hfresh n); [lia|].
    apply in_map_iff in Hc as (d & Hd & Hin).
    apply filter_In in Hin as [Hin _]. rewrite <- Hd. now apply in_map.
Qed.

Lemma saved_store_of_user (autoId : nat -> string) (u : User) (w : World)
    (hs : list HighlightedWord) :
  NoDup (map fst (store w)) ->
  (forall n m, autoId n = autoId m -> n = m) ->
  (forall n, (generated w <= n)%nat -> ~ In (autoId n) (map fst (store w))) ->
  whereUserId (uid u) (applyBatch (store w) (savedBatch autoId u w hs))
  = newDocs autoId u (generated w) hs.
Proof.
  intros Hnd Hinj Hfresh. rewrite saved_store by assumption.
  destruct (newDocs_fields autoId u hs (generated w)) as [_ Hown].
  unfold whereUserId. rewrite filter_app, filter_twice.
  assert (Hnone : filter (fun x : string * HighlightData =>
                      negb (String.eqb (d_userId (snd x)) (uid u))
                      && String.eqb (d_userId (snd x)) (uid u)) (store w)
                  = []).
  { match goal with |- filter ?f ?l = [] =>
      destruct (filter f l) as [|d l'] eqn:E end; auto.
    assert (Hd : In d (d :: l')) by now left. rewrite <- E in Hd.
    apply filter_In in Hd as [_ Hd]. now destruct (String.eqb _ _). }
  rewrite Hnone. cbn. apply forallb_filter_id. apply forallb_forall.
  rewrite Forall_forall in Hown. intros d Hd. rewrite (Hown d Hd).
  apply String.eqb_refl.
Qed.

Lemma updatedHighlights_savedHighlight
    (docs : list (string * HighlightData)) :
  updatedHighlights docs = map savedHighlight docs.
Proof. reflexivity. Qed.

(** X3: [loadHighlights], for a signed-in user.  When the store
    answers, [highlightedWords] is made of the documents of the user,
    one highlight per document, in their order, each with the id of its
    document and the user as owner; the highlights map holds the same
    highlights grouped by verse; whatever the two held before is gone,
    and [needsSync] is false.  When the read fails, the state is as it
    was, [needsSync] included, and the error is printed.  The
    collection is never changed. *)
Theorem X3_load_replaces_both_stores (c : Closure) (u : User) (w : World) :
  user (props c) = Some u ->
  let loaded := loadHighlights true c w in
  let failed := loadHighlights false c w in
  highlightedWords (state loaded)
  = map savedHighlight (whereUserId (uid u) (store w)) /\
  Forall (fun h => userId h = uid u /\
                   exists i d, id h = Some i /\ In (i, d) (store w) /\
                               d_userId d = uid u)
    (highlightedWords (state loaded)) /\
  Permutation (allFlattened (localHighlights (state loaded)))
    (highlightedWords (state loaded)) /\
  synced (state loaded) /\
  needsSync (state loaded) = false /\
  store loaded = store w /\
  requests loaded = requests w ++ [OpGetDocs (uid u)] /\
  state failed = state w /\
  store failed = store w /\
  console failed = console w ++ ["Error loading highlights:"%string].
Proof.
  intros Hu loaded failed. unfold loaded, failed, loadHighlights.
  rewrite Hu. cbn.
  split; [reflexivity|]. split.
  - apply Forall_forall. intros h Hh.
    apply in_map_iff in Hh as ([i d] & <- & Hd).
    apply filter_In in Hd as [Hd Hu']. cbn in Hu'.
    apply String.eqb_eq in Hu'. split; [exact Hu'|].
    exists i, d. auto.
  - split; [apply (allFlattened_groupByVerse
                     (map savedHighlight (whereUserId (uid u) (store w))))|].
    split; [|repeat split].
    intros v. cbn. apply bucketOf_groupByVerse.
Qed.

(** A collection with one document of U1 and one of U2, read by U1 over
    an unsaved highlight. *)
Lemma X3_load_replaces_both_stores_witness :
  let w := worldOf (stateOf true [highlightOf "U1" 0 5])
             [persisted "a" "U1" 2 8; persisted "b" "U2" 5 10] in
  highlightedWords (state (loadHighlights true (render (reader "U1") (state w)) w))
  = [savedHighlight (persisted "a" "U1" 2 8)].
Proof.
  intros w.
  exact (proj1 (X3_load_replaces_both_stores
                  (render (reader "U1") (state w)) {| uid := "U1" |} w
                  eq_refl)).
Defined.

(** X4: full replacement.  When a save of the reader goes through on a
    collection with one document per id, and the ids generated are
    different from each other and from the ids in the collection, the
    collection afterwards is the documents of the other users, untouched
    and in their order, followed by one new document per highlight of
    the map: the documents of the user are exactly the new ones, and
    there is still one document per id. *)
Theorem X4_save_replaces_the_documents_of_the_user
    (autoId : nat -> string) (c : Closure) (u : User) (w : World) :
  user (props c) = Some u -> isSyncing (seen c) = false ->
  allFlattened (localHighlights (seen c)) <> [] ->
  NoDup (map fst (store w)) ->
  (forall n m, autoId n = autoId m -> n = m) ->
  (forall n, (generated w <= n)%nat -> ~ In (autoId n) (map fst (store w))) ->
  let hs := allFlattened (localHighlights (seen c)) in
  let w' := fst (run autoId online (saveHighlights c) w) in
  let others := filter (fun d => negb (String.eqb (d_userId (snd d)) (uid u))) in
  store w' = others (store w) ++ newDocs autoId u (generated w) hs /\
  whereUserId (uid u) (store w') = newDocs autoId u (generated w) hs /\
  others (store w') = others (store w) /\
  List.length (whereUserId (uid u) (store w')) = List.length hs /\
  NoDup (map fst (store w')).
Proof.
  intros Hu Hsync Hne Hnd Hinj Hfresh hs w' others.
  assert (Hst : store w' = others (store w)
                           ++ newDocs autoId u (generated w) hs).
  { unfold w'. rewrite (run_saveHighlights autoId online c u w Hu Hsync Hne).
    cbn. now apply saved_store. }
  destruct (newDocs_fields autoId u hs (generated w)) as [Hf Hown].
  assert (Hw : whereUserId (uid u) (store w')
               = newDocs autoId u (generated w) hs).
  { unfold w'. rewrite (run_saveHighlights autoId online c u w Hu Hsync Hne).
    cbn. now apply saved_store_of_user. }
  split; [exact Hst|]. split; [exact Hw|]. split; [|split].
  - rewrite Hst. unfold others at 1. rewrite filter_app.
    fold (others (store w)).
    assert (E1 : filter (fun d => negb (String.eqb (d_userId (snd d)) (uid u)))
                   (others (store w)) = others (store w)).
    { unfold others. rewrite filter_twice. apply filter_ext. intros d.
      now destruct (negb _). }
    assert (E2 : filter (fun d => negb (String.eqb (d_userId (snd d)) (uid u)))
                   (newDocs autoId u (generated w) hs) = []).
    { match goal with |- filter ?f ?l = [] =>
        destruct (filter f l) as [|d l'] eqn:E end; auto.
      assert (Hd : In d (d :: l')) by now left. rewrite <- E in Hd.
      apply filter_In in Hd as [Hd Hn]. rewrite Forall_forall in Hown.
      rewrite (Hown d Hd), String.eqb_refl in Hn. discriminate. }
    now rewrite E1, E2, app_nil_r.
  - rewrite Hw. clear. generalize (generated w).
    induction hs as [|h l IH]; intros n; cbn; auto.
  - rewrite Hst, map_app. apply NoDup_app.
    + unfold others. clear -Hnd. induction (store w) as [|d l IH]; cbn;
        [constructor|].
      inversion Hnd as [|? ? Hd Hl]; subst.
      destruct (negb _); cbn; auto. constructor; auto.
      intros Hin. apply Hd. apply in_map_iff in Hin as (x & Hx & Hin).
      apply filter_In in Hin as [Hin _]. rewrite <- Hx. now apply in_map.
    + rewrite newDocs_ids. apply NoDup_map_injective; auto. apply seq_NoDup.
    + intros i Hi Hc. rewrite newDocs_ids in Hc.
      apply in_map_iff in Hc as (n & <- & Hn). apply in_seq in Hn.
      apply (Hfresh n); [lia|].
      apply in_map_iff in Hi as (d & Hd & Hin).
      apply filter_In in Hin as [Hin _]. rewrite <- Hd. now apply in_map.
Qed.

Lemma serialId_injective (n m : nat) : serialId n = serialId m -> n = m.
Proof.
  unfold serialId. intros [= H]. revert m H.
  induction n as [|n IH]; intros [|m]; cbn; try discriminate; auto.
  intros [= H]. f_equal. now apply IH.
Qed.

(** U1 saves one highlight into a collection that holds a document of
    U1 and one of U2. *)
Lemma X4_save_replaces_the_documents_of_the_user_witness :
  let s := stateOf true [highlightOf "U1" 0 5] in
  let w := worldOf s [persisted "a" "U1" 2 8; persisted "b" "U2" 5 10] in
  store (fst (run serialId online (saveHighlights (render (reader "U1") s)) w))
  = [persisted "b" "U2" 5 10; persisted "d" "U1" 0 5].
Proof.
  intros s w.
  refine (proj1 (X4_save_replaces_the_documents_of_the_user serialId
                   (render (reader "U1") s) {| uid := "U1" |} w
                   eq_refl eq_refl _ _ serialId_injective _)).
  - discriminate.
  - repeat constructor; cbn; intuition discriminate.
  - intros n _ [H|[H|[]]]; discriminate H.
Defined.

Lemma filter_Permutation {A : Type} (f : A -> bool) (l l' : list A) :
  Permutation l l' -> Permutation (filter f l) (filter f l').
Proof.
  induction 1 as [|x l l' H IH|x y l|l l' l'' H1 IH1 H2 IH2]; cbn.
  - constructor.
  - destruct (f x); auto.
  - destruct (f x), (f y); auto. apply perm_swap.
  - now transitivity (filter f l').
Qed.

(** [loadHighlights] is [loadHighlightsFrom] on the documents as the
    collection lists them. *)
Lemma loadHighlights_as_answered (ok : bool) (c : Closure) (w : World) :
  loadHighlights ok c w
  = loadHighlightsFrom
      (if ok then Some (whereUserId (uidOrEmpty (user (props c))) (store w))
       else None) c w.
Proof.
  unfold loadHighlights, loadHighlightsFrom.
  destruct (user (props c)); [|reflexivity]. now destruct ok.
Qed.

(** X5: saving, then loading.  After a save of the reader that went
    through (ids as in X4), let the same user load, and let the store
    answer the query with the documents of the user in any order.
    Then [highlightedWords] holds the highlights the save left there,
    ids included, each once, though not always in the order of the
    save; these are one highlight per highlight of the saved map, with
    the same verse, range and colour.  Every bucket holds what the
    regrouping effect puts there after the save, and holds it in the
    order of [highlightedWords]; [needsSync] stays false and the
    collection is not touched. *)
Theorem X5_save_then_load_round_trip (autoId : nat -> string)
    (c c' : Closure) (u : User) (w : World) (snapshot : Collection) :
  user (props c) = Some u -> isSyncing (seen c) = false ->
  allFlattened (localHighlights (seen c)) <> [] ->
  NoDup (map fst (store w)) ->
  (forall n m, autoId n = autoId m -> n = m) ->
  (forall n, (generated w <= n)%nat -> ~ In (autoId n) (map fst (store w))) ->
  user (props c') = Some u ->
  let saved := fst (run autoId online (saveHighlights c) w) in
  answers (uid u) (store saved) snapshot ->
  let loaded := loadHighlightsFrom (Some snapshot) c' saved in
  Permutation (highlightedWords (state loaded))
    (highlightedWords (state saved)) /\
  Permutation (map content (highlightedWords (state loaded)))
    (map content (allFlattened (localHighlights (seen c)))) /\
  (forall v,
     Permutation (bucketOf (localHighlights (state loaded)) v)
       (bucketOf (localHighlights (regroupEffect (state saved))) v)) /\
  synced (state loaded) /\
  needsSync (state loaded) = false /\
  store loaded = store saved.
Proof.
  intros Hu Hsync Hne Hnd Hinj Hfresh Hu' saved Hans loaded.
  set (hs := allFlattened (localHighlights (seen c))) in *.
  assert (Hsaved : highlightedWords (state saved)
                   = map savedHighlight (newDocs autoId u (generated w) hs) /\
                   whereUserId (uid u) (store saved)
                   = newDocs autoId u (generated w) hs).
  { unfold saved. rewrite (run_saveHighlights autoId online c u w Hu Hsync Hne).
    cbn. split; [reflexivity|]. now apply saved_store_of_user. }
  destruct Hsaved as [Hw Hd].
  unfold answers in Hans. rewrite Hd in Hans.
  assert (Hl : highlightedWords (state loaded) = map savedHighlight snapshot).
  { unfold loaded, loadHighlightsFrom. now rewrite Hu'. }
  assert (Hb : forall v, bucketOf (localHighlights (state loaded)) v
                 = filter (fun h => String.eqb (verseId h) v)
                     (highlightedWords (state loaded))).
  { intros v. rewrite Hl. unfold loaded, loadHighlightsFrom. rewrite Hu'.
    cbn [state store sent withState highlightedWords localHighlights
         setNeedsSync setHighlightedWords setLocalHighlights].
    apply bucketOf_groupByVerse. }
  assert (Hp : Permutation (highlightedWords (state loaded))
                 (highlightedWords (state saved))).
  { rewrite Hl, Hw. now apply Permutation_map. }
  split; [exact Hp|]. split; [|split; [|split; [exact Hb|split]]].
  - rewrite (Permutation_map content Hp), Hw, map_map.
    match goal with
    | |- Permutation ?X ?Y =>
        assert (E : X = Y)
          by exact (proj1 (newDocs_fields autoId u hs (generated w)));
        now rewrite E
    end.
  - intros v.
    assert (Hnn : highlightedWords (state saved) <> []).
    { rewrite Hw. intros E. apply map_eq_nil in E.
      destruct hs; [now apply Hne|discriminate E]. }
    rewrite Hb. unfold regroupEffect.
    destruct (highlightedWords (state saved)) as [|h0 l] eqn:E;
      [congruence|].
    cbn [localHighlights setLocalHighlights].
    rewrite bucketOf_groupByVerse. now apply filter_Permutation.
  - unfold loaded, loadHighlightsFrom. now rewrite Hu'.
  - unfold loaded, loadHighlightsFrom. now rewrite Hu'.
Qed.

(** Two highlights are saved; the store answers the load with the
    later document first. *)
Lemma X5_save_then_load_round_trip_witness :
  let s := stateOf true [highlightOf "U1" 0 5; highlightOf "U1" 7 9] in
  let c := render (reader "U1") s in
  let w := worldOf s [persisted "a" "U1" 2 8; persisted "b" "U2" 5 10] in
  let saved := fst (run serialId online (saveHighlights c) w) in
  let snapshot := [persisted "di" "U1" 7 9; persisted "d" "U1" 0 5] in
  let loaded := loadHighlightsFrom (Some snapshot) c saved in
  highlightedWords (state loaded)
  = [savedHighlight (persisted "di" "U1" 7 9);
     savedHighlight (persisted "d" "U1" 0 5)] /\
  Permutation (highlightedWords (state loaded))
    (highlightedWords (state saved)).
Proof.
  intros s c w saved snapshot loaded. split; [reflexivity|].
  refine (proj1 (X5_save_then_load_round_trip serialId c c
                   {| uid := "U1" |} w snapshot eq_refl eq_refl _ _
                   serialId_injective _ eq_refl _)).
  - discriminate.
  - repeat constructor; cbn; intuition discriminate.
  - intros n _ [H|[H|[]]]; discriminate H.
  - apply perm_swap.
Defined.

Lemma newDocs_In (autoId : nat -> string) (u : User)
    (hs : list HighlightedWord) (h : HighlightedWord) :
  forall n, In h hs -> exists i, In (i, dataOf u h) (newDocs autoId u n hs).
Proof.
  induction hs as [|h0 hs IH]; intros n; cbn; [intros []|].
  intros [->|Hin].
  - exists (autoId n). now left.
  - destruct (IH (S n) Hin) as [i Hi]. exists i. now right.
Qed.







(** ** Deleting a highlight *)

Lemma keptOnCreate_all (n : HighlightedWord) (l : list HighlightedWord) :
  Forall (fun h => covers n h = false) l ->
  filter (keptOnCreate (startIndex n) (endIndex n)) l = l.
Proof.
  intros H. apply forallb_filter_id. apply forallb_forall.
  rewrite Forall_forall in H. intros h Hh.
  now rewrite keptOnCreate_covers, (H h Hh).
Qed.

Lemma covers_same_range (n h : HighlightedWord) :
  startIndex h = startIndex n -> endIndex h = endIndex n ->
  covers n h = true.
Proof.
  intros Hs He. unfold covers. rewrite Hs, He.
  now rewrite !Z.leb_refl.
Qed.

(** X7: drawing a highlight and deleting it again.  When the new
    highlight covers no highlight of its verse, the setters of
    [deleteHighlight] applied after those of [handleMouseUp] give back
    [highlightedWords] as it was and every bucket as it was. *)
Theorem X7_create_then_delete_restores (n : HighlightedWord) (s : State) :
  Forall (fun h => verseId h = verseId n -> covers n h = false)
    (highlightedWords s) ->
  Forall (fun h => covers n h = false)
    (bucketOf (localHighlights s) (verseId n)) ->
  let s' := afterRemove n (afterCreate (verseId n) n s) in
  highlightedWords s' = highlightedWords s /\
  (forall v, bucketOf (localHighlights s') v = bucketOf (localHighlights s) v).
Proof.
  intros Hw Hb s'. split.
  - cbn. unfold removeFromHighlightedWords, addToHighlightedWords.
    rewrite filter_app. cbn.
    rewrite (String.eqb_refl (verseId n)), (Z.eqb_refl (startIndex n)),
      (Z.eqb_refl (endIndex n)).
    cbn. rewrite app_nil_r.
    rewrite filter_twice. apply forallb_filter_id. apply forallb_forall.
    rewrite Forall_forall in Hw. intros h Hh. specialize (Hw h Hh).
    destruct (String.eqb_spec (verseId h) (verseId n)) as [E|E]; cbn; auto.
    rewrite keptOnCreate_covers, (Hw E). cbn.
    destruct (Z.eqb_spec (startIndex h) (startIndex n)) as [E1|]; cbn; auto.
    destruct (Z.eqb_spec (endIndex h) (endIndex n)) as [E2|]; cbn; auto.
    rewrite (covers_same_range n h E1 E2) in Hw. now specialize (Hw E).
  - intros v. cbn. rewrite bucketOf_remove, bucketOf_addToLocalHighlights.
    destruct (String.eqb_spec (verseId n) v) as [<-|Hne]; auto.
    rewrite (keptOnCreate_all n _ Hb), filter_app. cbn.
    rewrite (Z.eqb_refl (startIndex n)), (Z.eqb_refl (endIndex n)).
    cbn. rewrite app_nil_r.
    apply forallb_filter_id. apply forallb_forall.
    rewrite Forall_forall in Hb. intros h Hh. specialize (Hb h Hh).
    destruct (Z.eqb_spec (startIndex h) (startIndex n)) as [E1|]; cbn; auto.
    destruct (Z.eqb_spec (endIndex h) (endIndex n)) as [E2|]; cbn; auto.
    now rewrite (covers_same_range n h E1 E2) in Hb.
Qed.

(** [5,10) is drawn next to [2,8) and deleted again. *)
Lemma X7_create_then_delete_restores_witness :
  let s := stateOf false [highlightOf "U1" 2 8] in
  highlightedWords
    (afterRemove (highlightOf "U1" 5 10)
       (afterCreate "Genesis_1_1" (highlightOf "U1" 5 10) s))
  = [highlightOf "U1" 2 8].
Proof.
  intros s.
  refine (proj1 (X7_create_then_delete_restores (highlightOf "U1" 5 10) s
                   _ _)).
  - repeat constructor.
  - repeat constructor.
Defined.

(** X8: [deleteHighlight] without a save, for a signed-in user.  When
    [deleteDoc] fails, for a highlight with an id, or when the render
    of the handler saw a save under way, for any highlight, with an id
    or without, the handler sends no query and no batch; every
    highlight of the verse on the range of the deleted one, whatever
    its owner, id or colour, is gone from [highlightedWords] and the
    others are kept; [needsSync] is true.  When [deleteDoc] fails the
    collection is as it was and the error is printed: the document is
    still stored.  When a save was under way the only write is the
    [deleteDoc] of a highlight that has an id, and nothing is
    printed. *)
Theorem X8_delete_without_save (autoId : nat -> string) (net : Network)
    (c : Closure) (u : User) (highlight : HighlightedWord) (w : World) :
  user (props c) = Some u ->
  let gone s :=
    forall h, In h (highlightedWords s) <->
              In h (highlightedWords (state w)) /\
              ~ (verseId h = verseId highlight /\ sameRange highlight h) in
  gone (afterRemove highlight (state w)) /\
  needsSync (afterRemove highlight (state w)) = true /\
  (forall i, persistedId highlight = Some i ->
     let failed := deleteHighlight autoId net false c highlight w in
     state (fst failed) = afterRemove highlight (state w) /\
     store (fst failed) = store w /\
     requests (fst failed) = requests w /\
     console (fst failed)
     = console w ++ ["Error deleting highlight:"%string] /\
     snd failed = [DeleteDoc i]) /\
  (isSyncing (seen c) = true ->
   forall deleted, persistedId highlight = None \/ deleted = true ->
     let busy := deleteHighlight autoId net deleted c highlight w in
     state (fst busy) = afterRemove highlight (state w) /\
     requests (fst busy) = requests w /\
     console (fst busy) = console w /\
     store (fst busy)
     = match persistedId highlight with
       | Some i => deleteDocument i (store w)
       | None => store w
       end /\
     snd busy
     = match persistedId highlight with
       | Some i => [DeleteDoc i]
       | None => []
       end).
Proof.
  intros Hu gone. unfold gone.
  split; [|split; [reflexivity|split]].
  - intros h. cbn. unfold removeFromHighlightedWords, sameRange.
    rewrite filter_In, !orb_true_iff, !negb_true_iff.
    rewrite String.eqb_neq, !Z.eqb_neq.
    split; intros [Hin H]; (split; [exact Hin|]).
    + intros (Hv & Hs & He). destruct H as [[H|H]|H]; auto.
    + destruct (String.eqb_spec (verseId h) (verseId highlight));
        [|now left; left].
      destruct (Z.eq_dec (startIndex h) (startIndex highlight));
        [|now left; right].
      destruct (Z.eq_dec (endIndex h) (endIndex highlight)); [|now right].
      exfalso. apply H. repeat split; assumption.
  - intros i Hi. cbv zeta. unfold deleteHighlight.
    rewrite Hu, Hi. repeat split.
  - intros Hbusy deleted Hdel. cbv zeta. unfold deleteHighlight.
    assert (E : saveHighlights c = Return)
      by (unfold saveHighlights; now rewrite Hu, Hbusy).
    rewrite Hu, E.
    destruct (persistedId highlight) as [i|].
    + destruct Hdel as [Hdel | ->]; [discriminate Hdel|]. repeat split.
    + repeat split.
Qed.

(** A highlight that was never saved is deleted while a save is under
    way; a saved one when [deleteDoc] fails. *)
Lemma X8_delete_without_save_witness :
  let h := savedHighlight (persisted "a" "U1" 2 8) in
  let s := stateOf false [h; highlightOf "U2" 2 8; highlightOf "U1" 10 12] in
  let w := worldOf s [persisted "a" "U1" 2 8] in
  let failed :=
    deleteHighlight sampleId online false (render (reader "U1") s) h w in
  let busy :=
    deleteHighlight sampleId online true
      (render (reader "U1") (setIsSyncing true s)) (highlightOf "U2" 2 8) w in
  (highlightedWords (state (fst failed)) = [highlightOf "U1" 10 12] /\
   store (fst failed) = [persisted "a" "U1" 2 8]) /\
  (highlightedWords (state (fst busy)) = [highlightOf "U1" 10 12] /\
   store (fst busy) = [persisted "a" "U1" 2 8] /\
   requests (fst busy) = [] /\ snd busy = []).
Proof.
  intros h s w failed busy. split.
  - destruct (X8_delete_without_save sampleId online (render (reader "U1") s)
                {| uid := "U1" |} h w eq_refl) as (_ & _ & Hf & _).
    destruct (Hf "a" eq_refl) as (Hs & Hst & _).
    fold failed in Hs, Hst. rewrite Hs, Hst. split; reflexivity.
  - destruct (X8_delete_without_save sampleId online
                (render (reader "U1") (setIsSyncing true s))
                {| uid := "U1" |} (highlightOf "U2" 2 8) w eq_refl)
      as (_ & _ & _ & Hb).
    destruct (Hb eq_refl true (or_introl eq_refl))
      as (Hs & Hr & _ & Hst & Hw).
    fold busy in Hs, Hr, Hst, Hw. rewrite Hs, Hr, Hst, Hw.
    repeat split; reflexivity.
Defined.

(** X9: [deleteHighlight] with its save.  The handler saves with the
    [saveHighlights] of its own render, which reads the highlights map
    of that render.  So when the handler comes from the current render,
    no save is under way, the deleted highlight is in the map and the
    store answers, the save writes the map as it was before the
    deletion: [highlightedWords] ends exactly as a save without any
    deletion leaves it, the deleted highlight is in it again, and in the
    highlights map once the regrouping effect has run, with a new id
    whose document is in the collection, and [needsSync] is false. *)
Theorem X9_delete_is_undone_by_its_save (autoId : nat -> string)
    (deleted : bool) (p : Props) (u : User) (highlight : HighlightedWord)
    (w : World) :
  user p = Some u -> isSyncing (state w) = false ->
  In highlight (allFlattened (localHighlights (state w))) ->
  (persistedId highlight = None \/ deleted = true) ->
  let c := render p (state w) in
  let w' := fst (deleteHighlight autoId online deleted c highlight w) in
  highlightedWords (state w')
  = highlightedWords (state (fst (run autoId online (saveHighlights c) w))) /\
  map content (highlightedWords (state w'))
  = map content (allFlattened (localHighlights (state w))) /\
  (exists i,
     let back := {| id := Some i; verseId := verseId highlight;
                    startIndex := startIndex highlight;
                    endIndex := endIndex highlight;
                    color := color highlight; userId := uid u |} in
     In back (highlightedWords (state w')) /\
     In back (allFlattened (localHighlights (regroupEffect (state w')))) /\
     JsObject.get (store w') i <> None) /\
  needsSync (state w') = false.
Proof.
  intros Hu Hsync Hin Hdel c w'.
  assert (Hne : allFlattened (localHighlights (seen c)) <> [])
    by (cbn; intros E; rewrite E in Hin; destruct Hin).
  set (hs := allFlattened (localHighlights (state w))) in *.
  assert (Hrun : forall w0, generated w0 = generated w ->
            let w1 := fst (run autoId online (saveHighlights c) w0) in
            highlightedWords (state w1)
            = updatedHighlights (newDocs autoId u (generated w) hs) /\
            needsSync (state w1) = false /\
            store w1 = applyBatch (store w0) (savedBatch autoId u w0 hs)).
  { intros w0 Hg.
    rewrite (run_saveHighlights autoId online c u w0 Hu Hsync Hne).
    cbn [fst]. unfold savedWorld. cbn. rewrite Hg. repeat split. }
  assert (Hw' : exists w0, generated w0 = generated w /\
                  w' = fst (run autoId online (saveHighlights c) w0)).
  { unfold w', deleteHighlight. cbn [c render props]. rewrite Hu.
    destruct (persistedId highlight) as [i|] eqn:Ei.
    - destruct Hdel as [Hdel | ->]; [discriminate|].
      cbn [fst]. eexists. split; [|reflexivity]. reflexivity.
    - cbn [fst]. eexists. split; [|reflexivity]. reflexivity. }
  destruct Hw' as (w0 & Hg & Ew).
  destruct (Hrun w0 Hg) as (Hwords & Hsyncd & Hstore).
  destruct (Hrun w eq_refl) as (Hwords1 & _ & _).
  rewrite <- Ew in Hwords, Hsyncd, Hstore.
  destruct (newDocs_fields autoId u hs (generated w)) as [Hf _].
  split; [now rewrite Hwords, Hwords1|]. split; [|split; [|exact Hsyncd]].
  - rewrite Hwords. unfold updatedHighlights. rewrite map_map. exact Hf.
  - destruct (newDocs_In autoId u hs highlight (generated w) Hin) as [i Hi].
    exists i. cbv zeta.
    assert (Hback : In {| id := Some i; verseId := verseId highlight;
                          startIndex := startIndex highlight;
                          endIndex := endIndex highlight;
                          color := color highlight; userId := uid u |}
                      (highlightedWords (state w'))).
    { rewrite Hwords. unfold updatedHighlights.
      apply in_map_iff. exists (i, dataOf u highlight). split; auto. }
    split; [exact Hback|]. split.
    + unfold regroupEffect.
      destruct (highlightedWords (state w')) as [|h0 l] eqn:Eh;
        [destruct Hback|].
      cbn [localHighlights setLocalHighlights].
      apply (Permutation_in _
               (Permutation_sym (allFlattened_groupByVerse (h0 :: l)))).
      exact Hback.
    + rewrite Hstore. unfold savedBatch, applyBatch. rewrite fold_left_app.
      apply applyBatch_sets_present. left. rewrite Hg.
      now apply (in_map fst _ (i, dataOf u highlight)).
Qed.

(** [2,8), never saved, is deleted from a map that also holds [10,12). *)
Lemma X9_delete_is_undone_by_its_save_witness :
  let s := stateOf false [highlightOf "U1" 2 8; highlightOf "U1" 10 12] in
  let w' := fst (deleteHighlight sampleId online true
                   (render (reader "U1") s) (highlightOf "U1" 2 8)
                   (worldOf s [])) in
  map content (highlightedWords (state w'))
  = [content (highlightOf "U1" 2 8); content (highlightOf "U1" 10 12)].
Proof.
  intros s w'.
  destruct (X9_delete_is_undone_by_its_save sampleId true (reader "U1")
              {| uid := "U1" |} (highlightOf "U1" 2 8) (worldOf s [])
              eq_refl eq_refl) as (_ & H & _).
  - left. reflexivity.
  - left. reflexivity.
  - exact H.
Defined.

(** ** Changing the colour of a highlight *)

Lemma updateHighlightColor_state (updated : bool) (c : Closure) (u : User)
    (highlight : HighlightedWord) (newColor : string) (w : World) :
  user (props c) = Some u ->
  let r := updateHighlightColor updated c highlight newColor w in
  state (fst r) = afterRecolor highlight newColor (state w) /\
  requests (fst r) = requests w /\
  store (fst r)
  = match persistedId highlight with
    | Some i => if updated then updateDocumentColor i newColor (store w)
                else store w
    | None => store w
    end.
Proof.
  intros Hu r. unfold r, updateHighlightColor. rewrite Hu.
  destruct (persistedId highlight); [destruct updated|]; repeat split.
Qed.

(** X10: [updateHighlightColor], for a signed-in user.  In
    [highlightedWords] and in every bucket the highlights keep their
    place, id, verse, range and owner.  In [highlightedWords] those of
    the verse on the range of the given highlight have the new colour
    and the others are untouched; in the bucket of the verse those on
    that range have the new colour and the others are untouched, and
    the other buckets are as they were.  [needsSync] is true and no
    query or batch is sent, so nothing is saved by this handler.  In
    the collection only colours can change: with a persisted id and a
    successful [updateDoc] the document of that id has the new colour
    and every other document is as it was; otherwise the collection is
    as it was, although the colour in memory has changed. *)
Theorem X10_recolour_changes_only_colours (updated : bool) (c : Closure)
    (u : User) (highlight : HighlightedWord) (newColor : string) (w : World) :
  user (props c) = Some u ->
  let r := updateHighlightColor updated c highlight newColor w in
  let s' := state (fst r) in
  map uncoloured (highlightedWords s')
  = map uncoloured (highlightedWords (state w)) /\
  (forall v, map uncoloured (bucketOf (localHighlights s') v)
             = map uncoloured (bucketOf (localHighlights (state w)) v)) /\
  Forall (fun h => verseId h = verseId highlight -> sameRange highlight h ->
                   color h = newColor) (highlightedWords s') /\
  (forall h, In h (highlightedWords (state w)) ->
             ~ (verseId h = verseId highlight /\ sameRange highlight h) ->
             In h (highlightedWords s')) /\
  Forall (fun h => sameRange highlight h -> color h = newColor)
    (bucketOf (localHighlights s') (verseId highlight)) /\
  (forall h, In h (bucketOf (localHighlights (state w)) (verseId highlight)) ->
             ~ sameRange highlight h ->
             In h (bucketOf (localHighlights s') (verseId highlight))) /\
  (forall h, In h (bucketOf (localHighlights (state w)) (verseId highlight)) ->
             sameRange highlight h ->
             In (withColor newColor h)
               (bucketOf (localHighlights s') (verseId highlight))) /\
  (forall v, v <> verseId highlight ->
             bucketOf (localHighlights s') v
             = bucketOf (localHighlights (state w)) v) /\
  needsSync s' = true /\
  requests (fst r) = requests w /\
  map docUncoloured (store (fst r)) = map docUncoloured (store w) /\
  (forall i, persistedId highlight = Some i -> updated = true ->
     Forall (fun d => fst d = i -> d_color (snd d) = newColor)
       (store (fst r)) /\
     (forall d, In d (store w) -> fst d <> i -> In d (store (fst r)))) /\
  (updated = false \/ persistedId highlight = None ->
     store (fst r) = store w).
Proof.
  intros Hu r s'.
  destruct (updateHighlightColor_state updated c u highlight newColor w Hu)
    as (Hs & Hr & Hst).
  fold r in Hs, Hr, Hst. unfold s'. rewrite Hs, Hr, Hst. clear Hs Hr Hst.
  cbn [afterRecolor highlightedWords localHighlights needsSync setNeedsSync
       setHighlightedWords setLocalHighlights].
  split; [|split; [|split; [|split; [|split; [|split; [|split; [|split;
    [|split; [|split; [|split; [|split]]]]]]]]]]].
  - unfold recolorInHighlightedWords. rewrite map_map. apply map_ext.
    intros h. now destruct (_ && _ && _).
  - intros v. rewrite bucketOf_recolor.
    destruct (String.eqb (verseId highlight) v); auto.
    rewrite map_map. apply map_ext. intros h. now destruct (_ && _).
  - apply Forall_forall. intros h' Hh'.
    unfold recolorInHighlightedWords in Hh'.
    apply in_map_iff in Hh' as (h & <- & _).
    destruct (String.eqb_spec (verseId h) (verseId highlight)) as [Ev|Ev];
      cbn; [|intros Hv; contradiction].
    destruct (Z.eqb_spec (startIndex h) (startIndex highlight)) as [E1|E1];
      cbn; [|intros _ [Hs _]; contradiction].
    destruct (Z.eqb_spec (endIndex h) (endIndex highlight)) as [E2|E2];
      cbn; [reflexivity|intros _ [_ He]; contradiction].
  - intros h Hin Hnot. unfold recolorInHighlightedWords.
    apply in_map_iff. exists h. split; auto.
    destruct (String.eqb_spec (verseId h) (verseId highlight)) as [Ev|Ev];
      cbn; auto.
    destruct (Z.eqb_spec (startIndex h) (startIndex highlight)) as [E1|E1];
      cbn; auto.
    destruct (Z.eqb_spec (endIndex h) (endIndex highlight)) as [E2|E2];
      cbn; auto.
    exfalso. apply Hnot. repeat split; assumption.
  - rewrite bucketOf_recolor, String.eqb_refl.
    apply Forall_forall. intros h' Hh'.
    apply in_map_iff in Hh' as (h & <- & _).
    destruct (Z.eqb_spec (startIndex h) (startIndex highlight)) as [E1|E1];
      cbn; [|intros [Hs _]; contradiction].
    destruct (Z.eqb_spec (endIndex h) (endIndex highlight)) as [E2|E2];
      cbn; [reflexivity|intros [_ He]; contradiction].
  - intros h Hin Hnot. rewrite bucketOf_recolor, String.eqb_refl.
    apply in_map_iff. exists h. split; auto.
    destruct (Z.eqb_spec (startIndex h) (startIndex highlight)) as [E1|E1];
      cbn; auto.
    destruct (Z.eqb_spec (endIndex h) (endIndex highlight)) as [E2|E2];
      cbn; auto.
    exfalso. apply Hnot. split; assumption.
  - intros h Hin [Hs He]. rewrite bucketOf_recolor, String.eqb_refl.
    apply in_map_iff. exists h. split; auto.
    now rewrite Hs, He, !Z.eqb_refl.
  - intros v Hv. rewrite bucketOf_recolor.
    destruct (String.eqb_spec (verseId highlight) v); [congruence|reflexivity].
  - reflexivity.
  - reflexivity.
  - destruct (persistedId highlight); [destruct updated|]; auto.
    unfold updateDocumentColor. rewrite map_map. apply map_ext.
    intros d. now destruct (String.eqb (fst d) s).
  - intros i Hi ->. rewrite Hi. unfold updateDocumentColor. split.
    + apply Forall_forall. intros d' Hd'.
      apply in_map_iff in Hd' as (d & <- & _).
      destruct (String.eqb_spec (fst d) i); cbn; auto.
      intros; contradiction.
    + intros d Hd Hne. apply in_map_iff. exists d. split; auto.
      destruct (String.eqb_spec (fst d) i); [contradiction|reflexivity].
  - intros [-> | ->]; auto. now destruct (persistedId highlight).
Qed.

(** A saved highlight turns green; the write goes through. *)
Lemma X10_recolour_changes_only_colours_witness :
  let h := savedHighlight (persisted "a" "U1" 2 8) in
  let s := stateOf false [h; highlightOf "U1" 10 12] in
  let w := worldOf s [persisted "a" "U1" 2 8] in
  let r := updateHighlightColor true (render (reader "U1") s) h "#C5E1A5" w in
  map uncoloured (highlightedWords (state (fst r)))
  = map uncoloured [h; highlightOf "U1" 10 12] /\
  In (withColor "#C5E1A5" h)
    (bucketOf (localHighlights (state (fst r))) "Genesis_1_1") /\
  In (highlightOf "U1" 10 12)
    (bucketOf (localHighlights (state (fst r))) "Genesis_1_1") /\
  needsSync (state (fst r)) = true /\ requests (fst r) = [].
Proof.
  intros h s w r.
  destruct (X10_recolour_changes_only_colours true (render (reader "U1") s)
              {| uid := "U1" |} h "#C5E1A5" w eq_refl)
    as (H1 & _ & _ & _ & _ & Hk & Hc & _ & H2 & H3 & _).
  split; [exact H1|]. split; [|split; [|split; assumption]].
  - apply (Hc h); [left; reflexivity|split; reflexivity].
  - apply (Hk (highlightOf "U1" 10 12)); [right; left; reflexivity|].
    intros [Hs _]. discriminate Hs.
Defined.

(** ** Rendering *)

Lemma string_append_assoc (a b c : string) :
  ((a ++ b) ++ c)%string = (a ++ (b ++ c))%string.
Proof. induction a as [|ch a IH]; cbn; [reflexivity|now rewrite IH]. Qed.

Lemma string_length_append (a b : string) :
  String.length (a ++ b)%string = (String.length a + String.length b)%nat.
Proof. induction a as [|ch a IH]; cbn; [reflexivity|now rewrite IH]. Qed.

Lemma joined_splitFrom (text : string) :
  forall inSpace cur,
  joined (splitFrom inSpace cur text) = (cur ++ text)%string.
Proof.
  induction text as [|ch rest IH]; intros inSpace cur; cbn [splitFrom].
  - now destruct inSpace.
  - destruct (Bool.eqb (isWhitespace ch) inSpace).
    + now rewrite IH, string_append_assoc.
    + cbn [joined fold_right]. fold (joined (splitFrom (isWhitespace ch)
                                                 (String ch "") rest)).
      now rewrite IH.
Qed.

Lemma splitFrom_not_nil (text : string) :
  forall inSpace cur, splitFrom inSpace cur text <> [].
Proof.
  induction text as [|ch rest IH]; intros inSpace cur; cbn.
  - now destruct inSpace.
  - destruct (Bool.eqb (isWhitespace ch) inSpace); [apply IH|discriminate].
Qed.

Lemma positions_length (words : list string) :
  forall pos, List.length (positions pos words) = List.length words.
Proof.
  induction words as [|word rest IH]; intros pos; cbn; auto.
Qed.

Lemma positions_first (words : list string) (pos : Z) :
  hd pos (map fst (positions pos words)) = pos.
Proof. now destruct words. Qed.

(** Each piece ends where the next one starts; the last one ends at
    the end of the text. *)
Lemma positions_chain (words : list string) :
  forall pos, words <> [] ->
  map snd (positions pos words)
  = tl (map fst (positions pos words)) ++ [pos + textLength (joined words)].
Proof.
  induction words as [|word rest IH]; intros pos Hne; [congruence|].
  cbn [positions map fst snd tl joined fold_right].
  fold (joined rest).
  assert (El : pos + textLength (word ++ joined rest)
               = pos + Z.of_nat (String.length word)
                 + textLength (joined rest)).
  { unfold textLength. rewrite string_length_append. lia. }
  destruct rest as [|word' rest'].
  - cbn. f_equal. unfold textLength. cbn.
    rewrite string_length_append. cbn. lia.
  - rewrite (IH (pos + Z.of_nat (String.length word))) by discriminate.
    rewrite El. cbn [positions map fst tl app]. reflexivity.
Qed.

Lemma positions_bounds (words : list string) :
  forall pos,
  Forall (fun span => pos <= fst span <= snd span /\
                      snd span <= pos + textLength (joined words))
    (positions pos words).
Proof.
  induction words as [|word rest IH]; intros pos; cbn [positions];
    constructor.
  - cbn [fst snd joined fold_right]. unfold textLength.
    rewrite string_length_append. lia.
  - specialize (IH (pos + Z.of_nat (String.length word))).
    rewrite Forall_forall in *. intros span Hin. specialize (IH span Hin).
    cbn [joined fold_right]. fold (joined rest). unfold textLength in *.
    rewrite string_length_append. lia.
Qed.

Lemma positions_widths (words : list string) :
  forall pos,
  Forall2 (fun word span => snd span - fst span = textLength word)
    words (positions pos words).
Proof.
  induction words as [|word rest IH]; intros pos; cbn [positions];
    constructor; auto.
  cbn. unfold textLength. lia.
Qed.

Lemma splitWhitespace_bounds (text : string) :
  Forall (fun span => 0 <= fst span <= snd span /\
                      snd span <= textLength text)
    (positions 0 (splitWhitespace text)).
Proof.
  pose proof (positions_bounds (splitWhitespace text) 0) as H.
  unfold splitWhitespace in H at 1. rewrite joined_splitFrom in H.
  exact H.
Qed.

(** X11: the pieces [renderVerseText] cuts a text into make up the
    text: put together they give it back; there is at least one; the
    first starts at offset 0, each ends where the next starts, the last
    ends at the length of the text; each is as wide as it is long, and
    all offsets lie between 0 and the length of the text. *)
Theorem X11_pieces_tile_the_text (text : string) :
  let words := splitWhitespace text in
  let spans := positions 0 words in
  joined words = text /\
  words <> [] /\
  List.length spans = List.length words /\
  hd 0 (map fst spans) = 0 /\
  map snd spans = tl (map fst spans) ++ [textLength text] /\
  Forall2 (fun word span => snd span - fst span = textLength word)
    words spans /\
  Forall (fun span => 0 <= fst span <= snd span /\
                      snd span <= textLength text) spans.
Proof.
  intros words spans.
  assert (Hj : joined words = text) by apply joined_splitFrom.
  assert (Hn : words <> []) by apply splitFrom_not_nil.
  split; [exact Hj|]. split; [exact Hn|].
  split; [apply positions_length|]. split; [apply positions_first|].
  split; [|split].
  - unfold spans. rewrite (positions_chain words 0 Hn), Hj. reflexivity.
  - apply positions_widths.
  - apply splitWhitespace_bounds.
Qed.

Ltac by_comparisons :=
  repeat match goal with
  | |- context [?a <=? ?b] => destruct (Z.leb_spec a b)
  | |- context [?a <? ?b] => destruct (Z.ltb_spec a b)
  end; cbn; try reflexivity; try lia.

Lemma touches_overlap (start end_ : Z) (h : HighlightedWord) :
  start < end_ -> startIndex h < endIndex h ->
  touches start end_ h = (start <? endIndex h) && (startIndex h <? end_).
Proof.
  unfold touches. rewrite !Z.geb_leb, !Z.gtb_ltb. intros. by_comparisons.
Qed.

(** X12: the test of [renderVerseText].  A piece that is not empty is
    shown under a highlight with [startIndex < endIndex] exactly when
    the two ranges overlap: the piece starts before the highlight ends
    and the highlight starts before the piece ends.  A piece that is
    empty, as the one before a leading space, is shown under a
    highlight with [startIndex <= endIndex] when its offset lies in the
    range of the highlight, both ends included. *)
Theorem X12_piece_is_shown_when_ranges_overlap (start end_ : Z)
    (h : HighlightedWord) :
  (start < end_ -> startIndex h < endIndex h ->
   touches start end_ h = (start <? endIndex h) && (startIndex h <? end_)) /\
  (startIndex h <= endIndex h ->
   touches start start h = (startIndex h <=? start) && (start <=? endIndex h)).
Proof.
  split; [apply touches_overlap|].
  unfold touches. rewrite !Z.geb_leb, !Z.gtb_ltb. intros. by_comparisons.
Qed.

Lemma X12_piece_is_shown_when_ranges_overlap_witness :
  touches 3 6 (highlightOf "U1" 5 10) = true /\
  touches 0 0 (highlightOf "U1" 0 4) = true.
Proof.
  destruct (X12_piece_is_shown_when_ranges_overlap 3 6
              (highlightOf "U1" 5 10)) as [H1 _].
  destruct (X12_piece_is_shown_when_ranges_overlap 0 0
              (highlightOf "U1" 0 4)) as [_ H2].
  split; [rewrite H1|rewrite H2]; cbn; try reflexivity; lia.
Defined.

(** X13: whether a piece is shown highlighted does not depend on how
    [sort] ordered the highlights of the verse.  For any list holding
    exactly those highlights, when they all have
    [startIndex < endIndex], a piece that is not empty gets a highlight
    if and only if some highlight of [highlightedWords] is on the verse
    and overlaps it; the highlight it gets is such a one, and the two
    buttons are drawn on the piece when it starts where that highlight
    starts. *)
Theorem X13_shown_highlight_overlaps (hs ranges : list HighlightedWord)
    (vId : option string) (span : Z * Z) :
  Permutation ranges (rangesOfVerse hs vId) ->
  Forall nonDegenerate hs ->
  fst span < snd span ->
  let overlapping h :=
    In h hs /\ Some (verseId h) = vId /\
    fst span < endIndex h /\ startIndex h < snd span in
  (fst (renderPiece ranges span) <> None <-> exists h, overlapping h) /\
  (forall h, fst (renderPiece ranges span) = Some h ->
     overlapping h /\
     snd (renderPiece ranges span) = (fst span =? startIndex h)).
Proof.
  intros Hperm Hnd Hspan overlapping.
  assert (Hin : forall h, In h ranges <-> In h hs /\ Some (verseId h) = vId).
  { intros h. split.
    - intros H. apply (Permutation_in _ Hperm) in H.
      apply filter_In in H as [H Hv]. split; auto.
      destruct vId as [v|]; [|discriminate].
      apply String.eqb_eq in Hv. now subst.
    - intros [H Hv]. apply (Permutation_in _ (Permutation_sym Hperm)).
      apply filter_In. split; auto. subst vId. apply String.eqb_refl. }
  assert (Ht : forall h, In h hs ->
                 touches (fst span) (snd span) h = true <->
                 fst span < endIndex h /\ startIndex h < snd span).
  { intros h Hh. rewrite Forall_forall in Hnd.
    rewrite (touches_overlap _ _ h Hspan (Hnd h Hh)).
    rewrite andb_true_iff, !Z.ltb_lt. tauto. }
  assert (Hfound : forall h, find (touches (fst span) (snd span)) ranges
                             = Some h -> overlapping h).
  { intros h Hf. apply find_some in Hf as [Hr Htouch].
    apply Hin in Hr as [Hh Hv]. unfold overlapping.
    apply (Ht h Hh) in Htouch. tauto. }
  unfold renderPiece. cbn [fst snd]. split.
  - split.
    + destruct (find _ ranges) as [h|] eqn:E; [|congruence].
      intros _. exists h. now apply Hfound.
    + intros (h & Hh & Hv & Ho) E.
      assert (Hr : In h ranges) by (apply Hin; auto).
      apply (find_none _ _ E) in Hr.
      apply (Ht h Hh) in Ho. congruence.
  - intros h Hf. rewrite Hf. split; [now apply Hfound|reflexivity].
Qed.

Lemma X13_shown_highlight_overlaps_witness :
  fst (renderPiece [highlightOf "U1" 5 10; highlightOf "U1" 2 8] (3, 6))
  <> None.
Proof.
  apply (proj1 (X13_shown_highlight_overlaps
                  [highlightOf "U1" 2 8; highlightOf "U1" 5 10]
                  [highlightOf "U1" 5 10; highlightOf "U1" 2 8]
                  (Some "Genesis_1_1"%string) (3, 6)
                  (perm_swap _ _ [])
                  ltac:(repeat constructor) ltac:(reflexivity))).
  exists (highlightOf "U1" 2 8). cbn. repeat split; auto; lia.
Defined.

Lemma renderVerseText_span (ranges : list HighlightedWord) (verse : Verse)
    (piece : string * (Z * Z) * (option HighlightedWord * bool)) :
  In piece (renderVerseText ranges verse) ->
  In (snd (fst piece)) (positions 0 (splitWhitespace (v_text verse))).
Proof.
  unfold renderVerseText. intros H.
  apply in_map_iff in H as ([word span] & <- & Hin).
  cbn. now apply in_combine_r in Hin.
Qed.

(** X14: a selection made on the pieces of a verse stays within its
    text.  The mouse is pressed on a piece, which gives the start
    offset of that piece, and moved over a piece, which gives the end
    offset of that one; the highlight built from the two has
    [0 <= startIndex] and [endIndex <= ] the length of the text, and
    [startIndex < endIndex] when the two offsets differ.  So every
    highlight a gesture adds to [highlightedWords] lies within the
    text. *)
Theorem X14_selection_stays_within_the_text
    (ranges ranges' : list HighlightedWord) (verse : Verse) (p : Props)
    (vId : string)
    (pressed moved : string * (Z * Z) * (option HighlightedWord * bool)) :
  In pressed (renderVerseText ranges verse) ->
  In moved (renderVerseText ranges' verse) ->
  let a := fst (snd (fst pressed)) in
  let b := snd (snd (fst moved)) in
  let within h :=
    0 <= startIndex h < endIndex h /\
    endIndex h <= textLength (v_text verse) in
  0 <= startIndex (created p vId a b) /\
  endIndex (created p vId a b) <= textLength (v_text verse) /\
  (a <> b -> within (created p vId a b)) /\
  (forall s h, In h (highlightedWords (fst (drag p vId a b s))) ->
               In h (highlightedWords s) \/ within h).
Proof.
  intros Hp Hm a b within.
  apply renderVerseText_span in Hp, Hm.
  pose proof (splitWhitespace_bounds (v_text verse)) as Hb.
  rewrite Forall_forall in Hb.
  pose proof (Hb _ Hp) as Ha. pose proof (Hb _ Hm) as Hb'.
  fold a in Ha. fold b in Hb'.
  assert (H0 : 0 <= Z.min a b /\ Z.max a b <= textLength (v_text verse))
    by lia.
  split; [cbn; lia|]. split; [cbn; lia|]. split.
  - intros Hab. unfold within. cbn. lia.
  - intros s h. rewrite drag_unfold.
    destruct (handleMouseUp_cases (render p (selecting vId a b s))
                (selecting vId a b s))
      as [E|(a' & b' & v' & Ea & Eb & Hlt & E)]; rewrite E; cbn [fst].
    + cbn. auto.
    + cbn in Ea, Eb. injection Ea as <-. injection Eb as <-.
      cbn. unfold addToHighlightedWords. rewrite in_app_iff, filter_In.
      intros [[Hin _]|[<-|[]]]; [now left|right].
      unfold within. cbn. lia.
Qed.

(** Pressed on [In], moved over [the]. *)
Lemma X14_selection_stays_within_the_text_witness :
  let n := created (reader "U1") "Genesis_1_1" 0 6 in
  0 <= startIndex n /\ endIndex n <= textLength (v_text genesis_1_1).
Proof.
  intros n.
  assert (Hp : In ("In"%string, (0, 2), (@None HighlightedWord, false))
                 (renderVerseText [] genesis_1_1))
    by (vm_compute; left; reflexivity).
  assert (Hm : In ("the"%string, (3, 6), (@None HighlightedWord, false))
                 (renderVerseText [] genesis_1_1))
    by (vm_compute; right; right; left; reflexivity).
  destruct (X14_selection_stays_within_the_text [] [] genesis_1_1
              (reader "U1") "Genesis_1_1" _ _ Hp Hm) as (H1 & H2 & _).
  split; [exact H1|exact H2].
Defined.

(** ** The relay and the other tabs *)

Lemma filter_others_length (socketId : string) (l : list string) :
  NoDup l -> In socketId l ->
  S (List.length (filter (fun other => negb (String.eqb other socketId)) l))
  = List.length l.
Proof.
  induction 1 as [|x l Hx Hl IH]; cbn; [intros []|].
  intros [->|Hin].
  - rewrite String.eqb_refl. cbn. f_equal.
    f_equal. apply forallb_filter_id. apply forallb_forall.
    intros y Hy. destruct (String.eqb_spec y socketId); [|reflexivity].
    subst. contradiction.
  - destruct (String.eqb_spec x socketId) as [->|Hne];
      [contradiction|]. cbn. f_equal. now apply IH.
Qed.

(** X15: the relay.  A ['highlight'] event is sent on, unchanged, to
    every connected socket other than the one it came from, and to
    nothing else; with distinct socket ids each of them gets it once, so
    one delivery less than there are sockets.  Who authenticated, and as
    which user, plays no part; a socket that has disconnected gets
    nothing. *)
Theorem X15_relay_sends_to_every_other_socket (socketId : string)
    (data : HighlightedWord) (srv : Relay.Server) :
  let deliveries := Relay.onHighlight socketId data srv in
  (forall other d, In (other, d) deliveries <->
                   d = data /\ In other (Relay.sockets srv) /\
                   other <> socketId) /\
  (NoDup (Relay.sockets srv) ->
     NoDup deliveries /\
     (In socketId (Relay.sockets srv) ->
      S (List.length deliveries) = List.length (Relay.sockets srv))) /\
  (forall sid userId,
     Relay.onHighlight socketId data (Relay.onAuth sid userId srv)
     = deliveries) /\
  (forall gone other d,
     In (other, d)
       (Relay.onHighlight socketId data (Relay.onDisconnect gone srv)) ->
     other <> gone /\ In (other, d) deliveries).
Proof.
  intros deliveries. unfold deliveries, Relay.onHighlight.
  assert (Hin : forall l other d,
            In (other, d)
              (map (fun o => (o, data))
                 (filter (fun o => negb (String.eqb o socketId)) l)) <->
            d = data /\ In other l /\ other <> socketId).
  { intros l other d. rewrite in_map_iff. split.
    - intros (o & [= <- <-] & Ho). apply filter_In in Ho as [Ho Hne].
      apply negb_true_iff, String.eqb_neq in Hne. auto.
    - intros (-> & Ho & Hne). exists other. split; auto.
      apply filter_In. split; auto.
      now apply negb_true_iff, String.eqb_neq. }
  split; [apply Hin|]. split; [|split].
  - intros Hnd. split.
    + apply NoDup_map_injective; [now intros x y [= ->]|].
      now apply NoDup_filter.
    + intros Hs. rewrite length_map. now apply filter_others_length.
  - reflexivity.
  - intros gone other d H. cbn [Relay.onDisconnect Relay.sockets] in H.
    apply Hin in H as (-> & Ho & Hne).
    apply filter_In in Ho as [Ho Hg].
    apply negb_true_iff, String.eqb_neq in Hg. split; auto.
    apply Hin. auto.
Qed.

Lemma X15_relay_sends_to_every_other_socket_witness :
  Relay.onHighlight "tabA" (highlightOf "U1" 5 10)
    (Relay.onConnection "tabC"
       (Relay.onConnection "tabB"
          (Relay.onConnection "tabA"
             {| Relay.sockets := []; Relay.connectedUsers := [] |})))
  = [("tabB"%string, highlightOf "U1" 5 10);
     ("tabC"%string, highlightOf "U1" 5 10)] /\
  NoDup (Relay.onHighlight "tabA" (highlightOf "U1" 5 10)
           (Relay.onConnection "tabC"
              (Relay.onConnection "tabB"
                 (Relay.onConnection "tabA"
                    {| Relay.sockets := []; Relay.connectedUsers := [] |})))).
Proof.
  split; [reflexivity|].
  apply (X15_relay_sends_to_every_other_socket "tabA"
           (highlightOf "U1" 5 10)).
  repeat constructor; cbn; intuition discriminate.
Defined.

(** X16: from one tab to another.  When a tab with an open socket
    creates a highlight, it emits exactly that highlight, without an
    id; the relay sends it to every other connected socket and not back
    to the sender; a tab that receives it then holds, in the bucket of
    the verse, a highlight on that range owned by the sender: the
    received one itself, unchanged, when the bucket held no highlight on
    that range by that owner.  Receiving does not change
    [needsSync]. *)
Theorem X16_created_highlight_reaches_other_tabs (cA : Closure)
    (sA sB : State) (a b : Z) (vId : string) (verse : Verse)
    (srv : Relay.Server) (tabA tabB : string) :
  selection (seen cA)
  = {| isSelecting := true; sel_startIndex := Some a;
       sel_endIndex := Some b; sel_verseId := Some vId |} ->
  vId <> ""%string -> a <> b ->
  In verse (verses (props cA)) -> v_verseId verse = Some vId ->
  socketConnected (props cA) = true ->
  In tabB (Relay.sockets srv) -> tabB <> tabA ->
  let n := created (props cA) vId a b in
  let emitted := snd (handleMouseUp cA sA) in
  let deliveries :=
    flat_map (fun d => Relay.onHighlight tabA d srv) emitted in
  let sB' := ScriptureReader.onHighlight n sB in
  emitted = [n] /\ id n = None /\
  In (tabB, n) deliveries /\
  ~ In tabA (map fst deliveries) /\
  (exists h, In h (bucketOf (localHighlights sB') vId) /\ matches n h) /\
  ((forall h, In h (bucketOf (localHighlights sB) vId) -> ~ matches n h) ->
   In n (bucketOf (localHighlights sB') vId)) /\
  needsSync sB' = needsSync sB.
Proof.
  intros Hsel Hv Hab Hin Hid Hconn HB Hne n emitted deliveries sB'.
  assert (He : emitted = [n]).
  { unfold emitted.
    rewrite (handleMouseUp_creates cA sA a b vId verse Hsel Hv Hab Hin Hid).
    cbn [snd]. now rewrite Hconn. }
  assert (Hd : deliveries = Relay.onHighlight tabA n srv).
  { unfold deliveries. rewrite He. cbn. now rewrite app_nil_r. }
  assert (Hb : bucketOf (localHighlights sB') vId
               = if existsb (sameRangeAndUser n)
                      (bucketOf (localHighlights sB) vId)
                 then bucketOf (localHighlights sB) vId
                 else bucketOf (localHighlights sB) vId ++ [n]).
  { unfold sB'. cbn. apply (receive_bucket n). }
  split; [exact He|]. split; [reflexivity|]. split; [|split; [|split;
    [|split; [|reflexivity]]]].
  - rewrite Hd. unfold Relay.onHighlight. apply in_map_iff.
    exists tabB. split; auto. apply filter_In. split; auto.
    now apply negb_true_iff, String.eqb_neq.
  - rewrite Hd. unfold Relay.onHighlight. rewrite map_map. cbn.
    rewrite map_id. intros H. apply filter_In in H as [_ H].
    now rewrite String.eqb_refl in H.
  - rewrite Hb.
    destruct (existsb (sameRangeAndUser n) (bucketOf (localHighlights sB) vId))
      eqn:E.
    + apply existsb_exists in E as (h & Hh & Hm). exists h. split; auto.
      now apply sameRangeAndUser_spec.
    + exists n. split; [apply in_app_iff; right; now left|].
      repeat split.
  - intros Hnone. rewrite Hb.
    destruct (existsb (sameRangeAndUser n) (bucketOf (localHighlights sB) vId))
      eqn:E.
    + apply existsb_exists in E as (h & Hh & Hm). exfalso.
      apply (Hnone h Hh). now apply sameRangeAndUser_spec.
    + apply in_app_iff. right. now left.
Qed.

(** U1 draws [5,10); the tab of U2, which holds [2,8), receives it. *)
Lemma X16_created_highlight_reaches_other_tabs_witness :
  let sA := stateOf false [] in
  let sB := stateOf false [highlightOf "U2" 2 8] in
  In (highlightOf "U1" 5 10)
    (bucketOf
       (localHighlights
          (ScriptureReader.onHighlight (highlightOf "U1" 5 10) sB))
       "Genesis_1_1").
Proof.
  intros sA sB.
  destruct (X16_created_highlight_reaches_other_tabs
              (render (reader "U1") (selecting "Genesis_1_1" 5 10 sA))
              sA sB 5 10 "Genesis_1_1" genesis_1_1
              {| Relay.sockets := ["tabA"; "tabB"]%string;
                 Relay.connectedUsers := [] |}
              "tabA" "tabB" eq_refl)
    as (_ & _ & _ & _ & _ & H & _).
  - discriminate.
  - discriminate.
  - left. reflexivity.
  - reflexivity.
  - reflexivity.
  - right. left. reflexivity.
  - discriminate.
  - apply H. intros h [<-|[]] (_ & _ & Hu). discriminate Hu.
Defined.

(** ** Moving between chapters *)

Lemma findIndexFrom_range {A : Type} (f : A -> bool) (l : list A) (i : Z) :
  findIndexFrom f i l = -1 \/
  i <= findIndexFrom f i l < i + Z.of_nat (List.length l).
Proof.
  revert i. induction l as [|x l IH]; intros i; simpl findIndexFrom.
  - now left.
  - destruct (f x).
    + right. cbn [List.length]. lia.
    + destruct (IH (i + 1)) as [E|E]; [now left|right].
      cbn [List.length]. lia.
Qed.

Lemma findIndex_range {A : Type} (f : A -> bool) (l : list A) :
  findIndex f l = -1 \/ 0 <= findIndex f l < Z.of_nat (List.length l).
Proof. exact (findIndexFrom_range f l 0). Qed.

Lemma findIndexFrom_at {A : Type} (f : A -> bool) (l : list A) :
  forall (i : Z) (n : nat) (x : A),
    nth_error l n = Some x -> f x = true ->
    (forall m y, (m < n)%nat -> nth_error l m = Some y -> f y = false) ->
    findIndexFrom f i l = i + Z.of_nat n.
Proof.
  induction l as [|a l IH]; intros i n x Hn Hx Hbefore.
  - destruct n; discriminate Hn.
  - destruct n as [|n]; simpl in Hn; simpl findIndexFrom.
    + injection Hn as ->. rewrite Hx. lia.
    + rewrite (Hbefore 0%nat a) by (try lia; reflexivity).
      rewrite (IH (i + 1) n x Hn Hx).
      * lia.
      * intros m y Hm Hy. apply (Hbefore (S m) y); [lia|exact Hy].
Qed.

Lemma at_nat {A : Type} (l : list A) (n : nat) :
  at_ l (Z.of_nat n) = nth_error l n.
Proof.
  unfold at_. destruct (Z.ltb_spec (Z.of_nat n) 0); [lia|].
  now rewrite Nat2Z.id.
Qed.

Lemma at_in_range {A : Type} (l : list A) (i : Z) :
  0 <= i < Z.of_nat (List.length l) -> exists x, at_ l i = Some x.
Proof.
  intros Hi. rewrite <- (Z2Nat.id i) by lia. rewrite at_nat.
  destruct (nth_error l (Z.to_nat i)) as [x|] eqn:E; [now exists x|].
  apply nth_error_None in E. lia.
Qed.

Lemma index_of_key {A K : Type} (key : A -> K) (f : A -> bool)
    (l : list A) (n : nat) (x : A) :
  NoDup (map key l) -> nth_error l n = Some x -> f x = true ->
  (forall y, f y = true -> key y = key x) ->
  findIndex f l = Z.of_nat n.
Proof.
  intros Hnd Hn Hx Hkey. unfold findIndex.
  rewrite (findIndexFrom_at f l 0 n x Hn Hx); [lia|].
  intros m y Hm Hy. destruct (f y) eqn:Hfy; [exfalso|reflexivity].
  assert (Heq : nth_error (map key l) m = nth_error (map key l) n).
  { rewrite !nth_error_map, Hy, Hn. simpl. now rewrite (Hkey y Hfy). }
  assert (Hlen : (m < List.length (map key l))%nat).
  { apply nth_error_Some. rewrite nth_error_map, Hy. discriminate. }
  pose proof (proj1 (NoDup_nth_error (map key l)) Hnd m n Hlen Heq). lia.
Qed.

Lemma chapter_index (cs : list Chapter) (n : nat) (ch : Chapter)
    (i : string) :
  NoDup (map c_chapterId cs) -> nth_error cs n = Some ch ->
  c_chapterId ch = Some i ->
  findIndex (isChapter i) cs = Z.of_nat n.
Proof.
  intros Hnd Hn Hi. apply (index_of_key c_chapterId _ cs n ch Hnd Hn).
  - unfold isChapter. rewrite Hi. apply String.eqb_refl.
  - intros y. unfold isChapter. rewrite Hi.
    destruct (c_chapterId y) as [k|]; [|discriminate].
    intros E. apply String.eqb_eq in E. now subst.
Qed.

Lemma book_index (bs : list Book) (n : nat) (b : Book) :
  NoDup (map title bs) -> nth_error bs n = Some b ->
  findIndex (fun x => String.eqb (title x) (title b)) bs = Z.of_nat n.
Proof.
  intros Hnd Hn. apply (index_of_key title _ bs n b Hnd Hn).
  - apply String.eqb_refl.
  - intros y E. now apply String.eqb_eq in E.
Qed.

Lemma nth_error_length {A : Type} (l : list A) (n : nat) (x : A) :
  nth_error l n = Some x -> (n < List.length l)%nat.
Proof. intros E. apply nth_error_Some. rewrite E. discriminate. Qed.

(** X17: the two buttons never read outside the lists.  Whatever is on
    the screen, the handler of [Previous Chapter] and the handler of
    [Next Chapter] run to their end: each element they read, of
    [chapters] or of [books], is there.  Neither changes the two
    lists. *)
Theorem X17_chapter_buttons_stay_within_the_lists (nav : Navigation) :
  (exists nav', previousChapterClick nav = Some nav' /\
                books nav' = books nav /\ chapters nav' = chapters nav) /\
  (exists nav', nextChapterClick nav = Some nav' /\
                books nav' = books nav /\ chapters nav' = chapters nav).
Proof.
  split.
  - unfold previousChapterClick.
    pose proof (findIndex_range (isChapter (selectedChapter nav))
                  (chapters nav)) as Hc.
    pose proof (findIndex_range
                  (fun b => String.eqb (title b) (selectedBook nav))
                  (books nav)) as Hb.
    destruct (Z.gtb_spec
                (findIndex (isChapter (selectedChapter nav)) (chapters nav))
                0) as [H|H].
    + destruct (at_in_range (chapters nav)
                  (findIndex (isChapter (selectedChapter nav))
                     (chapters nav) - 1)) as [ch ->]; [lia|].
      eexists. split; [reflexivity|split; reflexivity].
    + destruct (Z.gtb_spec
                  (findIndex
                     (fun b => String.eqb (title b) (selectedBook nav))
                     (books nav)) 0) as [H'|H'].
      * destruct (at_in_range (books nav)
                    (findIndex
                       (fun b => String.eqb (title b) (selectedBook nav))
                       (books nav) - 1)) as [b ->]; [lia|].
        eexists. split; [reflexivity|split; reflexivity].
      * eexists. split; [reflexivity|split; reflexivity].
  - unfold nextChapterClick.
    pose proof (findIndex_range (isChapter (selectedChapter nav))
                  (chapters nav)) as Hc.
    pose proof (findIndex_range
                  (fun b => String.eqb (title b) (selectedBook nav))
                  (books nav)) as Hb.
    destruct (Z.ltb_spec
                (findIndex (isChapter (selectedChapter nav)) (chapters nav))
                (Z.of_nat (List.length (chapters nav)) - 1)) as [H|H].
    + destruct (at_in_range (chapters nav)
                  (findIndex (isChapter (selectedChapter nav))
                     (chapters nav) + 1)) as [ch ->]; [lia|].
      eexists. split; [reflexivity|split; reflexivity].
    + destruct (Z.ltb_spec
                  (findIndex
                     (fun b => String.eqb (title b) (selectedBook nav))
                     (books nav))
                  (Z.of_nat (List.length (books nav)) - 1)) as [H'|H'].
      * destruct (at_in_range (books nav)
                    (findIndex
                       (fun b => String.eqb (title b) (selectedBook nav))
                       (books nav) + 1)) as [b ->]; [lia|].
        eexists. split; [reflexivity|split; reflexivity].
      * eexists. split; [reflexivity|split; reflexivity].
Qed.

Lemma nextChapterClick_within (nav : Navigation) (n : nat)
    (ch ch' : Chapter) (i : string) :
  NoDup (map c_chapterId (chapters nav)) ->
  nth_error (chapters nav) n = Some ch ->
  nth_error (chapters nav) (S n) = Some ch' ->
  c_chapterId ch = Some i -> selectedChapter nav = i ->
  nextChapterClick nav
  = Some (handleChapterChange (chapterIdOrEmpty ch') nav).
Proof.
  intros Hnd Hn Hn' Hi Hsel. unfold nextChapterClick.
  rewrite Hsel, (chapter_index _ n ch i Hnd Hn Hi).
  pose proof (nth_error_length _ _ _ Hn') as Hlen.
  destruct (Z.ltb_spec (Z.of_nat n)
              (Z.of_nat (List.length (chapters nav)) - 1)); [|lia].
  replace (Z.of_nat n + 1) with (Z.of_nat (S n)) by lia.
  now rewrite at_nat, Hn'.
Qed.

Lemma previousChapterClick_within (nav : Navigation) (n : nat)
    (ch ch' : Chapter) (i' : string) :
  NoDup (map c_chapterId (chapters nav)) ->
  nth_error (chapters nav) n = Some ch ->
  nth_error (chapters nav) (S n) = Some ch' ->
  c_chapterId ch' = Some i' -> selectedChapter nav = i' ->
  previousChapterClick nav
  = Some (handleChapterChange (chapterIdOrEmpty ch) nav).
Proof.
  intros Hnd Hn Hn' Hi Hsel. unfold previousChapterClick.
  rewrite Hsel, (chapter_index _ (S n) ch' i' Hnd Hn' Hi).
  destruct (Z.gtb_spec (Z.of_nat (S n)) 0); [|lia].
  replace (Z.of_nat (S n) - 1) with (Z.of_nat n) by lia.
  now rewrite at_nat, Hn.
Qed.

(** X18: there and back within a book.  Let the chapters on the screen
    have distinct ids, and let two of them follow each other, both with
    an id.  From the first, [Next Chapter] selects the second and
    [Previous Chapter] then selects the first again; from the second,
    [Previous Chapter] selects the first and [Next Chapter] then the
    second again.  Either way the screen ends as if the chapter it
    started on had been chosen in the chapter menu: the same book and
    lists, no verses shown and no verse selected. *)
Theorem X18_next_and_previous_are_inverse_within_a_book
    (nav : Navigation) (n : nat) (ch ch' : Chapter) (i i' : string) :
  NoDup (map c_chapterId (chapters nav)) ->
  nth_error (chapters nav) n = Some ch ->
  nth_error (chapters nav) (S n) = Some ch' ->
  c_chapterId ch = Some i -> c_chapterId ch' = Some i' ->
  (selectedChapter nav = i ->
   exists nav1,
     nextChapterClick nav = Some nav1 /\ selectedChapter nav1 = i' /\
     previousChapterClick nav1 = Some (handleChapterChange i nav)) /\
  (selectedChapter nav = i' ->
   exists nav1,
     previousChapterClick nav = Some nav1 /\ selectedChapter nav1 = i /\
     nextChapterClick nav1 = Some (handleChapterChange i' nav)).
Proof.
  intros Hnd Hn Hn' Hi Hi'.
  assert (Ei : chapterIdOrEmpty ch = i) by (unfold chapterIdOrEmpty; now rewrite Hi).
  assert (Ei' : chapterIdOrEmpty ch' = i')
    by (unfold chapterIdOrEmpty; now rewrite Hi').
  split; intros Hsel.
  - exists (handleChapterChange i' nav). split; [|split].
    + rewrite (nextChapterClick_within nav n ch ch' i Hnd Hn Hn' Hi Hsel).
      now rewrite Ei'.
    + reflexivity.
    + rewrite (previousChapterClick_within (handleChapterChange i' nav)
                 n ch ch' i' Hnd Hn Hn' Hi' eq_refl).
      now rewrite Ei.
  - exists (handleChapterChange i nav). split; [|split].
    + rewrite (previousChapterClick_within nav n ch ch' i' Hnd Hn Hn' Hi'
                 Hsel).
      now rewrite Ei.
    + reflexivity.
    + rewrite (nextChapterClick_within (handleChapterChange i nav)
                 n ch ch' i Hnd Hn Hn' Hi eq_refl).
      now rewrite Ei'.
Qed.

Lemma X18_next_and_previous_are_inverse_within_a_book_witness :
  exists nav1,
    nextChapterClick (reading "Jarom" jarom "Jarom_2") = Some nav1 /\
    selectedChapter nav1 = "Jarom_3"%string /\
    previousChapterClick nav1
    = Some (handleChapterChange "Jarom_2" (reading "Jarom" jarom "Jarom_2")).
Proof.
  refine (proj1 (X18_next_and_previous_are_inverse_within_a_book
                   (reading "Jarom" jarom "Jarom_2") 1
                   (chapterOf "Jarom" 2 "Jarom_2")
                   (chapterOf "Jarom" 3 "Jarom_3") "Jarom_2" "Jarom_3"
                   _ eq_refl eq_refl eq_refl eq_refl) eq_refl).
  repeat constructor; cbn; intuition discriminate.
Defined.

Lemma titles_differ (bs : list Book) (n m : nat) (b b' : Book) :
  NoDup (map title bs) -> nth_error bs n = Some b ->
  nth_error bs m = Some b' -> n <> m ->
  String.eqb (title b) (title b') = false.
Proof.
  intros Hnd Hn Hm Hne. apply String.eqb_neq. intros E. apply Hne.
  apply (proj1 (NoDup_nth_error (map title bs)) Hnd).
  - rewrite length_map. exact (nth_error_length _ _ _ Hn).
  - now rewrite !nth_error_map, Hn, Hm; simpl; rewrite E.
Qed.

Lemma nextChapterClick_crosses (nav : Navigation) (j : nat) (b b' : Book)
    (final : Chapter) (i : string) :
  NoDup (map title (books nav)) ->
  nth_error (books nav) j = Some b ->
  nth_error (books nav) (S j) = Some b' ->
  selectedBook nav = title b ->
  NoDup (map c_chapterId (chapters nav)) ->
  nth_error (chapters nav) (pred (List.length (chapters nav))) = Some final ->
  c_chapterId final = Some i -> selectedChapter nav = i ->
  nextChapterClick nav = Some (goToBook (navigationRef nav) (title b') nav).
Proof.
  intros Hbs Hj Hj' Hbook Hcs Hfinal Hi Hsel. unfold nextChapterClick.
  rewrite Hsel, (chapter_index _ _ final i Hcs Hfinal Hi).
  pose proof (nth_error_length _ _ _ Hfinal) as Hlen.
  pose proof (nth_error_length _ _ _ Hj') as Hlen'.
  destruct (Z.ltb_spec (Z.of_nat (pred (List.length (chapters nav))))
              (Z.of_nat (List.length (chapters nav)) - 1)); [lia|].
  rewrite Hbook, (book_index _ j b Hbs Hj).
  destruct (Z.ltb_spec (Z.of_nat j)
              (Z.of_nat (List.length (books nav)) - 1)); [|lia].
  replace (Z.of_nat j + 1) with (Z.of_nat (S j)) by lia.
  now rewrite at_nat, Hj'.
Qed.

Lemma previousChapterClick_crosses (nav : Navigation) (j : nat)
    (b b' : Book) (first : Chapter) (rest : list Chapter) (i : string) :
  NoDup (map title (books nav)) ->
  nth_error (books nav) j = Some b ->
  nth_error (books nav) (S j) = Some b' ->
  selectedBook nav = title b' ->
  chapters nav = first :: rest ->
  c_chapterId first = Some i -> selectedChapter nav = i ->
  previousChapterClick nav
  = Some (goToBook (Some (title b, "last"%string)) (title b) nav).
Proof.
  intros Hbs Hj Hj' Hbook Hcs Hi Hsel. unfold previousChapterClick.
  rewrite Hsel, Hcs. unfold findIndex at 1. simpl findIndexFrom.
  unfold isChapter at 1. rewrite Hi, String.eqb_refl.
  change (0 >? 0) with false. cbv iota.
  rewrite Hbook, (book_index _ (S j) b' Hbs Hj').
  destruct (Z.gtb_spec (Z.of_nat (S j)) 0); [|lia].
  replace (Z.of_nat (S j) - 1) with (Z.of_nat j) by lia.
  now rewrite at_nat, Hj.
Qed.

(** X19: there and back across two books.  Let the titles of the books
    be distinct and not empty, let the chapters on the screen have
    distinct ids, let the last of them be selected, and let no move
    wait to be completed.  [Next Chapter] then selects the following
    book, and when its chapters arrive the first of them is selected.
    If that chapter has an id, [Previous Chapter] selects the book
    before and records that its last chapter is wanted; when the
    chapters of that book arrive, the chapter the reader started on is
    selected again, with the book and the chapters as they were, and
    nothing is left waiting. *)
Theorem X19_next_and_previous_are_inverse_across_books
    (nav : Navigation) (j : nat) (b b' : Book) (final : Chapter)
    (i : string) (first' : Chapter) (rest' : list Chapter) (i' : string) :
  NoDup (map title (books nav)) ->
  nth_error (books nav) j = Some b ->
  nth_error (books nav) (S j) = Some b' ->
  title b <> ""%string -> title b' <> ""%string ->
  selectedBook nav = title b ->
  NoDup (map c_chapterId (chapters nav)) ->
  nth_error (chapters nav) (pred (List.length (chapters nav))) = Some final ->
  c_chapterId final = Some i -> selectedChapter nav = i ->
  navigationRef nav = None ->
  c_chapterId first' = Some i' ->
  exists nav1 nav3,
    nextChapterClick nav = Some nav1 /\
    let nav2 := chaptersEffect (Some (first' :: rest')) nav nav1 in
    selectedBook nav2 = title b' /\ selectedChapter nav2 = i' /\
    chapters nav2 = first' :: rest' /\
    previousChapterClick nav2 = Some nav3 /\
    navigationRef nav3 = Some (title b, "last"%string) /\
    let nav4 := chaptersEffect (Some (chapters nav)) nav2 nav3 in
    selectedBook nav4 = selectedBook nav /\
    selectedChapter nav4 = selectedChapter nav /\
    chapters nav4 = chapters nav /\ books nav4 = books nav /\
    navigationRef nav4 = None.
Proof.
  intros Hbs Hj Hj' Hb Hb' Hbook Hcs Hfinal Hi Hsel Href Hi'.
  pose proof (titles_differ _ j (S j) b b' Hbs Hj Hj' (n_Sn j)) as Hne.
  assert (Hne' : String.eqb (title b') (title b) = false)
    by (now rewrite String.eqb_sym).
  pose proof (nth_error_length _ _ _ Hfinal) as Hlen.
  assert (E2 : chaptersEffect (Some (first' :: rest')) nav
                 (goToBook (navigationRef nav) (title b') nav)
               = {| books := books nav; chapters := first' :: rest';
                    selectedBook := title b'; selectedChapter := i';
                    shownVerses := shownVerses nav;
                    selectedVerse := selectedVerse nav;
                    navigationRef := None; loading := false;
                    loadError := loadError nav |}).
  { unfold chaptersEffect, goToBook. cbn [selectedBook].
    rewrite Hbook, Hne. unfold fetchChapters.
    cbn [selectedBook navigationRef books chapters shownVerses selectedVerse
         loadError].
    rewrite (truthy_true _ Hb'), Href. cbn [fst snd].
    unfold chapterIdOrEmpty. now rewrite Hi'. }
  exists (goToBook (navigationRef nav) (title b') nav).
  eexists. split.
  { exact (nextChapterClick_crosses nav j b b' final i Hbs Hj Hj' Hbook Hcs
             Hfinal Hi Hsel). }
  cbv zeta. rewrite E2. cbn [selectedBook selectedChapter chapters].
  split; [reflexivity|]. split; [reflexivity|]. split; [reflexivity|].
  split.
  { match goal with
    | |- previousChapterClick ?n = _ =>
        exact (previousChapterClick_crosses n j b b' first' rest' i' Hbs Hj
                 Hj' eq_refl eq_refl Hi' eq_refl)
    end. }
  split; [reflexivity|].
  unfold chaptersEffect, goToBook. cbn [selectedBook].
  rewrite Hne'. unfold fetchChapters.
  cbn [selectedBook navigationRef books chapters shownVerses selectedVerse
       loadError].
  rewrite (truthy_true _ Hb), String.eqb_refl.
  change (String.eqb "last" "last") with true. cbn [andb].
  destruct (Z.ltb_spec 0 (Z.of_nat (List.length (chapters nav)))); [|lia].
  replace (Z.of_nat (List.length (chapters nav)) - 1)
    with (Z.of_nat (pred (List.length (chapters nav)))) by lia.
  rewrite at_nat, Hfinal. cbn.
  unfold chapterIdOrEmpty. rewrite Hi, Hbook, Hsel. repeat split.
Qed.

Lemma X19_next_and_previous_are_inverse_across_books_witness :
  let nav := reading "Jarom" jarom "Jarom_3" in
  exists nav1 nav3,
    nextChapterClick nav = Some nav1 /\
    let nav2 := chaptersEffect (Some omni) nav nav1 in
    selectedBook nav2 = "Omni"%string /\
    selectedChapter nav2 = "Omni_1"%string /\
    chapters nav2 = omni /\
    previousChapterClick nav2 = Some nav3 /\
    navigationRef nav3 = Some ("Jarom"%string, "last"%string) /\
    let nav4 := chaptersEffect (Some jarom) nav2 nav3 in
    selectedBook nav4 = "Jarom"%string /\
    selectedChapter nav4 = "Jarom_3"%string /\
    chapters nav4 = jarom /\ books nav4 = books nav /\
    navigationRef nav4 = None.
Proof.
  intros nav.
  refine (X19_next_and_previous_are_inverse_across_books nav 1
            (bookOf "Jarom" 3) (bookOf "Omni" 2)
            (chapterOf "Jarom" 3 "Jarom_3") "Jarom_3"
            (chapterOf "Omni" 1 "Omni_1") [chapterOf "Omni" 2 "Omni_2"]
            "Omni_1" _ eq_refl eq_refl _ _ eq_refl _ eq_refl eq_refl eq_refl
            eq_refl eq_refl).
  - repeat constructor; cbn; intuition discriminate.
  - discriminate.
  - discriminate.
  - repeat constructor; cbn; intuition discriminate.
Defined.

(** X20: the ends of the library.  Let the titles of the books and the
    ids of the chapters on the screen be distinct.  With the first
    chapter of the first book selected, [Previous Chapter] changes
    nothing; with the last chapter of the last book selected,
    [Next Chapter] changes nothing. *)
Theorem X20_chapter_buttons_stop_at_the_ends (nav : Navigation) (b : Book)
    (ch : Chapter) :
  NoDup (map title (books nav)) ->
  NoDup (map c_chapterId (chapters nav)) ->
  selectedBook nav = title b ->
  c_chapterId ch = Some (selectedChapter nav) ->
  (nth_error (books nav) 0 = Some b ->
   nth_error (chapters nav) 0 = Some ch ->
   previousChapterClick nav = Some nav) /\
  (nth_error (books nav) (pred (List.length (books nav))) = Some b ->
   nth_error (chapters nav) (pred (List.length (chapters nav))) = Some ch ->
   nextChapterClick nav = Some nav).
Proof.
  intros Hbs Hcs Hbook Hid. split; intros Hb Hch.
  - unfold previousChapterClick.
    rewrite (chapter_index _ _ ch _ Hcs Hch Hid).
    rewrite Hbook, (book_index _ _ b Hbs Hb). reflexivity.
  - unfold nextChapterClick.
    rewrite (chapter_index _ _ ch _ Hcs Hch Hid).
    rewrite Hbook, (book_index _ _ b Hbs Hb).
    pose proof (nth_error_length _ _ _ Hb).
    pose proof (nth_error_length _ _ _ Hch).
    destruct (Z.ltb_spec (Z.of_nat (pred (List.length (chapters nav))))
                (Z.of_nat (List.length (chapters nav)) - 1)); [lia|].
    destruct (Z.ltb_spec (Z.of_nat (pred (List.length (books nav))))
                (Z.of_nat (List.length (books nav)) - 1)); [lia|].
    reflexivity.
Qed.

Lemma X20_chapter_buttons_stop_at_the_ends_witness :
  previousChapterClick (reading "Enos" enos "Enos_1")
  = Some (reading "Enos" enos "Enos_1") /\
  nextChapterClick (reading "Omni" omni "Omni_2")
  = Some (reading "Omni" omni "Omni_2").
Proof.
  split.
  - refine (proj1 (X20_chapter_buttons_stop_at_the_ends
                     (reading "Enos" enos "Enos_1") (bookOf "Enos" 1)
                     (chapterOf "Enos" 1 "Enos_1") _ _ eq_refl eq_refl)
              eq_refl eq_refl);
      repeat constructor; cbn; intuition discriminate.
  - refine (proj2 (X20_chapter_buttons_stop_at_the_ends
                     (reading "Omni" omni "Omni_2") (bookOf "Omni" 2)
                     (chapterOf "Omni" 2 "Omni_2") _ _ eq_refl eq_refl)
              eq_refl eq_refl);
      repeat constructor; cbn; intuition discriminate.
Defined.
